(** * fed-word2vec: the text cleaner ([src/text_cleaner.py])

    A shallow embedding of the text extraction and line classification
    engine, the removal guard, the corpus profiler and the tree processor,
    followed by the properties of the specification that concern them.

    Conventions of the embedding.
    - A Python [str] is a [string]; a character is a code point below 256
      (the Latin-1 range), classified as Python classifies it
      ([str.isspace], [str.lower], the [re] classes in Unicode mode).
    - A Python [float] is an IEEE 754 binary64 value, a [spec_float] with
      precision 53 and maximal exponent 1024; the arithmetic is the
      correctly rounded arithmetic of the standard library's [SpecFloat].
    - A Python [int] that counts something is a [nat].
    - A [Counter] and the set of written files are finite maps ([gmap]).
    - Code that can raise runs in a small state-and-exception monad.
    - What the module borrows from other libraries (BeautifulSoup,
      [pathlib], the file system, [sorted], [statistics.fmean]) is a
      field of the record [Env]; text written to standard output is not
      modelled. *)

From Stdlib Require Import ZArith Ascii String List Bool Lia SpecFloat.
From stdpp Require Import gmap strings list fin_maps.
Import ListNotations.

Local Open Scope string_scope.
Local Open Scope list_scope.
Local Open Scope nat_scope.

(** ** Characters *)

Module Chr.

Definition code (c : ascii) : N := N_of_ascii c.

Definition in_range (lo hi n : N) : bool := N.leb lo n && N.leb n hi.

Definition between (lo hi : N) (c : ascii) : bool := in_range lo hi (code c).

Definition nl : ascii := ascii_of_N 10.
Definition tab : ascii := ascii_of_N 9.

Definition eqb (a b : ascii) : bool := Ascii.eqb a b.

(** [str.isspace] on one code point below 256: TAB..CR, FS..US, space,
    NEL (0x85) and the no-break space (0xA0).  This is also what [\s]
    matches and what [str.strip()] removes. *)
Definition isspace (c : ascii) : bool :=
  let n := code c in
  in_range 9 13 n || in_range 28 32 n || N.eqb n 133 || N.eqb n 160.

(** [\d] in Unicode mode, below 256: the ASCII digits. *)
Definition isdigit (c : ascii) : bool := between 48 57 c.

(** [str.lower] on one code point below 256. *)
Definition lower (c : ascii) : ascii :=
  let n := code c in
  if in_range 65 90 n || in_range 192 214 n || in_range 216 222 n
  then ascii_of_N (n + 32) else c.

(** [str.upper] on one code point, where the result stays below 256
    (the upper-case forms of 0xB5, 0xDF and 0xFF lie outside). *)
Definition upper (c : ascii) : ascii :=
  let n := code c in
  if in_range 97 122 n || in_range 224 246 n || in_range 248 254 n
  then ascii_of_N (n - 32) else c.

(** [\w] in Unicode mode, below 256: alphanumeric ([str.isalnum]) or
    the underscore. *)
Definition isword (c : ascii) : bool :=
  let n := code c in
  in_range 48 57 n || in_range 65 90 n || in_range 97 122 n || N.eqb n 95
  || N.eqb n 170 || N.eqb n 178 || N.eqb n 179
  || N.eqb n 181 || N.eqb n 185 || N.eqb n 186
  || in_range 188 190 n || in_range 192 214 n || in_range 216 246 n
  || in_range 248 255 n.

End Chr.

(** ** Strings: the [str] methods the module calls *)

Module Str.

Definition nl : string := String Chr.nl "".

Fixpoint all (p : ascii -> bool) (s : string) : bool :=
  match s with
  | "" => true
  | String c s' => p c && all p s'
  end.

Definition head (s : string) : option ascii :=
  match s with
  | "" => None
  | String c _ => Some c
  end.

Definition is_empty (s : string) : bool :=
  match s with
  | "" => true
  | String _ _ => false
  end.

(** [s.lower()] *)
Fixpoint lower (s : string) : string :=
  match s with
  | "" => ""
  | String c s' => String (Chr.lower c) (lower s')
  end.

(** [s.startswith(p)] *)
Fixpoint startswith (p s : string) : bool :=
  match p, s with
  | "", _ => true
  | String a p', String b s' => Chr.eqb a b && startswith p' s'
  | String _ _, "" => false
  end.

(** [sub in s] *)
Fixpoint contains (sub s : string) : bool :=
  startswith sub s ||
  match s with
  | "" => false
  | String _ s' => contains sub s'
  end.

(** [s.count(c)] for a one-character argument. *)
Fixpoint count (c : ascii) (s : string) : nat :=
  match s with
  | "" => 0
  | String x s' => (if Chr.eqb x c then 1 else 0) + count c s'
  end.

(** [s.replace(old, new)] for a non-empty [old]: the occurrences are
    found from left to right and do not overlap.  [skip] counts the
    characters of the occurrence just replaced that are still ahead. *)
Fixpoint replace_from (old new : string) (skip : nat) (s : string) : string :=
  match s with
  | "" => ""
  | String c s' =>
      match skip with
      | S k => replace_from old new k s'
      | O =>
          if startswith old s
          then new +:+ replace_from old new (String.length old - 1) s'
          else String c (replace_from old new 0 s')
      end
  end.

Definition replace (old new s : string) : string := replace_from old new 0 s.

(** [s.lstrip()], [s.rstrip()] and [s.strip()] *)
Fixpoint lstrip (s : string) : string :=
  match s with
  | "" => ""
  | String c s' => if Chr.isspace c then lstrip s' else s
  end.

Fixpoint rstrip (s : string) : string :=
  match s with
  | "" => ""
  | String c s' =>
      let r := rstrip s' in
      if Chr.isspace c && is_empty r then "" else String c r
  end.

Definition strip (s : string) : string := rstrip (lstrip s).

(** [s.split(sep)] for a one-character separator: never the empty list. *)
Fixpoint split (sep : ascii) (s : string) : list string :=
  match s with
  | "" => [""]
  | String c s' =>
      if Chr.eqb c sep then "" :: split sep s'
      else match split sep s' with
           | l :: ls => String c l :: ls
           | [] => [String c ""]
           end
  end.

(** [sep.join(parts)] *)
Fixpoint join (sep : string) (parts : list string) : string :=
  match parts with
  | [] => ""
  | [p] => p
  | p :: ps => p +:+ sep +:+ join sep ps
  end.

Definition len (s : string) : nat := String.length s.

End Str.

(** ** Regular expressions: the part of [re] the module uses *)

Module Re.

(** One item of a bracketed set. *)
Inductive item : Type :=
| ILit (c : ascii)            (* a literal character *)
| IRange (lo hi : ascii)      (* [lo-hi] *)
| ISpace                      (* \s *)
| IDigit                      (* \d *)
| IWord.                      (* \w *)

Inductive t : Type :=
| Lit (s : string)            (* a run of literal characters *)
| Dot                         (* . : any character but the newline *)
| In_ (items : list item)     (* [...], and \s, \d, \w on their own *)
| Bol                         (* ^ *)
| Eol                         (* $ *)
| WordB                       (* \b *)
| Seq (r1 r2 : t)
| Alt (r1 r2 : t)
| Star (r : t)                (* r* *)
| Plus (r : t)                (* r+ *)
| Repeat (n : nat) (r : t)    (* r{n,} *)
| Opt (r : t).                (* r? *)

(** A position in the subject: the character before it, if any, and
    what is left to read. *)
Record cursor : Type := Cursor { before : option ascii; rest : string }.

Definition start (s : string) : cursor := Cursor None s.

Definition lit_char (ic : bool) (p x : ascii) : bool :=
  if ic then Chr.eqb (Chr.lower p) (Chr.lower x) else Chr.eqb p x.

Definition item_plain (i : item) (x : ascii) : bool :=
  match i with
  | ILit c => Chr.eqb c x
  | IRange lo hi => Chr.between (Chr.code lo) (Chr.code hi) x
  | ISpace => Chr.isspace x
  | IDigit => Chr.isdigit x
  | IWord => Chr.isword x
  end.

(** With IGNORECASE a set matches a character when it contains the
    character itself, its lower-case or its upper-case form. *)
Definition item_match (ic : bool) (i : item) (x : ascii) : bool :=
  item_plain i x ||
  (ic && (item_plain i (Chr.lower x) || item_plain i (Chr.upper x))).

Definition in_set (ic : bool) (items : list item) (x : ascii) : bool :=
  existsb (fun i => item_match ic i x) items.

Fixpoint run_lit (ic : bool) (p : string) (c : cursor) : list cursor :=
  match p with
  | "" => [c]
  | String a p' =>
      match rest c with
      | String x s' =>
          if lit_char ic a x then run_lit ic p' (Cursor (Some x) s') else []
      | "" => []
      end
  end.

Definition one (ok : ascii -> bool) (c : cursor) : list cursor :=
  match rest c with
  | String x s' => if ok x then [Cursor (Some x) s'] else []
  | "" => []
  end.

Definition word_before (c : cursor) : bool :=
  match before c with Some x => Chr.isword x | None => false end.

Definition word_after (c : cursor) : bool :=
  match rest c with String x _ => Chr.isword x | "" => false end.

Definition at_end (c : cursor) : bool :=
  match rest c with
  | "" => true
  | String x "" => Chr.eqb x Chr.nl
  | _ => false
  end.

(** Zero or more rounds of [step]; a round that reads nothing is not
    repeated.  The longest repetitions come first (greedy). *)
Fixpoint star_from (step : cursor -> list cursor) (fuel : nat) (c : cursor)
  : list cursor :=
  match fuel with
  | O => [c]
  | S n =>
      flat_map (star_from step n)
        (List.filter
           (fun c' => String.length (rest c') <? String.length (rest c))
           (step c))
      ++ [c]
  end.

(** Exactly [n] rounds of [step]. *)
Fixpoint times (step : cursor -> list cursor) (n : nat) (c : cursor)
  : list cursor :=
  match n with
  | O => [c]
  | S k => flat_map (times step k) (step c)
  end.

(** [n] rounds or more. *)
Definition at_least (step : cursor -> list cursor) (n : nat) (c : cursor)
  : list cursor :=
  flat_map (fun c' => star_from step (String.length (rest c')) c')
    (times step n c).

(** All the positions at which a match of [r] starting at [c] can end,
    in the order in which the backtracking matcher finds them: the first
    one is the match that [re] reports. *)
Fixpoint run (ic : bool) (r : t) (c : cursor) : list cursor :=
  match r with
  | Lit s => run_lit ic s c
  | Dot => one (fun x => negb (Chr.eqb x Chr.nl)) c
  | In_ items => one (in_set ic items) c
  | Bol => match before c with None => [c] | Some _ => [] end
  | Eol => if at_end c then [c] else []
  | WordB => if xorb (word_before c) (word_after c) then [c] else []
  | Seq r1 r2 => flat_map (run ic r2) (run ic r1 c)
  | Alt r1 r2 => run ic r1 c ++ run ic r2 c
  | Star r1 => at_least (run ic r1) 0 c
  | Plus r1 => at_least (run ic r1) 1 c
  | Repeat n r1 => at_least (run ic r1) n c
  | Opt r1 => run ic r1 c ++ [c]
  end.

Definition matches_at (ic : bool) (r : t) (c : cursor) : bool :=
  match run ic r c with
  | [] => false
  | _ :: _ => true
  end.

(** [re.match(r, s, flags)] as a truth value: a match at the start. *)
Definition match_ (ic : bool) (r : t) (s : string) : bool :=
  matches_at ic r (start s).

(** [r.search(s)] as a truth value: a match at some position. *)
Fixpoint search_from (ic : bool) (r : t) (c : cursor) (fuel : nat) : bool :=
  matches_at ic r c ||
  match fuel, rest c with
  | S n, String x s' => search_from ic r (Cursor (Some x) s') n
  | _, _ => false
  end.

Definition search (ic : bool) (r : t) (s : string) : bool :=
  search_from ic r (start s) (String.length s).

(** The number of characters of the match of [r] at [c], if there is
    one. *)
Definition first_match (ic : bool) (r : t) (c : cursor) : option nat :=
  match run ic r c with
  | [] => None
  | c' :: _ => Some (String.length (rest c) - String.length (rest c'))
  end.

(** [re.sub(r, repl, s)] for a [repl] without group references: the scan
    goes from left to right; where [r] matches, [repl] is written and the
    scan jumps over the match ([skip] characters are still to be jumped
    over); a character that starts no match is copied.  An empty match
    is replaced too, and the character after it copied. *)
Fixpoint sub_from (ic : bool) (r : t) (repl : string) (skip : nat)
  (prev : option ascii) (s : string) : string :=
  match s with
  | "" =>
      match first_match ic r (Cursor prev "") with
      | Some _ => repl
      | None => ""
      end
  | String x s' =>
      match skip with
      | S k => sub_from ic r repl k (Some x) s'
      | O =>
          match first_match ic r (Cursor prev s) with
          | Some (S n) => repl +:+ sub_from ic r repl n (Some x) s'
          | Some O => repl +:+ String x (sub_from ic r repl 0 (Some x) s')
          | None => String x (sub_from ic r repl 0 (Some x) s')
          end
      end
  end.

Definition sub (ic : bool) (r : t) (repl s : string) : string :=
  sub_from ic r repl 0 None s.

(** [re.findall(r, s)] for an [r] without groups: the matches found by
    the same scan. *)
Fixpoint findall_from (ic : bool) (r : t) (skip : nat) (prev : option ascii)
  (s : string) : list string :=
  match s with
  | "" =>
      match first_match ic r (Cursor prev "") with
      | Some _ => [""]
      | None => []
      end
  | String x s' =>
      match skip with
      | S k => findall_from ic r k (Some x) s'
      | O =>
          match first_match ic r (Cursor prev s) with
          | Some (S n) =>
              String.substring 0 (S n) s :: findall_from ic r n (Some x) s'
          | Some O => "" :: findall_from ic r 0 (Some x) s'
          | None => findall_from ic r 0 (Some x) s'
          end
      end
  end.

Definition findall (ic : bool) (r : t) (s : string) : list string :=
  findall_from ic r 0 None s.

End Re.

(** ** Floats: binary64 *)

Module F64.

Definition prec : Z := 53.
Definition emax : Z := 1024.

Definition float : Type := spec_float.

Definition add : float -> float -> float := SFadd prec emax.
Definition sub : float -> float -> float := SFsub prec emax.
Definition mul : float -> float -> float := SFmul prec emax.
Definition div : float -> float -> float := SFdiv prec emax.

(** [a < b], [a <= b]; [a > b] is [ltb b a] and [a >= b] is [leb b a].
    Every comparison with a NaN is false. *)
Definition ltb (a b : float) : bool := SFltb a b.
Definition leb (a b : float) : bool := SFleb a b.

Definition zero : float := S754_zero false.

(** The exact quotient [num / den] rounded once, to nearest even. *)
Definition ratio (num den : positive) : float :=
  div (S754_finite false num 0) (S754_finite false den 0).

(** [float(n)] *)
Definition of_nat (n : nat) : float :=
  binary_normalize prec emax (Z.of_nat n) 0 false.

(** [a / b] on two non-negative [int]s with [b] different from zero:
    the correctly rounded quotient. *)
Definition truediv (a : nat) (b : positive) : float :=
  match a with
  | O => zero
  | S k => ratio (Pos.of_succ_nat k) b
  end.

(** A decimal literal: [lit 4 10] is [0.4] and [lit 10 100] is [0.10],
    the float nearest to the decimal fraction. *)
Definition lit (digits : nat) (scale : positive) : float := truediv digits scale.

(** [int(x)] for a finite [x]: truncation towards zero. *)
Definition trunc (x : float) : Z :=
  match x with
  | S754_finite s m e =>
      let a := match e with
               | Z0 => Zpos m
               | Zpos p => Z.shiftl (Zpos m) (Zpos p)
               | Zneg p => Z.shiftr (Zpos m) (Zpos p)
               end in
      if s then Z.opp a else a
  | _ => 0%Z
  end.

(** The built-ins [min(a, b)] and [max(a, b)]: the first argument is
    kept unless the second one is strictly smaller (larger). *)
Definition py_min (a b : float) : float := if ltb b a then b else a.
Definition py_max (a b : float) : float := if ltb a b then b else a.

(** [a == b], [abs(a)], [math.isfinite], [math.isnan], [math.isinf] *)
Definition eqb (a b : float) : bool := SFeqb a b.
Definition abs (a : float) : float := SFabs a.

Definition is_nan (a : float) : bool :=
  match a with
  | S754_nan => true
  | _ => false
  end.

Definition is_inf (a : float) : bool :=
  match a with
  | S754_infinity _ => true
  | _ => false
  end.

Definition is_finite (a : float) : bool := negb (is_nan a) && negb (is_inf a).

(** The largest float, [sys.float_info.max]. *)
Definition max_float : float := S754_finite false (2 ^ 53 - 1) 971.

(** The stable sort by [<] of a list of floats.  Where no item is a NaN
    [<] orders the items, the result of a stable sort is unique, and it
    is what [sorted(xs)] returns.  With a NaN among the items what
    [sorted] returns depends on the steps [list.sort] takes, and is not
    this list in general. *)
Fixpoint insert (x : float) (ys : list float) : list float :=
  match ys with
  | [] => [x]
  | y :: ys' => if ltb x y then x :: ys else y :: insert x ys'
  end.

Definition sorted (xs : list float) : list float :=
  fold_left (fun acc x => insert x acc) xs [].

(** [statistics.median(xs)] for a non-empty [xs]; [py_sorted] is the
    built-in [sorted]. *)
Definition median (py_sorted : list float -> list float) (xs : list float)
  : float :=
  let data := py_sorted xs in
  let n := length data in
  if Nat.eqb (n mod 2) 1 then nth (n / 2) data zero
  else
    let i := n / 2 in
    div (add (nth (i - 1) data zero) (nth i data zero)) (of_nat 2).

End F64.

Abbreviation float := F64.float.

(** ** Exceptions, the store and the monad of the effectful code *)

Inductive exn : Type :=
| OSError             (* the file system refuses a read, mkdir or write *)
| UnicodeDecodeError  (* a strict decoder meets bytes it cannot decode *)
| ValueError          (* [relative_to], [with_suffix], [fsum] *)
| OverflowError.      (* [fsum] *)

(** ** [math.fsum] and [statistics.fmean]

    [math.fsum] as CPython has it: the list of partial sums of
    Shewchuk's algorithm, the check for an overflow of a partial sum,
    the separate sums of the infinities and NaNs, and the final sum of
    the partials from the top with its correction for rounding to even. *)

Definition nonzero (x : float) : bool := negb (F64.eqb x F64.zero).

(** The inner loop: [x] goes through the partials [y]; what is left of
    it and the partials that are kept. *)
Fixpoint fsum_partials (x : float) (partials : list float)
  : float * list float :=
  match partials with
  | [] => (x, [])
  | y :: rest =>
      let swap := F64.ltb (F64.abs x) (F64.abs y) in
      let x1 := if swap then y else x in
      let y1 := if swap then x else y in
      let hi := F64.add x1 y1 in
      let yr := F64.sub hi x1 in
      let lo := F64.sub y1 yr in
      let (x', kept) := fsum_partials hi rest in
      (x', if nonzero lo then lo :: kept else kept)
  end.

Record fsum_state : Type := {
  partials : list float;
  special_sum : float;
  inf_sum : float
}.

(** One item [xsave] of the data. *)
Definition fsum_item (st : fsum_state) (xsave : float) : exn + fsum_state :=
  let (x, kept) := fsum_partials xsave (partials st) in
  if nonzero x then
    if F64.is_finite x then
      inr {| partials := kept ++ [x]; special_sum := special_sum st;
             inf_sum := inf_sum st |}
    else if F64.is_finite xsave then inl OverflowError
    else
      inr {| partials := [];
             special_sum := F64.add (special_sum st) xsave;
             inf_sum := if F64.is_inf xsave
                        then F64.add (inf_sum st) xsave else inf_sum st |}
  else
    inr {| partials := kept; special_sum := special_sum st;
           inf_sum := inf_sum st |}.

Fixpoint fsum_items (data : list float) (st : fsum_state) : exn + fsum_state :=
  match data with
  | [] => inr st
  | x :: data' =>
      match fsum_item st x with
      | inl e => inl e
      | inr st' => fsum_items data' st'
      end
  end.

(** The sum of the partials from the top, [below] being the partials
    under [hi], the nearest first; it stops at the first inexact sum. *)
Fixpoint fsum_exact (hi : float) (below : list float) : float :=
  match below with
  | [] => hi
  | y :: rest =>
      let x := hi in
      let hi := F64.add x y in
      let yr := F64.sub hi x in
      let lo := F64.sub y yr in
      if nonzero lo then
        match rest with
        | p :: _ =>
            if (F64.ltb lo F64.zero && F64.ltb p F64.zero)
               || (F64.ltb F64.zero lo && F64.ltb F64.zero p)
            then
              let y := F64.mul lo (F64.of_nat 2) in
              let x := F64.add hi y in
              let yr := F64.sub x hi in
              if F64.eqb y yr then x else hi
            else hi
        | [] => hi
        end
      else fsum_exact hi rest
  end.

Definition math_fsum (data : list float) : exn + float :=
  match
    fsum_items data
      {| partials := []; special_sum := F64.zero; inf_sum := F64.zero |}
  with
  | inl e => inl e
  | inr st =>
      if nonzero (special_sum st) then
        if F64.is_nan (inf_sum st) then inl ValueError
        else inr (special_sum st)
      else
        match rev (partials st) with
        | [] => inr F64.zero
        | hi :: below => inr (fsum_exact hi below)
        end
  end.

(** [statistics.fmean(data)] for a list: [fsum(data) / n]; an empty list
    raises [StatisticsError], a [ValueError]. *)
Definition statistics_fmean (data : list float) : exn + float :=
  match math_fsum data with
  | inl e => inl e
  | inr total =>
      match data with
      | [] => inl ValueError
      | _ :: _ => inr (F64.div total (F64.of_nat (length data)))
      end
  end.

Inductive encoding : Type := Utf8 | Latin1.

(** What the run changes: the files written under the output root and
    the caller's list of removed lines. *)
Record store : Type := Store {
  written : gmap string string;
  collected : list string
}.

Definition M (A : Type) : Type := store -> (exn + A) * store.

Definition ret {A} (a : A) : M A := fun st => (inr a, st).

Definition raise {A} (e : exn) : M A := fun st => (inl e, st).

Definition bind {A B} (m : M A) (k : A -> M B) : M B :=
  fun st =>
    match m st with
    | (inr a, st') => k a st'
    | (inl e, st') => (inl e, st')
    end.

(** [try: m  except Exception: handler] *)
Definition try_except {A} (m : M A) (handler : M A) : M A :=
  fun st =>
    match m st with
    | (inr a, st') => (inr a, st')
    | (inl _, st') => handler st'
    end.

Definition lift {A} (r : exn + A) : M A :=
  match r with
  | inr a => ret a
  | inl e => raise e
  end.

Notation "'do' x <- m ; k" := (bind m (fun x => k))
  (at level 10, x name, m at level 100, k at level 200).

(** A [for] loop that threads an accumulator. *)
Fixpoint for_each {A B} (body : B -> A -> M B) (xs : list A) (acc : B) : M B :=
  match xs with
  | [] => ret acc
  | x :: xs' => do acc' <- body acc x; for_each body xs' acc'
  end.

(** ** What the module takes from its libraries and from the file system *)

Record Env : Type := {
  (** Lines 158-171 of [extract_text]: parse with BeautifulSoup, drop the
      comments, pick the main node, decompose the tags of [STRIP_TAGS],
      and [get_text("\n", strip=True)]. *)
  main_text : string -> string;
  (** [root.rglob("*")], in the order of the walk *)
  rglob : string -> list string;
  (** [p.is_file()] *)
  is_file : string -> bool;
  (** [p.suffix] *)
  suffix : string -> string;
  (** [p.read_text(encoding=..., errors="ignore")] *)
  read_text : string -> encoding -> exn + string;
  (** [(output_root / path.relative_to(input_root)).with_suffix(".txt")] *)
  txt_path : string -> string -> string -> exn + string;
  (** [out.parent.mkdir(parents=True, exist_ok=True)] followed by the
      opening of [out] for writing: the exception raised, if any *)
  open_for_write : string -> option exn;
  (** [statistics.fmean] *)
  fmean : list float -> exn + float;
  (** What follows the opening of [out] in [out.write_text(text)]: the
      file is empty once it is open, and the writing, the flush or the
      closing may fail with an exception after some number of the
      characters of [text] have reached the file; [None] when all of
      [text] is written and the file closed. *)
  write_fails : string -> string -> option (exn * nat);
  (** The built-in [sorted] on a list of floats *)
  py_sorted : list float -> list float
}.

(** ** The constants of the module *)

Definition re_cat (rs : list Re.t) : Re.t := fold_right Re.Seq (Re.Lit "") rs.

Definition re_alt (r : Re.t) (rs : list Re.t) : Re.t := fold_left Re.Alt rs r.

Definition re_space : Re.t := Re.In_ [Re.ISpace].
Definition re_digit : Re.t := Re.In_ [Re.IDigit].
Definition re_word : Re.t := Re.In_ [Re.IWord].

Definition BOILERPLATE : list string :=
  [ "Board of Governors of the Federal Reserve System";
    "Back to top";
    "Return to text";
    "Skip to main content";
    "Accessibility";
    "Contact Us";
    "Last Update:";
    "Home |";
    "| Privacy" ].

Definition REMOVE_LINE_PATTERNS : list Re.t :=
  [ (* ^\s*PRESENT\s*:.*$ *)
    re_cat [Re.Bol; Re.Star re_space; Re.Lit "PRESENT"; Re.Star re_space;
            Re.Lit ":"; Re.Star Re.Dot; Re.Eol];
    (* ^\s*ATTENDEES?\s*:.*$ *)
    re_cat [Re.Bol; Re.Star re_space; Re.Lit "ATTENDEE"; Re.Opt (Re.Lit "S");
            Re.Star re_space; Re.Lit ":"; Re.Star Re.Dot; Re.Eol];
    (* ^\s*ATTENDING\s*:.*$ *)
    re_cat [Re.Bol; Re.Star re_space; Re.Lit "ATTENDING"; Re.Star re_space;
            Re.Lit ":"; Re.Star Re.Dot; Re.Eol];
    (* ^\s*Attended.*session.*$ *)
    re_cat [Re.Bol; Re.Star re_space; Re.Lit "Attended"; Re.Star Re.Dot;
            Re.Lit "session"; Re.Star Re.Dot; Re.Eol];
    (* Return to text *)
    Re.Lit "Return to text";
    (* \d+\.\s*Return to text *)
    re_cat [Re.Plus re_digit; Re.Lit "."; Re.Star re_space;
            Re.Lit "Return to text"];
    (* Footnote\s*\d+ *)
    re_cat [Re.Lit "Footnote"; Re.Star re_space; Re.Plus re_digit];
    (* ^\s*\d+\s*$ *)
    re_cat [Re.Bol; Re.Star re_space; Re.Plus re_digit; Re.Star re_space;
            Re.Eol];
    (* ^\s*[a-z]\.\s*$ *)
    re_cat [Re.Bol; Re.Star re_space; Re.In_ [Re.IRange "a" "z"]; Re.Lit ".";
            Re.Star re_space; Re.Eol];
    (* ^\s*\(\d+\)\s*$ *)
    re_cat [Re.Bol; Re.Star re_space; Re.Lit "("; Re.Plus re_digit;
            Re.Lit ")"; Re.Star re_space; Re.Eol];
    (* ^\s*\([a-z]\)\s*$ *)
    re_cat [Re.Bol; Re.Star re_space; Re.Lit "("; Re.In_ [Re.IRange "a" "z"];
            Re.Lit ")"; Re.Star re_space; Re.Eol];
    (* ^[\s\-_=]+$ *)
    re_cat [Re.Bol;
            Re.Plus (Re.In_ [Re.ISpace; Re.ILit "-"; Re.ILit "_"; Re.ILit "="]);
            Re.Eol];
    (* ^.*https?://.*$ *)
    re_cat [Re.Bol; Re.Star Re.Dot; Re.Lit "http"; Re.Opt (Re.Lit "s");
            Re.Lit "://"; Re.Star Re.Dot; Re.Eol];
    (* ^.*\bPDF\b.*$ *)
    re_cat [Re.Bol; Re.Star Re.Dot; Re.WordB; Re.Lit "PDF"; Re.WordB;
            Re.Star Re.Dot; Re.Eol];
    (* ^.*\.pdf\b.*$ *)
    re_cat [Re.Bol; Re.Star Re.Dot; Re.Lit ".pdf"; Re.WordB; Re.Star Re.Dot;
            Re.Eol] ].

Definition NARRATIVE_KEYWORDS : list string :=
  [ "inflation"; "policy"; "rate"; "funds"; "market"; "economic"; "growth";
    "financial"; "committee"; "participants"; "staff"; "balance"; "sheet";
    "reserve"; "credit"; "risk"; "employment"; "output"; "gdp"; "prices";
    "labor"; "wage"; "supply"; "demand"; "investment"; "spending";
    "unemployment"; "ioer"; "iorb"; "rrp"; "soma"; "balance sheet"; "runoff";
    "transmission"; "forecast"; "projection"; "estimate"; "assessment";
    "decision"; "rationale"; "tools";
    "mbs"; "mortgage-backed"; "mortgage backed"; "treasury"; "treasuries";
    "qe"; "qt"; "quantitative easing"; "quantitative tightening";
    "repo"; "reverse repo"; "repurchase";
    "discount window"; "primary credit"; "secondary credit";
    "standing repo facility"; "srf";
    "facility"; "facilities";
    "swap"; "swap lines"; "fima";
    "liquidity";
    "open market"; "desk"; "soma operations" ].

(** \b(is|are|...|did|\w+ing|\w+ed)\b, compiled with IGNORECASE *)
Definition VERB_PATTERN : Re.t :=
  re_cat [Re.WordB;
          re_alt (Re.Lit "is")
            [Re.Lit "are"; Re.Lit "was"; Re.Lit "were"; Re.Lit "be";
             Re.Lit "been"; Re.Lit "being"; Re.Lit "has"; Re.Lit "have";
             Re.Lit "had"; Re.Lit "will"; Re.Lit "would"; Re.Lit "should";
             Re.Lit "can"; Re.Lit "could"; Re.Lit "may"; Re.Lit "might";
             Re.Lit "does"; Re.Lit "do"; Re.Lit "did";
             Re.Seq (Re.Plus re_word) (Re.Lit "ing");
             Re.Seq (Re.Plus re_word) (Re.Lit "ed")];
          Re.WordB].

Definition IGNORECASE : bool := true.

Definition DEFAULT_REMOVAL_GUARD : float := F64.lit 4 10.

(** ** Line cleaning and line classification *)

Definition _remove_boilerplate (text : string) : string :=
  fold_left (fun text phrase => Str.replace phrase " " text) BOILERPLATE text.

(** The loop over [REMOVE_LINE_PATTERNS] that stops at the first pattern
    matching the stripped line. *)
Definition matches_remove_pattern (line : string) : bool :=
  existsb (fun pattern => Re.match_ IGNORECASE pattern (Str.strip line))
    REMOVE_LINE_PATTERNS.

Definition _remove_line_artifacts (text : string) : string :=
  let lines := Str.split Chr.nl text in
  let cleaned_lines :=
    fold_left
      (fun cleaned_lines line =>
         if matches_remove_pattern line then cleaned_lines
         else cleaned_lines ++ [line])
      lines [] in
  Str.join Str.nl cleaned_lines.

(** [re.findall(r"[A-Za-z']+", line)] *)
Definition words (line : string) : list string :=
  Re.findall false
    (Re.Plus (Re.In_ [Re.IRange "A" "Z"; Re.IRange "a" "z"; Re.ILit "'"])) line.

Definition _line_is_narrative (line : string) : bool :=
  let low := Str.lower line in
  if existsb (fun k => Str.contains k low) NARRATIVE_KEYWORDS then true
  else if Re.search IGNORECASE VERB_PATTERN line then
    if 6 <=? length (words line) then true else false
  else false.

Definition _line_is_garbage (line : string) : bool :=
  if matches_remove_pattern line then true
  else if 6 <=? length (words line) then
    let comma_count := Str.count "," line in
    if (3 <=? comma_count) && negb (Re.search IGNORECASE VERB_PATTERN line)
    then true else false
  else false.

(** ** [extract_text] *)

(** Lines 183-188: the loop that builds [kept_lines]. *)
Definition filter_lines (base_lines : list string) : list string :=
  fold_left
    (fun kept_lines ln =>
       if _line_is_narrative ln then kept_lines ++ [ln]
       else if negb (_line_is_garbage ln) then kept_lines ++ [ln]
       else kept_lines)
    base_lines [].

(** Lines 193-195: whether the guard sends the text back to the baseline.
    [guard] is never [None] there, and [base_chars] is tested for truth. *)
Definition guard_fallback (base_chars cleaned_chars : nat) (guard : float) : bool :=
  match base_chars with
  | O => false
  | S k =>
      let removed_ratio :=
        F64.sub (F64.lit 1 1) (F64.truediv cleaned_chars (Pos.of_succ_nat k)) in
      F64.ltb guard removed_ratio
  end.

(** Lines 177-198: the branch [if is_fomc]. *)
Definition strict_clean (text : string) (removal_guard : option float) : string :=
  let baseline := _remove_line_artifacts text in
  let base_chars := Str.len baseline in
  let base_lines := Str.split Chr.nl baseline in
  let kept_lines := filter_lines base_lines in
  let cleaned := Str.join Str.nl kept_lines in
  let guard :=
    match removal_guard with
    | Some g => g
    | None => DEFAULT_REMOVAL_GUARD
    end in
  if guard_fallback base_chars (Str.len cleaned) guard then baseline else cleaned.

(** Lines 204-205: the final normalization, [re.sub(r"[ \t]+", " ", text)]
    and then [re.sub(r"\n{3,}", "\n\n", text).strip()]. *)
Definition final_normalize (text : string) : string :=
  let text :=
    Re.sub false (Re.Plus (Re.In_ [Re.ILit " "; Re.ILit Chr.tab])) " " text in
  Str.strip
    (Re.sub false (Re.Repeat 3 (Re.Lit Str.nl)) (Str.nl +:+ Str.nl) text).

Definition extract_text (E : Env) (html : string) (is_fomc : bool)
  (removal_guard : option float) : string :=
  let text := main_text E html in
  let text := _remove_boilerplate text in
  let text :=
    if is_fomc then strict_clean text removal_guard
    else _remove_line_artifacts text in
  final_normalize text.

(** ** Tokens and counters *)

Definition tokenize (text : string) : list string :=
  map Str.lower
    (Re.findall false
       (Re.Plus
          (Re.In_ [Re.IRange "A" "Z"; Re.IRange "a" "z"; Re.IRange "0" "9";
                   Re.ILit "'"]))
       text).

(** [c.get(k, 0)] *)
Definition count_of (c : gmap string nat) (k : string) : nat :=
  default 0 (c !! k).

(** [Counter(xs)] *)
Definition Counter (xs : list string) : gmap string nat :=
  fold_left (fun c x => <[x := count_of c x + 1]> c) xs ∅.

(** [self.update(other)] for a mapping [other] *)
Definition Counter_update (self other : gmap string nat) : gmap string nat :=
  map_fold (fun elem count acc => <[elem := count + count_of acc elem]> acc)
    self other.

(** [sum(c.values())] *)
Definition Counter_total (c : gmap string nat) : nat :=
  map_fold (fun _ count acc => count + acc) 0 c.

Definition compute_removed_lines (baseline cleaned : string) : list string :=
  let b_lines := Str.split Chr.nl baseline in
  let c_counts := Counter (Str.split Chr.nl cleaned) in
  snd
    (fold_left
       (fun '(c_counts, removed) ln =>
          if 0 <? count_of c_counts ln
          then (<[ln := count_of c_counts ln - 1]> c_counts, removed)
          else (c_counts, removed ++ [ln]))
       b_lines (c_counts, [])).

(** ** [process_file] and [process_tree] *)

Definition read (E : Env) (path : string) (enc : encoding) : M string :=
  lift (read_text E path enc).

(** [try: read as UTF-8  except Exception: read as Latin-1] *)
Definition read_html (E : Env) (path : string) : M string :=
  try_except (read E path Utf8) (read E path Latin1).

(** [out.parent.mkdir(...)] and [out.write_text(text)].  When the
    directory cannot be made or the file not be opened nothing changes.
    Once the file is open it is empty; a failure after that leaves in it
    the characters written so far, and raises. *)
Definition write (E : Env) (out text : string) : M unit :=
  fun st =>
    match open_for_write E out with
    | Some e => (inl e, st)
    | None =>
        match write_fails E out text with
        | Some (e, k) =>
            (inl e,
             Store (<[out := String.substring 0 k text]> (written st))
               (collected st))
        | None =>
            (inr tt, Store (<[out := text]> (written st)) (collected st))
        end
    end.

(** [removed_collector.append] and [removed_collector.extend] *)
Definition collect (ls : list string) : M unit :=
  fun st => (inr tt, Store (written st) (collected st ++ ls)).

Definition process_file (E : Env) (path input_root output_root : string)
  (is_fomc : bool) (removal_guard : option float)
  : M (option (nat * nat * gmap string nat)) :=
  do html <- read_html E path;
  let cleaned := extract_text E html is_fomc removal_guard in
  if Str.is_empty cleaned then ret None
  else
    let tokens := tokenize cleaned in
    do out_path <- lift (txt_path E path input_root output_root);
    do _ <- write E out_path cleaned;
    ret (Some (Str.len cleaned, length tokens, Counter tokens)).

(** The running totals of [process_tree]. *)
Record totals : Type := Totals {
  total_files : nat;
  total_chars : nat;
  total_tokens : nat;
  counter : gmap string nat;
  removal_ratios : list float
}.

Definition no_totals : totals := Totals 0 0 0 ∅ [].

Definition html_paths (E : Env) (input_root : string) : list string :=
  List.filter
    (fun p =>
       is_file E p &&
       existsb (String.eqb (Str.lower (suffix E p))) [".htm"; ".html"])
    (rglob E input_root).

(** The body of the loop of [process_tree]; [removed_collector] tells
    whether the caller passed a list. *)
Definition process_tree_body (E : Env) (input_root output_root : string)
  (is_fomc : bool) (removal_guard : option float) (removed_collector : bool)
  (acc : totals) (p : string) : M totals :=
  do html <- read_html E p;
  let baseline := extract_text E html false None in
  let cleaned_for_stats := extract_text E html is_fomc removal_guard in
  do acc <-
    match Str.len baseline with
    | O => ret acc
    | S k =>
        let ratio :=
          F64.sub (F64.lit 1 1)
            (F64.truediv (Str.len cleaned_for_stats) (Pos.of_succ_nat k)) in
        let acc :=
          Totals (total_files acc) (total_chars acc) (total_tokens acc)
            (counter acc)
            (removal_ratios acc
             ++ [F64.py_max F64.zero (F64.py_min (F64.lit 1 1) ratio)]) in
        if removed_collector && is_fomc then
          let removed_lines := compute_removed_lines baseline cleaned_for_stats in
          match removed_lines with
          | [] => ret acc
          | _ :: _ =>
              do _ <- collect (("=== File: " +:+ p) :: removed_lines ++ [""]);
              ret acc
          end
        else ret acc
    end;
  do result <- process_file E p input_root output_root is_fomc removal_guard;
  match result with
  | None => ret acc
  | Some (chars, tokens, local_counter) =>
      ret (Totals (total_files acc + 1) (total_chars acc + chars)
             (total_tokens acc + tokens)
             (Counter_update (counter acc) local_counter)
             (removal_ratios acc))
  end.

Definition process_tree (E : Env) (input_root output_root : string)
  (is_fomc : bool) (removal_guard : option float) (removed_collector : bool)
  : M totals :=
  let paths := html_paths E input_root in
  for_each
    (process_tree_body E input_root output_root is_fomc removal_guard
       removed_collector)
    paths no_totals.

(** ** [recommend_guard_from_profile] *)

Definition recommend_guard_from_profile (E : Env) (ratios : list float)
  (default : float) : exn + float :=
  match ratios with
  | [] => inr default
  | _ :: _ =>
      let med := F64.median (py_sorted E) ratios in
      match fmean E ratios with
      | inl e => inl e
      | inr mean =>
          let p90 :=
            nth (Z.to_nat
                   (F64.trunc
                      (F64.mul (F64.lit 9 10) (F64.of_nat (length ratios - 1)))))
              (py_sorted E ratios) F64.zero in
          let guard := F64.add med (F64.lit 10 100) in
          let guard := F64.py_max (F64.lit 30 100) (F64.py_min (F64.lit 60 100) guard) in
          inr guard
      end
  end.

(** ** A small world to run the code in *)

(** A document without markup: the parser sees one text node, and
    [get_text("\n", strip=True)] is that node stripped. *)
Definition text_only (html : string) : string := Str.strip html.

Module Posix.

(** The part of [s] from the last [c] on, if [c] occurs. *)
Fixpoint from_last (c : ascii) (s : string) : option string :=
  match s with
  | "" => None
  | String x s' =>
      match from_last c s' with
      | Some r => Some r
      | None => if Chr.eqb x c then Some s else None
      end
  end.

(** [p.name] *)
Definition name (p : string) : string :=
  match from_last "/" p with
  | Some (String _ r) => r
  | _ => p
  end.

(** [p.suffix]: from the last dot of the name, unless that dot opens or
    closes the name. *)
Definition suffix (p : string) : string :=
  match name p with
  | "" => ""
  | String _ n' =>
      match from_last "." n' with
      | Some r => if String.length r =? 1 then "" else r
      | None => ""
      end
  end.

Definition drop (n : nat) (s : string) : string :=
  String.substring n (String.length s - n) s.

(** [p.relative_to(root)] *)
Definition relative_to (p root : string) : exn + string :=
  if Str.startswith (root +:+ "/") p
  then inr (drop (String.length root + 1) p)
  else inl ValueError.

(** [p.with_suffix(suf)] *)
Definition with_suffix (p suf : string) : string :=
  String.substring 0 (String.length p - String.length (suffix p)) p +:+ suf.

Definition txt_path (p input_root output_root : string) : exn + string :=
  match relative_to p input_root with
  | inl e => inl e
  | inr rel => inr (with_suffix (output_root +:+ "/" +:+ rel) ".txt")
  end.

End Posix.

(** [lookup k table] with a default. *)
Fixpoint assoc {A} (table : list (string * A)) (d : A) (k : string) : A :=
  match table with
  | [] => d
  | (k', v) :: table' => if String.eqb k k' then v else assoc table' d k
  end.

(** A tree of regular files in the order of the walk, each with its
    text, or with [None] when the file system refuses to read it; every
    output file can be written, and written to its end;
    [statistics.fmean] is as the library has it, and [sorted] is the
    stable sort, which is what the library returns for the lists of
    these worlds, none of which has a NaN. *)
Definition toy_env (files : list (string * option string)) : Env :=
  {| main_text := text_only;
     rglob := fun _ => map fst files;
     is_file := fun _ => true;
     suffix := Posix.suffix;
     read_text := fun p _ =>
       match assoc files None p with
       | Some html => inr html
       | None => inl OSError
       end;
     txt_path := Posix.txt_path;
     open_for_write := fun _ => None;
     fmean := statistics_fmean;
     write_fails := fun _ _ => None;
     py_sorted := F64.sorted |}.

(** The same world on a device that has room for [k] more characters:
    every write fails with [OSError] after [k] characters. *)
Definition device_full (k : nat) (E : Env) : Env :=
  {| main_text := main_text E;
     rglob := rglob E;
     is_file := is_file E;
     suffix := suffix E;
     read_text := read_text E;
     txt_path := txt_path E;
     open_for_write := open_for_write E;
     fmean := fmean E;
     write_fails := fun _ _ => Some (OSError, k);
     py_sorted := py_sorted E |}.

Definition empty_store : store := Store ∅ [].

(** ** Predicates of the statements and proofs *)

(** What [[ \t]] and [\n] match. *)
Definition is_blank (c : ascii) : bool :=
  Re.in_set false [Re.ILit " "; Re.ILit Chr.tab] c.

Definition is_newline (c : ascii) : bool := Re.lit_char false Chr.nl c.

(** The patterns [C{n,}] with [C] matching one character at a time
    match, at the start of a run of such characters, the whole run, when
    it has [n] characters or more, and match nowhere else.  [run_length]
    is the length of the run at the start of [s], and [sub_runs_from] is
    the substitution scan told in terms of runs. *)
Fixpoint run_length (cls : ascii -> bool) (s : string) : nat :=
  match s with
  | "" => 0
  | String c s' => if cls c then S (run_length cls s') else 0
  end.

Fixpoint sub_runs_from (cls : ascii -> bool) (n : nat) (repl : string)
  (skip : nat) (s : string) : string :=
  match s with
  | "" => ""
  | String c s' =>
      match skip with
      | S k => sub_runs_from cls n repl k s'
      | O =>
          if cls c && (n <=? run_length cls s)
          then repl +:+ sub_runs_from cls n repl (run_length cls s - 1) s'
          else String c (sub_runs_from cls n repl 0 s')
      end
  end.

(** The cursor [k] characters further. *)
Fixpoint advance (k : nat) (c : Re.cursor) : Re.cursor :=
  match k, Re.rest c with
  | S k', String x s' => advance k' (Re.Cursor (Some x) s')
  | _, _ => c
  end.

Definition starts_with (cls : ascii -> bool) (s : string) : bool :=
  match s with
  | "" => false
  | String c _ => cls c
  end.

(** Every run of [cls] in [s] has fewer than [n] characters. *)
Fixpoint runs_below (cls : ascii -> bool) (n : nat) (s : string) : bool :=
  match s with
  | "" => true
  | String _ s' => (run_length cls s <? n) && runs_below cls n s'
  end.

(** Every blank of [s] is a space that no blank follows. *)
Fixpoint blanks_single (s : string) : bool :=
  match s with
  | "" => true
  | String c s' =>
      (if is_blank c then Chr.eqb c " " && negb (starts_with is_blank s')
       else true)
      && blanks_single s'
  end.

(** The values of the local variables of [extract_text] in strict mode,
    as functions of the document. *)

(** [text] after line 174 *)
Definition stripped_text (E : Env) (html : string) : string :=
  _remove_boilerplate (main_text E html).

(** [baseline], line 178 *)
Definition baseline_of (E : Env) (html : string) : string :=
  _remove_line_artifacts (stripped_text E html).

(** [kept_lines], after the loop of lines 184-188 *)
Definition kept_lines_of (E : Env) (html : string) : list string :=
  filter_lines (Str.split Chr.nl (baseline_of E html)).

(** [cleaned], line 189 *)
Definition filtered_of (E : Env) (html : string) : string :=
  Str.join Str.nl (kept_lines_of E html).

(** [guard], line 192 *)
Definition guard_of (removal_guard : option float) : float :=
  match removal_guard with
  | Some g => g
  | None => DEFAULT_REMOVAL_GUARD
  end.

(** [removed_ratio], line 194, for a baseline of [S k] characters *)
Definition removed_ratio (cleaned_chars k : nat) : float :=
  F64.sub (F64.lit 1 1) (F64.truediv cleaned_chars (Pos.of_succ_nat k)).

(** The test of lines 185-188 as one condition. *)
Definition keeps (ln : string) : bool :=
  _line_is_narrative ln || negb (_line_is_garbage ln).

(** [extract_text] with the two classifiers of the strict branch as
    parameters, to state what does not depend on them. *)
Definition extract_text_with (is_narrative is_garbage : string -> bool)
  (E : Env) (html : string) (is_fomc : bool) (removal_guard : option float)
  : string :=
  let text := _remove_boilerplate (main_text E html) in
  let text :=
    if is_fomc then
      let baseline := _remove_line_artifacts text in
      let kept_lines :=
        fold_left
          (fun kept_lines ln =>
             if is_narrative ln then kept_lines ++ [ln]
             else if negb (is_garbage ln) then kept_lines ++ [ln]
             else kept_lines)
          (Str.split Chr.nl baseline) [] in
      let cleaned := Str.join Str.nl kept_lines in
      if guard_fallback (Str.len baseline) (Str.len cleaned)
           (guard_of removal_guard)
      then baseline else cleaned
    else _remove_line_artifacts text in
  final_normalize text.

Definition no_newline (s : string) : bool :=
  Str.all (fun c => negb (Chr.eqb c Chr.nl)) s.

(** ** Documents and trees to run the code on *)

(** Six words, three commas, no verb, no keyword: garbage by the
    enumeration rule only, so it survives the light cleaning. *)
Definition roster_line : string := "a, b, c, d e f".

Definition prose_54 : string :=
  "The staff reviewed the outlook for inflation and jobs.".

Definition prose_55 : string :=
  "The staff reviewed the outlook for inflation and wages.".

(** Thirty roster lines and ten lines of prose: 1000 characters, of
    which 550 are left once the roster lines are gone. *)
Definition doc_1000 : string :=
  Str.join Str.nl (repeat roster_line 30 ++ repeat prose_54 9 ++ [prose_55]).

(** A roster line, then a line of prose that starts with a space. *)
Definition doc_indented : string :=
  roster_line +:+ Str.nl +:+ " The staff reviewed the outlook for inflation.".

(** A line with a keyword that also reads as an enumeration. *)
Definition roster_with_keyword : string :=
  "Powell, Yellen, Bernanke, Greenspan, Volcker, inflation".

Definition no_files : Env := toy_env [].

(** A tree whose first file cannot be read, and the same tree without
    that file. *)
Definition memo : string := "The staff reviewed the outlook for inflation.".

Definition tree_unreadable_first : Env :=
  toy_env [("in/a.html", None); ("in/b.html", Some memo)].

Definition tree_readable : Env := toy_env [("in/b.html", Some memo)].

(** A tree with a file of blanks between two memos. *)
Definition tree_with_blank_file : Env :=
  toy_env [("in/a.html", Some memo); ("in/blank.htm", Some "   ");
           ("in/b.html", Some memo)].






(** A list with a NaN ([float("nan")]) between 0.3 and 0.1. *)
Definition ratios_with_nan : list float :=
  [F64.lit 3 10; S754_nan; F64.lit 1 10].

(** The aggregates of [process_tree] that count files, characters and
    tokens. *)
Definition aggregates (t : totals) : nat * nat * nat * gmap string nat :=
  (total_files t, total_chars t, total_tokens t, counter t).

(** What a run returned, when it returned. *)
Definition returned (r : (exn + totals) * store) : bool :=
  match fst r with
  | inr _ => true
  | inl _ => false
  end.

Definition totals_of (r : (exn + totals) * store) : totals :=
  match fst r with
  | inr t => t
  | inl _ => no_totals
  end.

Abbreviation run_with_blank_file :=
  (process_tree tree_with_blank_file "in" "out" true None false empty_store).

(** ** Further predicates: lines, tokens and removed lines *)

(** The second test of [_line_is_garbage], lines 138-142: six words or
    more, three commas or more, and no verb. *)
Definition enumeration_rule (line : string) : bool :=
  (6 <=? length (words line)) && (3 <=? Str.count "," line)
  && negb (Re.search IGNORECASE VERB_PATTERN line).

(** The first test of [_line_is_narrative], lines 123-124. *)
Definition has_keyword (line : string) : bool :=
  existsb (fun k => Str.contains k (Str.lower line)) NARRATIVE_KEYWORDS.

(** [re.findall] for a pattern [C{n,}], told in terms of runs, as
    [sub_runs_from] tells [re.sub]. *)
Fixpoint findall_runs_from (cls : ascii -> bool) (n : nat) (skip : nat)
  (s : string) : list string :=
  match s with
  | "" => []
  | String c s' =>
      match skip with
      | S k => findall_runs_from cls n k s'
      | O =>
          if cls c && (n <=? run_length cls s)
          then String.substring 0 (run_length cls s) s
               :: findall_runs_from cls n (run_length cls s - 1) s'
          else findall_runs_from cls n 0 s'
      end
  end.

(** What [[A-Za-z']] and [[A-Za-z0-9']] match, and what a token is made
    of once lowered. *)
Definition is_word_char (c : ascii) : bool :=
  Re.in_set false [Re.IRange "A" "Z"; Re.IRange "a" "z"; Re.ILit "'"] c.

Definition is_token_char (c : ascii) : bool :=
  Re.in_set false
    [Re.IRange "A" "Z"; Re.IRange "a" "z"; Re.IRange "0" "9"; Re.ILit "'"] c.

Definition is_lower_token_char (c : ascii) : bool :=
  Re.in_set false [Re.IRange "a" "z"; Re.IRange "0" "9"; Re.ILit "'"] c.

(** The loop of [compute_removed_lines] from a given state of the
    counter: the lines of [b_lines] that find no count left. *)
Fixpoint unmatched (c_counts : gmap string nat) (b_lines : list string)
  : list string :=
  match b_lines with
  | [] => []
  | ln :: rest =>
      if 0 <? count_of c_counts ln
      then unmatched (<[ln := count_of c_counts ln - 1]> c_counts) rest
      else ln :: unmatched c_counts rest
  end.

(** The number of times [x] occurs in [l]. *)
Definition occurrences (x : string) (l : list string) : nat :=
  length (List.filter (String.eqb x) l).

(** The characters of the lines of [l], each line with its newline. *)
Fixpoint weight (l : list string) : nat :=
  match l with
  | [] => 0
  | x :: rest => S (String.length x) + weight rest
  end.

Definition three_newlines : string := Str.nl +:+ Str.nl +:+ Str.nl.

(** [0.0 <= r <= 1.0] *)
Definition in_unit_interval (r : float) : bool :=
  F64.leb F64.zero r && F64.leb r (F64.lit 1 1).

(** Whether a call returned. *)
Definition succeeded {A} (r : exn + A) : bool :=
  match r with
  | inr _ => true
  | inl _ => false
  end.

(** A cleaned text as [process_file] writes it: not empty, and without
    whitespace at its ends. *)
Definition is_cleaned (v : string) : Prop := v <> "" /\ Str.strip v = v.

(** What [process_file] may leave in a file: a cleaned text where every
    write went to its end ([complete]); otherwise also the first
    characters of a cleaned text, possibly none, left by a write that
    failed once the file was open. *)
Definition left_by_write (complete : bool) (v : string) : Prop :=
  if complete then is_cleaned v
  else exists text k, is_cleaned text /\ v = String.substring 0 k text.

(** What a run of [process_tree] may do to the store: a file it leaves
    behind is either as it was or left by a write of a cleaned text; no
    file goes away; the caller's list only grows at its end, and stays
    as it is when [collecting] is off. *)
Definition store_grows (complete collecting : bool) (st st' : store) : Prop :=
  (forall k v,
     written st' !! k = Some v ->
     written st !! k = Some v \/ left_by_write complete v) /\
  (forall k, is_Some (written st !! k) -> is_Some (written st' !! k)) /\
  (exists more, collected st' = collected st ++ more) /\
  (collecting = false -> collected st' = collected st).

(** Two paragraphs with an empty line between them. *)
Definition two_paragraphs : string :=
  "The staff met." +:+ Str.nl +:+ Str.nl +:+ "The committee voted.".

Abbreviation run_readable :=
  (process_tree tree_readable "in" "out" false None false empty_store).

(** * [cmd_clean] of [fed_word2vec/cli.py]

    The caller of [process_tree] and [recommend_guard_from_profile].
    What it prints is left out; [path_exists] is [Path.exists], and the
    list [removed_lines] of the function is the list of the store, which
    starts empty. *)

(** [args.what] and [args.save_removed] *)
Record Args : Type := {
  what : string;
  save_removed : bool
}.

(** [config.paths.downloads_dir], [config.paths.text_dir] and
    [config.cleaning.removal_guard] *)
Record Config : Type := {
  downloads_dir : string;
  text_dir : string;
  cleaning_removal_guard : float
}.

(** [removed_lines: list[str] = []] *)
Definition new_list : M unit :=
  fun st => (inr tt, Store (written st) []).

Definition removed_lines_so_far : M (list string) :=
  fun st => (inr (collected st), st).

(** [args.what in (a, b)] *)
Definition what_in (args : Args) (choices : list string) : bool :=
  existsb (String.eqb (what args)) choices.

Definition fomc_in (config : Config) : string := downloads_dir config +:+ "/fomc".
Definition fomc_out (config : Config) : string := text_dir config +:+ "/fomc".
Definition speeches_in (config : Config) : string :=
  downloads_dir config +:+ "/speeches".
Definition speeches_out (config : Config) : string :=
  text_dir config +:+ "/speeches".
Definition removed_path (config : Config) : string :=
  text_dir config +:+ "/removed_lines.txt".

(** Lines 50-75: the profiling pass, the recommendation and the pass
    with the recommended guard. *)
Definition clean_fomc (E : Env) (path_exists : string -> bool) (args : Args)
  (config : Config) : M unit :=
  if what_in args ["all"; "fomc"] then
    if path_exists (fomc_in config) then
      do profile <- process_tree E (fomc_in config) (fomc_out config) true None
                      false;
      do guard <- lift (recommend_guard_from_profile E (removal_ratios profile)
                          (cleaning_removal_guard config));
      do _ <- process_tree E (fomc_in config) (fomc_out config) true (Some guard)
                (save_removed args);
      ret tt
    else ret tt
  else ret tt.

(** Lines 77-92 *)
Definition clean_speeches (E : Env) (path_exists : string -> bool) (args : Args)
  (config : Config) : M unit :=
  if what_in args ["all"; "speeches"] then
    if path_exists (speeches_in config) then
      do _ <- process_tree E (speeches_in config) (speeches_out config) false
                None false;
      ret tt
    else ret tt
  else ret tt.

Definition is_nil {A} (l : list A) : bool :=
  match l with
  | [] => true
  | _ :: _ => false
  end.

(** Lines 94-98; the write is refused as [open_for_write] tells. *)
Definition save_removed_lines (E : Env) (args : Args) (config : Config) : M unit :=
  do removed_lines <- removed_lines_so_far;
  if save_removed args && negb (is_nil removed_lines)
  then write E (removed_path config) (Str.join Str.nl removed_lines)
  else ret tt.

Definition cmd_clean (E : Env) (path_exists : string -> bool) (args : Args)
  (config : Config) : M Z :=
  do _ <- new_list;
  do _ <- clean_fomc E path_exists args config;
  do _ <- clean_speeches E path_exists args config;
  do _ <- save_removed_lines E args config;
  ret 0%Z.

(** A download directory with one FOMC document, and the command
    [clean fomc] with the default configuration. *)
Definition tree_fomc : Env := toy_env [("data/fed_downloads/fomc/a.html", Some memo)].

Definition only_fomc (p : string) : bool := String.eqb p "data/fed_downloads/fomc".

Definition args_fomc : Args := {| what := "fomc"; save_removed := false |}.

Definition default_config : Config :=
  {| downloads_dir := "data/fed_downloads"; text_dir := "data/fed_text";
     cleaning_removal_guard := DEFAULT_REMOVAL_GUARD |}.

Abbreviation run_clean_fomc :=
  (cmd_clean tree_fomc only_fomc args_fomc default_config empty_store).

(** * [fed_word2vec/downloader.py]: the two pure helpers *)

(** [c in chars] *)
Definition char_in (chars : string) (c : ascii) : bool :=
  existsb (Chr.eqb c) (list_ascii_of_string chars).

(** [s.lstrip(chars)], [s.rstrip(chars)] and [s.strip(chars)] *)
Fixpoint lstrip_chars (chars s : string) : string :=
  match s with
  | "" => ""
  | String c s' => if char_in chars c then lstrip_chars chars s' else s
  end.

Fixpoint rstrip_chars (chars s : string) : string :=
  match s with
  | "" => ""
  | String c s' =>
      let r := rstrip_chars chars s' in
      if char_in chars c && Str.is_empty r then "" else String c r
  end.

Definition strip_chars (chars s : string) : string :=
  rstrip_chars chars (lstrip_chars chars s).

(** The code points of the strings of this development. *)
Definition all_chars : list ascii := map ascii_of_nat (seq 0 256).

(** [[^...]]: the set of the characters that [[...]] does not match. *)
Definition negated (items : list Re.item) : list Re.item :=
  map Re.ILit
    (List.filter (fun c => negb (Re.in_set false items c)) all_chars).

(** [re.sub(r"[^A-Za-z0-9._-]+", "-", name).strip("-")] *)
Definition sanitize_filename (name : string) : string :=
  strip_chars "-"
    (Re.sub false
       (Re.Plus
          (Re.In_
             (negated [Re.IRange "A" "Z"; Re.IRange "a" "z"; Re.IRange "0" "9";
                       Re.ILit "."; Re.ILit "_"; Re.ILit "-"])))
       "-" name).

(** A record of [parse_fomc_page]: a dict from the names of the fields to
    strings or [None]. *)
Definition record : Type := gmap string (option string).

Inductive key_error : Type := KeyError (key : string).

(** [rec[key]] *)
Definition getitem (r : record) (key : string) : key_error + option string :=
  match r !! key with
  | Some v => inr v
  | None => inl (KeyError key)
  end.

(** The loop of [deduplicate_records], with [seen] and [unique]. *)
Fixpoint deduplicate_loop (records : list record)
  (seen : gset (option string * option string)) (unique : list record)
  : key_error + list record :=
  match records with
  | [] => inr unique
  | r :: rest =>
      match getitem r "url" with
      | inl e => inl e
      | inr url =>
          match getitem r "doc_type" with
          | inl e => inl e
          | inr doc_type =>
              let key := (url, doc_type) in
              if decide (key ∈ seen) then deduplicate_loop rest seen unique
              else deduplicate_loop rest ({[key]} ∪ seen) (unique ++ [r])
          end
      end
  end.

Definition deduplicate_records (records : list record)
  : key_error + list record :=
  deduplicate_loop records ∅ [].

(** What [[A-Za-z0-9._-]] matches, and what its negation matches. *)
Definition is_safe_char (c : ascii) : bool :=
  Re.in_set false
    [Re.IRange "A" "Z"; Re.IRange "a" "z"; Re.IRange "0" "9";
     Re.ILit "."; Re.ILit "_"; Re.ILit "-"] c.

Definition is_unsafe_char : ascii -> bool :=
  Re.in_set false
    (negated [Re.IRange "A" "Z"; Re.IRange "a" "z"; Re.IRange "0" "9";
              Re.ILit "."; Re.ILit "_"; Re.ILit "-"]).

(** The key of a record, when it has both fields. *)
Definition key_of (r : record) : option (option string * option string) :=
  match r !! "url", r !! "doc_type" with
  | Some url, Some doc_type => Some (url, doc_type)
  | _, _ => None
  end.

(** Three links, the third a second link to the document of the
    first. *)
Definition link (url doc_type : string) : record :=
  {[ "url" := Some url; "doc_type" := Some doc_type ]}.

Definition three_links : list record :=
  [link "a" "m"; link "a" "s"; link "a" "m"].

(** * Properties *)

#[local] Arguments String.append !s1 s2 : simpl nomatch.

(** ** The embedding at work *)

Example float_literals :
  F64.lit 4 10 = S754_finite false 7205759403792794 (-54) /\
  F64.lit 30 100 = S754_finite false 5404319552844595 (-54) /\
  F64.lit 60 100 = S754_finite false 5404319552844595 (-53) /\
  F64.lit 1 1 = S754_finite false 4503599627370496 (-52) /\
  F64.add (F64.lit 3 10) (F64.lit 10 100) = F64.lit 4 10 /\
  removed_ratio 550 999 = S754_finite false 8106479329266892 (-54).
Proof. repeat split; vm_compute; reflexivity. Qed.

Example attendee_roster_is_garbage :
  matches_remove_pattern "PRESENT: Powell, Yellen, Bernanke" = true /\
  _line_is_garbage "PRESENT: Powell, Yellen, Bernanke" = true /\
  _line_is_narrative "PRESENT: Powell, Yellen, Bernanke" = false.
Proof. repeat split; vm_compute; reflexivity. Qed.

Example committee_sentence_is_narrative :
  _line_is_narrative
    "The Committee decided to raise the federal funds rate target range."
  = true /\
  _line_is_garbage
    "The Committee decided to raise the federal funds rate target range."
  = false.
Proof. repeat split; vm_compute; reflexivity. Qed.

Example line_artifacts_removed :
  _remove_line_artifacts
    ("Minutes" +:+ Str.nl +:+ "12" +:+ Str.nl +:+ "see https://example.org"
     +:+ Str.nl +:+ "(a)" +:+ Str.nl +:+ "PDFs attached" +:+ Str.nl
     +:+ "The end")
  = "Minutes" +:+ Str.nl +:+ "PDFs attached" +:+ Str.nl +:+ "The end".
Proof. vm_compute. reflexivity. Qed.

Example boilerplate_replaced :
  _remove_boilerplate "Back to top of page Home | x" = "  of page   x".
Proof. vm_compute. reflexivity. Qed.

Example normalization_at_work :
  final_normalize
    ("  a " +:+ String Chr.tab " b" +:+ Str.nl +:+ Str.nl +:+ Str.nl +:+ Str.nl
     +:+ " c  " +:+ Str.nl)
  = "a b" +:+ Str.nl +:+ Str.nl +:+ " c".
Proof. vm_compute. reflexivity. Qed.

(** The scan of the general matcher and the run-based substitution
    agree on where [[ \t]+] ends. *)
Example blank_run_by_the_matcher :
  option_map Re.rest
    (List.head
       (Re.run false (Re.Plus (Re.In_ [Re.ILit " "; Re.ILit Chr.tab]))
          (Re.start ("  " +:+ String Chr.tab " x  y"))))
  = Some "x  y" /\
  run_length is_blank ("  " +:+ String Chr.tab " x  y") = 4.
Proof. repeat split; vm_compute; reflexivity. Qed.

Example tokens_and_counter :
  tokenize "It's 9am: rates, RATES and rates." =
  ["it's"; "9am"; "rates"; "rates"; "and"; "rates"] /\
  count_of (Counter (tokenize "It's 9am: rates, RATES and rates.")) "rates" = 3 /\
  Counter_total (Counter (tokenize "It's 9am: rates, RATES and rates.")) = 6.
Proof. repeat split; vm_compute; reflexivity. Qed.

Example removed_lines_computed :
  compute_removed_lines
    ("a" +:+ Str.nl +:+ "b" +:+ Str.nl +:+ "a") "a" = ["b"; "a"].
Proof. vm_compute. reflexivity. Qed.

(** The scan replaces empty matches too and the matcher backtracks, as
    [re] does. *)
Example matcher_on_stars_and_backtracking :
  Re.sub false (Re.Star (Re.Lit "x")) "-" "abxd" = "-a-b--d-" /\
  Re.findall false (Re.Star (Re.Lit "x")) "axb" = [""; "x"; ""; ""] /\
  Re.findall false (Re.Seq (Re.Plus (Re.In_ [Re.IWord])) (Re.Lit "ing"))
    "singing ringing kings"
  = ["singing"; "ringing"; "king"].
Proof. repeat split; vm_compute; reflexivity. Qed.

(** ** Substitution of runs of characters *)

Lemma run_length_le cls s : run_length cls s <= String.length s.
Proof.
  induction s as [|x s IH]; cbn; [lia|]. destruct (cls x); lia.
Qed.

Lemma advance_run cls n c :
  n <= run_length cls (Re.rest c) ->
  advance (run_length cls (Re.rest (advance n c))) (advance n c)
  = advance (run_length cls (Re.rest c)) c.
Proof.
  revert c. induction n as [|n IH]; intros [p s] Hn; [reflexivity|].
  destruct s as [|x s]; cbn in Hn |- *; [lia|].
  destruct (cls x); [|lia]. rewrite IH by (cbn; lia). reflexivity.
Qed.

Lemma rest_advance cls c :
  String.length (Re.rest (advance (run_length cls (Re.rest c)) c))
  = String.length (Re.rest c) - run_length cls (Re.rest c).
Proof.
  destruct c as [p s]. revert p. induction s as [|x s IH]; intros p; cbn;
    [reflexivity|].
  destruct (cls x); cbn; [|reflexivity]. apply IH.
Qed.

(** Exactly [n] rounds of a one-character pattern. *)
Lemma times_one ok n c :
  Re.times (Re.one ok) n c
  = if n <=? run_length ok (Re.rest c) then [advance n c] else [].
Proof.
  revert c. induction n as [|n IH]; intros [p s]; [reflexivity|].
  destruct s as [|x s]; [reflexivity|].
  cbn [Re.times Re.one Re.rest run_length advance].
  destruct (ok x); [|reflexivity].
  cbn [flat_map]. rewrite IH, app_nil_r. reflexivity.
Qed.

(** The greedy repetition of a one-character pattern first reads the
    whole run. *)
Lemma star_from_one ok fuel c :
  run_length ok (Re.rest c) <= fuel ->
  exists others,
    Re.star_from (Re.one ok) fuel c
    = advance (run_length ok (Re.rest c)) c :: others.
Proof.
  revert c. induction fuel as [|fuel IH]; intros [p s] Hfuel.
  - cbn in Hfuel. assert (H0 : run_length ok s = 0) by lia.
    cbn. rewrite H0. now exists [].
  - destruct s as [|x s]; [now exists []|].
    cbn [Re.star_from Re.one Re.rest run_length advance] in *.
    destruct (ok x); [|now exists []].
    cbn [List.filter Re.rest String.length].
    rewrite (proj2 (Nat.ltb_lt _ _)) by lia.
    cbn [flat_map]. rewrite app_nil_r.
    destruct (IH (Re.Cursor (Some x) s)) as [others Ho]; [cbn; lia|].
    rewrite Ho. now exists (others ++ [Re.Cursor p (String x s)]).
Qed.

(** Where a pattern is [n] or more rounds of a one-character pattern,
    its match at a position is the run that starts there, if that run
    has [n] characters. *)
Lemma first_match_run ic r ok n c :
  (forall c, Re.run ic r c = Re.at_least (Re.one ok) n c) ->
  Re.first_match ic r c
  = if n <=? run_length ok (Re.rest c)
    then Some (run_length ok (Re.rest c)) else None.
Proof.
  intros Hrun. unfold Re.first_match. rewrite Hrun.
  unfold Re.at_least. rewrite times_one.
  destruct (n <=? run_length ok (Re.rest c)) eqn:Hn; [|reflexivity].
  apply Nat.leb_le in Hn. cbn [flat_map]. rewrite app_nil_r.
  destruct (star_from_one ok (String.length (Re.rest (advance n c)))
              (advance n c)) as [others Ho]; [apply run_length_le|].
  rewrite Ho, (advance_run _ _ _ Hn), rest_advance. f_equal.
  pose proof (run_length_le ok (Re.rest c)). lia.
Qed.

Lemma sub_from_runs ic r ok n repl :
  1 <= n ->
  (forall c, Re.run ic r c = Re.at_least (Re.one ok) n c) ->
  forall s skip prev,
    Re.sub_from ic r repl skip prev s = sub_runs_from ok n repl skip s.
Proof.
  intros Hn Hrun. induction s as [|x s IH]; intros skip prev.
  - cbn [Re.sub_from sub_runs_from]. rewrite (first_match_run _ _ ok n) by exact Hrun.
    cbn [Re.rest run_length]. now rewrite (proj2 (Nat.leb_gt _ _)) by lia.
  - cbn [Re.sub_from sub_runs_from]. destruct skip as [|k]; [|apply IH].
    rewrite (first_match_run _ _ ok n) by exact Hrun.
    cbn [Re.rest run_length]. destruct (ok x); cbn [andb].
    + destruct (n <=? S (run_length ok s)); [|now rewrite IH].
      rewrite IH. now rewrite Nat.sub_succ, Nat.sub_0_r.
    + rewrite (proj2 (Nat.leb_gt _ _)) by lia. now rewrite IH.
Qed.

(** The two substitutions of the final normalization, told in terms of
    runs. *)
Lemma final_normalize_runs text :
  final_normalize text
  = Str.strip
      (sub_runs_from is_newline 3 (Str.nl +:+ Str.nl) 0
         (sub_runs_from is_blank 1 " " 0 text)).
Proof.
  unfold final_normalize, Re.sub.
  rewrite (sub_from_runs false _ is_blank 1 " "); [|lia|reflexivity].
  rewrite (sub_from_runs false _ is_newline 3); [|lia|reflexivity].
  reflexivity.
Qed.

(** ** The final normalization *)

Section Normalization.

#[local] Arguments is_blank : simpl never.
#[local] Arguments is_newline : simpl never.

Local Abbreviation squeeze_blanks := (sub_runs_from is_blank 1 " ").
Local Abbreviation squeeze_newlines :=
  (sub_runs_from is_newline 3 (Str.nl +:+ Str.nl)).

Lemma run_length_not_starting cls s :
  starts_with cls s = false -> run_length cls s = 0.
Proof. destruct s as [|c s]; simpl; [reflexivity|]. now intros ->. Qed.

Lemma newline_not_blank c : is_newline c = true -> is_blank c = false.
Proof.
  unfold is_newline, Re.lit_char, Chr.eqb. intros H.
  apply Ascii.eqb_eq in H. subst c. reflexivity.
Qed.

(** A text whose runs are all too short for the pattern is left alone. *)
Lemma sub_runs_below cls n repl s :
  runs_below cls n s = true -> sub_runs_from cls n repl 0 s = s.
Proof.
  induction s as [|c s IH]; [reflexivity|].
  intros H. apply andb_true_iff in H as [Hrun Hrest].
  cbn [sub_runs_from].
  apply Nat.ltb_lt in Hrun.
  destruct (n <=? run_length cls (String c s)) eqn:Hle.
  - apply Nat.leb_le in Hle. lia.
  - rewrite andb_false_r. now rewrite IH.
Qed.

Lemma squeeze_blanks_single s :
  blanks_single s = true -> squeeze_blanks 0 s = s.
Proof.
  induction s as [|c s IH]; [reflexivity|].
  cbn [blanks_single sub_runs_from run_length].
  intros H. apply andb_true_iff in H as [Hc Hrest].
  destruct (is_blank c) eqn:Hb.
  - apply andb_true_iff in Hc as [Hsp Hnext].
    apply Ascii.eqb_eq in Hsp. apply negb_true_iff in Hnext.
    rewrite (run_length_not_starting _ _ Hnext).
    cbn [andb Nat.leb Nat.sub String.append].
    rewrite IH by assumption. now subst c.
  - cbn [andb]. now rewrite IH.
Qed.

Lemma squeeze_blanks_spec s :
  blanks_single (squeeze_blanks 0 s) = true /\
  (forall k, k = run_length is_blank s ->
     blanks_single (squeeze_blanks k s) = true /\
     starts_with is_blank (squeeze_blanks k s) = false).
Proof.
  induction s as [|c s [IH0 IHk]]; [split; [|intros k ->]; auto|].
  assert (Hcopy : is_blank c = false ->
            blanks_single (String c (squeeze_blanks 0 s)) = true /\
            starts_with is_blank (String c (squeeze_blanks 0 s)) = false).
  { intros Hb. cbn [blanks_single starts_with]. now rewrite Hb, IH0. }
  split.
  - cbn [sub_runs_from run_length].
    destruct (is_blank c) eqn:Hb; cbn [andb Nat.leb]; [|now apply Hcopy].
    rewrite Nat.sub_succ, Nat.sub_0_r.
    destruct (IHk _ eq_refl) as [H1 H2].
    set (X := squeeze_blanks (run_length is_blank s) s) in *.
    change (" " +:+ X) with (String " " X).
    cbn [blanks_single]. change (is_blank " ") with true.
    cbn iota. now rewrite H2, H1.
  - intros k ->. cbn [run_length sub_runs_from].
    destruct (is_blank c) eqn:Hb.
    + apply IHk. reflexivity.
    + cbn [andb]. now apply Hcopy.
Qed.

Lemma squeeze_newlines_spec s :
  (runs_below is_newline 3 (squeeze_newlines 0 s) = true /\
   run_length is_newline (squeeze_newlines 0 s)
   = Nat.min (run_length is_newline s) 2) /\
  (forall k, k = run_length is_newline s ->
     runs_below is_newline 3 (squeeze_newlines k s) = true /\
     starts_with is_newline (squeeze_newlines k s) = false).
Proof.
  induction s as [|c s [[IH0 IHlen] IHk]];
    [split; [split|intros k ->]; auto|].
  assert (Hcopy :
    is_newline c && (3 <=? run_length is_newline (String c s)) = false ->
    runs_below is_newline 3 (String c (squeeze_newlines 0 s)) = true /\
    run_length is_newline (String c (squeeze_newlines 0 s))
    = Nat.min (run_length is_newline (String c s)) 2).
  { intros Hm. cbn [runs_below run_length] in *.
    destruct (is_newline c) eqn:Hc.
    - rewrite andb_true_l in Hm. apply Nat.leb_gt in Hm.
      rewrite IH0, IHlen, andb_true_r.
      split; [apply Nat.ltb_lt|]; lia.
    - now rewrite IH0. }
  split.
  - cbn [sub_runs_from].
    destruct (is_newline c && (3 <=? run_length is_newline (String c s)))
      eqn:Hm; [|now apply Hcopy].
    apply andb_true_iff in Hm as [Hc Hlen]. apply Nat.leb_le in Hlen.
    cbn [run_length] in *. rewrite Hc in *.
    replace (S (run_length is_newline s) - 1)
      with (run_length is_newline s) by lia.
    destruct (IHk _ eq_refl) as [H1 H2].
    set (X := squeeze_newlines (run_length is_newline s) s) in *.
    change ((Str.nl +:+ Str.nl) +:+ X) with (String Chr.nl (String Chr.nl X)).
    cbn [runs_below run_length]. change (is_newline Chr.nl) with true.
    cbn iota. rewrite (run_length_not_starting _ _ H2), H1.
    split; [reflexivity|lia].
  - intros k ->. cbn [run_length sub_runs_from].
    destruct (is_newline c) eqn:Hc.
    + apply IHk. reflexivity.
    + cbn [andb]. split; [now apply Hcopy|]. cbn. exact Hc.
Qed.

Lemma squeeze_newlines_blanks s :
  blanks_single s = true ->
  (blanks_single (squeeze_newlines 0 s) = true /\
   starts_with is_blank (squeeze_newlines 0 s) = starts_with is_blank s) /\
  (forall k, k = run_length is_newline s ->
     blanks_single (squeeze_newlines k s) = true).
Proof.
  induction s as [|c s IH]; [intros _; split; [split|intros k ->]; auto|].
  intros H. cbn [blanks_single] in H.
  apply andb_true_iff in H as [Hc Hrest].
  destruct (IH Hrest) as [[IH0 IHhead] IHk].
  assert (Hcopy :
    blanks_single (String c (squeeze_newlines 0 s)) = true /\
    starts_with is_blank (String c (squeeze_newlines 0 s))
    = starts_with is_blank (String c s)).
  { cbn [blanks_single starts_with]. now rewrite IHhead, Hc, IH0. }
  split.
  - cbn [sub_runs_from].
    destruct (is_newline c && (3 <=? run_length is_newline (String c s)))
      eqn:Hm; [|exact Hcopy].
    apply andb_true_iff in Hm as [Hnl _].
    cbn [run_length]. rewrite Hnl.
    replace (S (run_length is_newline s) - 1)
      with (run_length is_newline s) by lia.
    set (X := squeeze_newlines (run_length is_newline s) s).
    change ((Str.nl +:+ Str.nl) +:+ X) with (String Chr.nl (String Chr.nl X)).
    cbn [blanks_single starts_with]. change (is_blank Chr.nl) with false.
    cbn iota. unfold X. rewrite (IHk _ eq_refl).
    now rewrite (newline_not_blank _ Hnl).
  - intros k ->. cbn [run_length sub_runs_from].
    destruct (is_newline c) eqn:Hnl.
    + apply IHk. reflexivity.
    + cbn [andb]. apply Hcopy.
Qed.

(** Stripping keeps both properties. *)
Lemma rstrip_cons c s :
  Str.rstrip (String c s) = "" \/ Str.rstrip (String c s) = String c (Str.rstrip s).
Proof. cbn. destruct (Chr.isspace c && Str.is_empty (Str.rstrip s)); auto. Qed.

Lemma starts_with_rstrip cls s :
  starts_with cls (Str.rstrip s) = true -> starts_with cls s = true.
Proof.
  destruct s as [|c s]; [auto|].
  destruct (rstrip_cons c s) as [-> | ->]; [discriminate|auto].
Qed.

Lemma run_length_rstrip cls s :
  run_length cls (Str.rstrip s) <= run_length cls s.
Proof.
  induction s as [|c s IH]; [auto|].
  destruct (rstrip_cons c s) as [-> | ->]; cbn; [lia|].
  destruct (cls c); lia.
Qed.

Lemma blanks_single_rstrip s :
  blanks_single s = true -> blanks_single (Str.rstrip s) = true.
Proof.
  induction s as [|c s IH]; [auto|].
  intros H. destruct (rstrip_cons c s) as [-> | ->]; [reflexivity|].
  cbn [blanks_single] in *. apply andb_true_iff in H as [Hc Hrest].
  rewrite (IH Hrest), andb_true_r.
  destruct (is_blank c); [|reflexivity].
  apply andb_true_iff in Hc as [-> Hnext]. cbn.
  apply negb_true_iff in Hnext. apply negb_true_iff.
  destruct (starts_with is_blank (Str.rstrip s)) eqn:Hs; [|reflexivity].
  apply starts_with_rstrip in Hs. congruence.
Qed.

Lemma runs_below_rstrip cls n s :
  runs_below cls n s = true -> runs_below cls n (Str.rstrip s) = true.
Proof.
  induction s as [|c s IH]; [auto|].
  intros H. pose proof (run_length_rstrip cls (String c s)) as Hlen.
  destruct (rstrip_cons c s) as [Hr | Hr]; rewrite Hr in *; [reflexivity|].
  cbn [runs_below] in *. apply andb_true_iff in H as [Hc Hrest].
  rewrite (IH Hrest), andb_true_r.
  apply Nat.ltb_lt in Hc. apply Nat.ltb_lt. lia.
Qed.

Lemma blanks_single_lstrip s :
  blanks_single s = true -> blanks_single (Str.lstrip s) = true.
Proof.
  induction s as [|c s IH]; [auto|].
  intros H. cbn [Str.lstrip]. destruct (Chr.isspace c); [|exact H].
  apply IH. cbn [blanks_single] in H. now apply andb_true_iff in H as [_ ?].
Qed.

Lemma runs_below_lstrip cls n s :
  runs_below cls n s = true -> runs_below cls n (Str.lstrip s) = true.
Proof.
  induction s as [|c s IH]; [auto|].
  intros H. cbn [Str.lstrip]. destruct (Chr.isspace c); [|exact H].
  apply IH. cbn [runs_below] in H. now apply andb_true_iff in H as [_ ?].
Qed.

Lemma rstrip_idempotent s : Str.rstrip (Str.rstrip s) = Str.rstrip s.
Proof.
  induction s as [|c s IH]; [reflexivity|].
  cbn [Str.rstrip].
  destruct (Chr.isspace c && Str.is_empty (Str.rstrip s)) eqn:Hc;
    [reflexivity|].
  cbn [Str.rstrip]. now rewrite IH, Hc.
Qed.

Lemma lstrip_starts s : starts_with Chr.isspace (Str.lstrip s) = false.
Proof.
  induction s as [|c s IH]; [reflexivity|].
  cbn [Str.lstrip]. destruct (Chr.isspace c) eqn:Hc; [exact IH|exact Hc].
Qed.

Lemma lstrip_not_starting s :
  starts_with Chr.isspace s = false -> Str.lstrip s = s.
Proof. destruct s as [|c s]; [reflexivity|]. cbn. now intros ->. Qed.

Lemma strip_idempotent s : Str.strip (Str.strip s) = Str.strip s.
Proof.
  unfold Str.strip.
  rewrite (lstrip_not_starting (Str.rstrip (Str.lstrip s))).
  - apply rstrip_idempotent.
  - destruct (starts_with Chr.isspace (Str.rstrip (Str.lstrip s))) eqn:H;
      [|reflexivity].
    apply starts_with_rstrip in H. now rewrite lstrip_starts in H.
Qed.

Lemma final_normalize_normal s :
  blanks_single (final_normalize s) = true /\
  runs_below is_newline 3 (final_normalize s) = true.
Proof.
  rewrite final_normalize_runs. unfold Str.strip. split.
  - apply blanks_single_rstrip, blanks_single_lstrip.
    exact (proj1 (proj1 (squeeze_newlines_blanks _
                           (proj1 (squeeze_blanks_spec s))))).
  - apply runs_below_rstrip, runs_below_lstrip.
    exact (proj1 (proj1 (squeeze_newlines_spec _))).
Qed.

End Normalization.

(** C9.  The final whitespace normalization (runs of spaces and tabs
    become one space, runs of three or more newlines become two, the
    ends are trimmed) is idempotent: applied to its own output it
    returns that output. *)
Theorem final_normalize_idempotent (text : string) :
  final_normalize (final_normalize text) = final_normalize text.
Proof.
  destruct (final_normalize_normal text) as [Hb Hn].
  rewrite (final_normalize_runs (final_normalize text)).
  rewrite (squeeze_blanks_single _ Hb), (sub_runs_below _ _ _ _ Hn).
  rewrite final_normalize_runs. apply strip_idempotent.
Qed.

(** ** The loops over lines are filters *)

Lemma filter_lines_from base_lines acc :
  fold_left
    (fun kept_lines ln =>
       if _line_is_narrative ln then kept_lines ++ [ln]
       else if negb (_line_is_garbage ln) then kept_lines ++ [ln]
       else kept_lines)
    base_lines acc
  = acc ++ List.filter keeps base_lines.
Proof.
  revert acc. induction base_lines as [|ln l IH]; intros acc; cbn [fold_left List.filter].
  - now rewrite app_nil_r.
  - rewrite IH. unfold keeps.
    destruct (_line_is_narrative ln); cbn [orb];
      [|destruct (negb (_line_is_garbage ln))];
      now rewrite <- ?app_assoc.
Qed.

Lemma filter_lines_filter base_lines :
  filter_lines base_lines = List.filter keeps base_lines.
Proof. unfold filter_lines. now rewrite filter_lines_from. Qed.

Lemma remove_line_artifacts_filter text :
  _remove_line_artifacts text
  = Str.join Str.nl
      (List.filter (fun line => negb (matches_remove_pattern line))
         (Str.split Chr.nl text)).
Proof.
  unfold _remove_line_artifacts. f_equal.
  generalize (Str.split Chr.nl text) as lines.
  enough (H : forall lines acc,
             fold_left
               (fun cleaned_lines line =>
                  if matches_remove_pattern line then cleaned_lines
                  else cleaned_lines ++ [line]) lines acc
             = acc ++ List.filter (fun line => negb (matches_remove_pattern line)) lines)
    by (intros lines; now rewrite H).
  induction lines as [|ln l IH]; intros acc; cbn [fold_left List.filter].
  - now rewrite app_nil_r.
  - rewrite IH. destruct (matches_remove_pattern ln); cbn [negb];
      now rewrite <- ?app_assoc.
Qed.

Lemma filter_sublist {A} (p : A -> bool) (l : list A) :
  List.filter p l `sublist_of` l.
Proof.
  induction l as [|x l IH]; cbn; [constructor|].
  destruct (p x); now constructor.
Qed.

(** ** Splitting and joining *)

Lemma split_not_nil sep s : Str.split sep s <> [].
Proof.
  destruct s as [|c s]; cbn; [discriminate|].
  destruct (Chr.eqb c sep); [discriminate|].
  destruct (Str.split sep s); discriminate.
Qed.

Lemma split_no_newline s : Forall (fun l => no_newline l = true) (Str.split Chr.nl s).
Proof.
  induction s as [|c s IH]; cbn [Str.split]; [repeat constructor|].
  destruct (Chr.eqb c Chr.nl) eqn:Hc; [constructor; [reflexivity|exact IH]|].
  assert (Hcons : forall l, no_newline l = true -> no_newline (String c l) = true).
  { intros l Hl. unfold no_newline in *. cbn [Str.all]. now rewrite Hc, Hl. }
  destruct (Str.split Chr.nl s) as [|l ls].
  - constructor; [now apply Hcons|constructor].
  - inversion IH as [|? ? Hl Hls]; subst.
    constructor; [now apply Hcons|exact Hls].
Qed.

Lemma no_newline_cons c l :
  no_newline (String c l) = true ->
  Chr.eqb c Chr.nl = false /\ no_newline l = true.
Proof.
  unfold no_newline. cbn [Str.all]. intros H.
  apply andb_true_iff in H as [Hc Hl]. now apply negb_true_iff in Hc.
Qed.

Lemma split_line l rest :
  no_newline l = true ->
  Str.split Chr.nl (l +:+ String Chr.nl rest) = l :: Str.split Chr.nl rest.
Proof.
  induction l as [|c l IH]; intros H.
  - cbn [String.append Str.split]. unfold Chr.eqb.
    now rewrite Ascii.eqb_refl.
  - apply no_newline_cons in H as [Hc Hl].
    cbn [String.append Str.split]. now rewrite Hc, (IH Hl).
Qed.

Lemma split_last_line l :
  no_newline l = true -> Str.split Chr.nl l = [l].
Proof.
  induction l as [|c l IH]; intros H; [reflexivity|].
  apply no_newline_cons in H as [Hc Hl].
  cbn [Str.split]. now rewrite Hc, (IH Hl).
Qed.

Lemma split_join ls :
  Forall (fun l => no_newline l = true) ls ->
  Str.split Chr.nl (Str.join Str.nl ls)
  = match ls with [] => [""] | _ :: _ => ls end.
Proof.
  induction ls as [|l ls IH]; intros H; [reflexivity|].
  inversion H as [|? ? Hl Hls]; subst.
  destruct ls as [|l' ls'].
  - cbn [Str.join]. now apply split_last_line.
  - change (Str.join Str.nl (l :: l' :: ls'))
      with (l +:+ String Chr.nl (Str.join Str.nl (l' :: ls'))).
    rewrite (split_line _ _ Hl), (IH Hls). reflexivity.
Qed.

Lemma Forall_filter {A} (P : A -> Prop) (p : A -> bool) (l : list A) :
  Forall P l -> Forall P (List.filter p l).
Proof.
  induction 1 as [|x l Hx Hl IH]; cbn; [constructor|].
  destruct (p x); [constructor|]; assumption.
Qed.

(** ** [extract_text], branch by branch *)

Lemma strict_clean_eq text removal_guard :
  strict_clean text removal_guard
  = let baseline := _remove_line_artifacts text in
    let cleaned := Str.join Str.nl (filter_lines (Str.split Chr.nl baseline)) in
    if guard_fallback (Str.len baseline) (Str.len cleaned) (guard_of removal_guard)
    then baseline else cleaned.
Proof. reflexivity. Qed.

Lemma extract_text_strict E html removal_guard :
  extract_text E html true removal_guard
  = final_normalize
      (if guard_fallback (Str.len (baseline_of E html))
            (Str.len (filtered_of E html)) (guard_of removal_guard)
       then baseline_of E html else filtered_of E html).
Proof. reflexivity. Qed.

Lemma extract_text_light E html removal_guard :
  extract_text E html false removal_guard = final_normalize (baseline_of E html).
Proof. reflexivity. Qed.

(** ** Comparison of floats *)

Lemma SFcompare_le_lt_trans (a b c : float) :
  F64.leb a b = true -> F64.ltb b c = true -> F64.ltb a c = true.
Proof.
  unfold F64.leb, F64.ltb, SFleb, SFltb, SFcompare.
  destruct a as [sa|sa| |sa ma ea], b as [sb|sb| |sb mb eb],
    c as [sc|sc| |sc mc ec];
    try destruct sa; try destruct sb; try destruct sc;
    try discriminate; try reflexivity.
  all: change (Pos.compare_cont Eq ?x ?y) with (Pos.compare x y).
  all: destruct (Z.compare_spec ea eb), (Z.compare_spec eb ec),
         (Z.compare_spec ea ec);
       try discriminate; try reflexivity; try lia.
  all: destruct (Pos.compare_spec ma mb), (Pos.compare_spec mb mc),
         (Pos.compare_spec ma mc);
       cbn; try discriminate; try reflexivity; try lia.
Qed.

Lemma ltb_leb (a b : float) : F64.ltb a b = true -> F64.leb a b = true.
Proof.
  unfold F64.leb, F64.ltb, SFleb, SFltb.
  destruct (SFcompare a b) as [[]|]; congruence.
Qed.

Lemma guard_fallback_monotone base_chars cleaned_chars (g g' : float) :
  F64.leb g g' = true ->
  guard_fallback base_chars cleaned_chars g = false ->
  guard_fallback base_chars cleaned_chars g' = false.
Proof.
  intros Hle. destruct base_chars as [|k]; [reflexivity|].
  cbn [guard_fallback]. intros Hg.
  destruct (F64.ltb g' _) eqn:Hg'; [|reflexivity].
  now rewrite (SFcompare_le_lt_trans _ _ _ Hle Hg') in Hg.
Qed.

(** ** The strict branch of [extract_text] *)

Example roster_line_is_garbage_only :
  _line_is_narrative roster_line = false /\
  _line_is_garbage roster_line = true /\
  matches_remove_pattern roster_line = false.
Proof. now vm_compute. Qed.

Example roster_with_keyword_is_both :
  _line_is_narrative roster_with_keyword = true /\
  _line_is_garbage roster_with_keyword = true /\
  filter_lines [roster_line; roster_with_keyword; "Notes"]
  = [roster_with_keyword; "Notes"].
Proof. now vm_compute. Qed.

Example default_guard_bits :
  DEFAULT_REMOVAL_GUARD = S754_finite false 7205759403792794 (-54).
Proof. reflexivity. Qed.

(** C1.  In strict mode, when the baseline is not empty the removal
    ratio is [1 - len(filtered) / len(baseline)]; if it is strictly above
    the guard the function returns the baseline, that is what the light
    mode returns, and otherwise the filtered text (each after the final
    normalization); an empty baseline takes no decision and the filtered
    text passes through.  With 1000 and 550 characters and a guard of 0.4
    the ratio is above the guard and the baseline comes back. *)
Theorem strict_guard_decision (E : Env) (html : string)
  (removal_guard : option float) :
  let baseline := baseline_of E html in
  let filtered := filtered_of E html in
  let guard := guard_of removal_guard in
  (forall k, Str.len baseline = S k ->
     (F64.ltb guard (removed_ratio (Str.len filtered) k) = true ->
      strict_clean (stripped_text E html) removal_guard = baseline /\
      extract_text E html true removal_guard = final_normalize baseline /\
      extract_text E html true removal_guard
      = extract_text E html false removal_guard) /\
     (F64.ltb guard (removed_ratio (Str.len filtered) k) = false ->
      strict_clean (stripped_text E html) removal_guard = filtered /\
      extract_text E html true removal_guard = final_normalize filtered)) /\
  (Str.len baseline = 0 ->
   strict_clean (stripped_text E html) removal_guard = filtered /\
   extract_text E html true removal_guard = final_normalize filtered) /\
  (Str.len baseline = 1000 -> Str.len filtered = 550 ->
   removal_guard = Some (F64.lit 4 10) ->
   F64.ltb guard (removed_ratio 550 999) = true /\
   extract_text E html true removal_guard = final_normalize baseline /\
   extract_text E html true removal_guard
   = extract_text E html false removal_guard).
Proof.
  intros baseline filtered guard.
  assert (Hstrict : forall k, Str.len baseline = S k ->
            strict_clean (stripped_text E html) removal_guard
            = (if F64.ltb guard (removed_ratio (Str.len filtered) k)
               then baseline else filtered) /\
            extract_text E html true removal_guard
            = final_normalize
                (if F64.ltb guard (removed_ratio (Str.len filtered) k)
                 then baseline else filtered)).
  { intros k Hk. rewrite extract_text_strict, strict_clean_eq.
    fold (baseline_of E html) (filtered_of E html). cbn zeta.
    fold baseline filtered guard. rewrite Hk. split; reflexivity. }
  split; [|split].
  - intros k Hk. destruct (Hstrict k Hk) as [Hs He].
    split; intros Hr; rewrite Hr in Hs, He; repeat split; assumption.
  - intros H0. rewrite extract_text_strict, strict_clean_eq.
    fold (baseline_of E html) (filtered_of E html). cbn zeta.
    fold baseline filtered. rewrite H0. split; reflexivity.
  - intros Hb Hf ->. destruct (Hstrict 999 Hb) as [_ He].
    rewrite Hf in He.
    assert (Hr : F64.ltb (guard_of (Some (F64.lit 4 10))) (removed_ratio 550 999) = true)
      by (vm_compute; reflexivity).
    subst guard. rewrite Hr in He. repeat split; assumption.
Qed.

Lemma strict_guard_decision_doc_1000 :
  Str.len (baseline_of no_files doc_1000) = 1000 /\
  Str.len (filtered_of no_files doc_1000) = 550 /\
  extract_text no_files doc_1000 true (Some (F64.lit 4 10))
  = final_normalize (baseline_of no_files doc_1000) /\
  final_normalize (baseline_of no_files doc_1000)
  <> final_normalize (filtered_of no_files doc_1000).
Proof.
  assert (Hb : Str.len (baseline_of no_files doc_1000) = 1000)
    by (vm_compute; reflexivity).
  assert (Hf : Str.len (filtered_of no_files doc_1000) = 550)
    by (vm_compute; reflexivity).
  split; [exact Hb|]. split; [exact Hf|]. split.
  - pose proof (strict_guard_decision no_files doc_1000 (Some (F64.lit 4 10)))
      as (_ & _ & H).
    exact (proj1 (proj2 (H Hb Hf eq_refl))).
  - assert (H1 : String.length (final_normalize (baseline_of no_files doc_1000))
                 = 1000) by (vm_compute; reflexivity).
    assert (H2 : String.length (final_normalize (filtered_of no_files doc_1000))
                 = 550) by (vm_compute; reflexivity).
    intros H. rewrite H, H2 in H1. discriminate H1.
Defined.

(** C2.  In strict mode a line of the baseline is kept exactly when it
    is narrative or is not garbage: only a garbage line is removed, a
    narrative line is kept even when it is garbage too, and a line that
    is neither is kept. *)
Theorem strict_keeps_narrative_or_not_garbage (E : Env) (html : string) :
  let base_lines := Str.split Chr.nl (baseline_of E html) in
  kept_lines_of E html
  = List.filter
      (fun ln => _line_is_narrative ln || negb (_line_is_garbage ln))
      base_lines /\
  (forall ln,
     In ln (kept_lines_of E html) <->
     In ln base_lines /\
     (_line_is_narrative ln = true \/ _line_is_garbage ln = false)) /\
  (forall ln,
     In ln base_lines -> ~ In ln (kept_lines_of E html) ->
     _line_is_garbage ln = true /\ _line_is_narrative ln = false).
Proof.
  intros base_lines. unfold kept_lines_of. fold base_lines.
  rewrite filter_lines_filter.
  assert (Hiff : forall ln,
            In ln (List.filter keeps base_lines) <->
            In ln base_lines /\
            (_line_is_narrative ln = true \/ _line_is_garbage ln = false)).
  { intros ln. rewrite filter_In. unfold keeps.
    rewrite orb_true_iff, negb_true_iff. reflexivity. }
  split; [reflexivity|]. split; [exact Hiff|].
  intros ln Hin Hout.
  destruct (_line_is_garbage ln) eqn:Hg, (_line_is_narrative ln) eqn:Hn;
    try (split; reflexivity);
    exfalso; apply Hout, Hiff; rewrite ?Hg, ?Hn; auto.
Qed.

(** C3, as the code has it.  The kept lines are a subsequence of the
    lines of the baseline, the filtered text is the kept lines joined by
    newlines (so its lines are the kept lines, when there is one), and
    what is returned is the final normalization of the filtered text or
    of the baseline. *)
Theorem kept_lines_subsequence (E : Env) (html : string)
  (removal_guard : option float) :
  let base_lines := Str.split Chr.nl (baseline_of E html) in
  let kept_lines := kept_lines_of E html in
  kept_lines `sublist_of` base_lines /\
  filtered_of E html = Str.join Str.nl kept_lines /\
  Str.split Chr.nl (filtered_of E html)
  = match kept_lines with [] => [""] | _ :: _ => kept_lines end /\
  (extract_text E html true removal_guard
   = final_normalize (filtered_of E html) \/
   extract_text E html true removal_guard
   = final_normalize (baseline_of E html)).
Proof.
  intros base_lines kept_lines.
  assert (Hk : kept_lines = List.filter keeps base_lines)
    by apply filter_lines_filter.
  split; [rewrite Hk; apply filter_sublist|].
  split; [reflexivity|]. split.
  - apply split_join. rewrite Hk. apply Forall_filter, split_no_newline.
  - rewrite extract_text_strict. destruct (guard_fallback _ _ _); auto.
Qed.

(** C3, as the specification has it, fails: the final normalization trims the
    first kept line, which then is no line of the baseline, be it the
    baseline inside [extract_text] or the text the light mode returns. *)
Lemma returned_lines_not_subsequence :
  ~ (Str.split Chr.nl (extract_text no_files doc_indented true None)
       `sublist_of` Str.split Chr.nl (baseline_of no_files doc_indented)) /\
  ~ (Str.split Chr.nl (extract_text no_files doc_indented true None)
       `sublist_of`
     Str.split Chr.nl (extract_text no_files doc_indented false None)).
Proof.
  assert (Hs : Str.split Chr.nl (extract_text no_files doc_indented true None)
               = ["The staff reviewed the outlook for inflation."])
    by (vm_compute; reflexivity).
  assert (Hb : Str.split Chr.nl (baseline_of no_files doc_indented)
               = [roster_line; " The staff reviewed the outlook for inflation."])
    by (vm_compute; reflexivity).
  assert (Hl : Str.split Chr.nl (extract_text no_files doc_indented false None)
               = [roster_line; " The staff reviewed the outlook for inflation."])
    by (vm_compute; reflexivity).
  rewrite Hs, Hb, Hl.
  assert (Hno : ~ (["The staff reviewed the outlook for inflation."]
                     `sublist_of`
                   [roster_line; " The staff reviewed the outlook for inflation."])).
  { intros H. apply sublist_subseteq in H.
    specialize (H _ (list_elem_of_here _ _)).
    apply list_elem_of_In in H. cbn in H.
    destruct H as [H|[H|[]]]; discriminate H. }
  split; exact Hno.
Qed.

Lemma extract_text_classifiers E html is_fomc removal_guard :
  extract_text E html is_fomc removal_guard
  = extract_text_with _line_is_narrative _line_is_garbage E html is_fomc
      removal_guard.
Proof. reflexivity. Qed.

(** C6.  In light mode neither the guard nor the line classifiers play a
    part: two calls that differ in the guard only return the same text,
    and so do two versions of the function that differ in the
    classifiers only; the text returned is the final normalization of
    the text with the boilerplate phrases replaced and the lines matching
    a removal pattern dropped. *)
Theorem light_mode_ignores_guard (E : Env) (html : string)
  (g1 g2 : option float) :
  extract_text E html false g1 = extract_text E html false g2 /\
  (forall narrative garbage narrative' garbage' : string -> bool,
     extract_text_with narrative garbage E html false g1
     = extract_text_with narrative' garbage' E html false g2) /\
  extract_text E html false g1
  = final_normalize (_remove_line_artifacts (_remove_boilerplate (main_text E html))) /\
  _remove_line_artifacts (_remove_boilerplate (main_text E html))
  = Str.join Str.nl
      (List.filter (fun line => negb (matches_remove_pattern line))
         (Str.split Chr.nl (_remove_boilerplate (main_text E html)))).
Proof.
  split; [reflexivity|]. split; [intros; reflexivity|].
  split; [reflexivity|]. apply remove_line_artifacts_filter.
Qed.

(** C7.  For a fixed document the guard decision is monotone: if the
    filtered text is kept with the guard [g], it is kept with every
    guard [g' >= g], and the text returned is the same. *)
Theorem guard_monotone (E : Env) (html : string) (g g' : float) :
  F64.leb g g' = true ->
  guard_fallback (Str.len (baseline_of E html)) (Str.len (filtered_of E html)) g
  = false ->
  guard_fallback (Str.len (baseline_of E html)) (Str.len (filtered_of E html)) g'
  = false /\
  extract_text E html true (Some g) = final_normalize (filtered_of E html) /\
  extract_text E html true (Some g') = final_normalize (filtered_of E html).
Proof.
  intros Hle Hg.
  pose proof (guard_fallback_monotone _ _ _ _ Hle Hg) as Hg'.
  split; [exact Hg'|].
  rewrite !extract_text_strict. cbn [guard_of]. rewrite Hg, Hg'. auto.
Qed.

Lemma guard_monotone_doc_indented :
  extract_text no_files doc_indented true (Some (F64.lit 30 100))
  = final_normalize (filtered_of no_files doc_indented) /\
  extract_text no_files doc_indented true (Some (F64.lit 60 100))
  = final_normalize (filtered_of no_files doc_indented).
Proof.
  apply (guard_monotone no_files doc_indented (F64.lit 30 100) (F64.lit 60 100)).
  - vm_compute. reflexivity.
  - vm_compute. reflexivity.
Defined.

(** ** Counters *)

Lemma Counter_total_insert (c : gmap string nat) (k : string) (v : nat) :
  Counter_total (<[k := v + count_of c k]> c) = v + Counter_total c.
Proof.
  unfold Counter_total, count_of.
  destruct (c !! k) as [w|] eqn:Hk; cbn [default from_option].
  - rewrite <- insert_delete_eq.
    rewrite map_fold_insert_L; [|intros; lia|apply lookup_delete_eq].
    rewrite (map_fold_delete_L _ _ k w c); [cbn; unfold id; lia|intros; lia|exact Hk].
  - rewrite map_fold_insert_L; [cbn; unfold id; lia|intros; lia|exact Hk].
Qed.

Lemma Counter_total_insert_fresh (c : gmap string nat) (k : string) (v : nat) :
  c !! k = None -> Counter_total (<[k := v]> c) = v + Counter_total c.
Proof.
  intros Hk. unfold Counter_total.
  rewrite map_fold_insert_L; [reflexivity|intros; lia|exact Hk].
Qed.

Lemma Counter_total_empty : Counter_total ∅ = 0.
Proof. apply map_fold_empty. Qed.

Lemma Counter_total_from (xs : list string) (c : gmap string nat) :
  Counter_total (fold_left (fun c x => <[x := count_of c x + 1]> c) xs c)
  = Counter_total c + length xs.
Proof.
  revert c. induction xs as [|x xs IH]; intros c; cbn [fold_left length].
  - lia.
  - rewrite IH, (Nat.add_comm (count_of c x) 1), Counter_total_insert. lia.
Qed.

(** The counts of [Counter(xs)] add up to [len(xs)]. *)
Lemma Counter_total_Counter (xs : list string) :
  Counter_total (Counter xs) = length xs.
Proof.
  unfold Counter. now rewrite Counter_total_from, Counter_total_empty.
Qed.

(** [update] adds the totals. *)
Lemma Counter_total_update (self other : gmap string nat) :
  Counter_total (Counter_update self other)
  = Counter_total self + Counter_total other.
Proof.
  unfold Counter_update.
  apply (map_fold_weak_ind
           (fun r m => Counter_total r = Counter_total self + Counter_total m)).
  - rewrite Counter_total_empty. lia.
  - intros i x m r Hi IH.
    rewrite Counter_total_insert, IH, (Counter_total_insert_fresh _ _ _ Hi).
    lia.
Qed.

(** ** Reading, and the monad *)

Lemma read_html_store E p st : snd (read_html E p st) = st.
Proof.
  unfold read_html, try_except, read, lift.
  destruct (read_text E p Utf8); cbn; [|reflexivity].
  destruct (read_text E p Latin1); reflexivity.
Qed.

(** A refused UTF-8 read is tried again as Latin-1 ... *)
Lemma read_html_fallback E p st e html :
  read_text E p Utf8 = inl e -> read_text E p Latin1 = inr html ->
  read_html E p st = (inr html, st).
Proof.
  intros H1 H2. unfold read_html, try_except, read. now rewrite H1, H2.
Qed.

(** ... and when the second read is refused too, the exception leaves
    [read_html]. *)
Lemma read_html_raises E p st e1 e2 :
  read_text E p Utf8 = inl e1 -> read_text E p Latin1 = inl e2 ->
  read_html E p st = (inl e2, st).
Proof.
  intros H1 H2. unfold read_html, try_except, read. now rewrite H1, H2.
Qed.

Lemma bind_returns {A B} (m : M A) (k : A -> M B) st a st' :
  m st = (inr a, st') -> bind m k st = k a st'.
Proof. unfold bind. now intros ->. Qed.

Lemma bind_raises {A B} (m : M A) (k : A -> M B) st e st' :
  m st = (inl e, st') -> bind m k st = (inl e, st').
Proof. unfold bind. now intros ->. Qed.

(** An exception in the body of the loop ends the loop: nothing in
    [process_tree] catches it. *)
Lemma process_tree_body_raises E input_root output_root is_fomc removal_guard
  removed_collector acc p st e1 e2 :
  read_text E p Utf8 = inl e1 -> read_text E p Latin1 = inl e2 ->
  process_tree_body E input_root output_root is_fomc removal_guard
    removed_collector acc p st = (inl e2, st).
Proof.
  intros H1 H2. unfold process_tree_body.
  apply bind_raises. now apply (read_html_raises _ _ _ e1).
Qed.

Lemma for_each_raises {A B} (body : B -> A -> M B) x xs acc st e st' :
  body acc x st = (inl e, st') ->
  for_each body (x :: xs) acc st = (inl e, st').
Proof. intros H. cbn [for_each]. now apply bind_raises. Qed.

Lemma for_each_step {A B} (body : B -> A -> M B) x xs acc st acc' st' :
  body acc x st = (inr acc', st') ->
  for_each body (x :: xs) acc st = for_each body xs acc' st'.
Proof. intros H. cbn [for_each]. now apply bind_returns. Qed.

(** ** One file *)

Lemma strip_all_space s :
  Str.all Chr.isspace (Str.strip s) = true -> Str.strip s = "".
Proof.
  intros H. destruct (Str.strip s) as [|c t] eqn:Ht; [reflexivity|].
  assert (Hs : starts_with Chr.isspace (Str.strip s) = false).
  { unfold Str.strip.
    destruct (starts_with Chr.isspace (Str.rstrip (Str.lstrip s))) eqn:Hr;
      [|reflexivity].
    apply starts_with_rstrip in Hr. now rewrite lstrip_starts in Hr. }
  rewrite Ht in Hs. cbn in H, Hs. rewrite Hs in H. discriminate H.
Qed.

Lemma extract_text_all_space E html is_fomc removal_guard :
  Str.all Chr.isspace (extract_text E html is_fomc removal_guard) = true ->
  extract_text E html is_fomc removal_guard = "".
Proof. unfold extract_text, final_normalize. apply strip_all_space. Qed.

Lemma process_file_result E p input_root output_root is_fomc removal_guard st :
  match process_file E p input_root output_root is_fomc removal_guard st with
  | (inr None, st') => st' = st
  | (inr (Some (chars, tokens, local_counter)), st') =>
      exists html out_path,
        read_html E p st = (inr html, st) /\
        let cleaned := extract_text E html is_fomc removal_guard in
        cleaned <> "" /\
        chars = Str.len cleaned /\
        tokens = length (tokenize cleaned) /\
        local_counter = Counter (tokenize cleaned) /\
        st' = Store (<[out_path := cleaned]> (written st)) (collected st)
  | (inl _, st') =>
      st' = st \/
      exists html out_path k,
        read_html E p st = (inr html, st) /\
        let cleaned := extract_text E html is_fomc removal_guard in
        cleaned <> "" /\
        st' = Store (<[out_path := String.substring 0 k cleaned]> (written st))
                (collected st)
  end.
Proof.
  unfold process_file, bind.
  pose proof (read_html_store E p st) as Hst.
  destruct (read_html E p st) as [[e|html] st0]; cbn in Hst; subst st0;
    [now left|].
  destruct (extract_text E html is_fomc removal_guard) as [|c cleaned] eqn:Hc;
    cbn [Str.is_empty]; [reflexivity|].
  unfold lift, write.
  destruct (txt_path E p input_root output_root) as [e|out]; cbn;
    [now left|].
  destruct (open_for_write E out) as [e|]; cbn; [now left|].
  destruct (write_fails E out (String c cleaned)) as [[e k]|]; cbn.
  - right. exists html, out, k. rewrite Hc.
    split; [reflexivity|]. split; [discriminate|reflexivity].
  - exists html, out. rewrite Hc. repeat split; discriminate.
Qed.

Lemma process_file_empty E p input_root output_root is_fomc removal_guard st html :
  read_html E p st = (inr html, st) ->
  extract_text E html is_fomc removal_guard = "" ->
  process_file E p input_root output_root is_fomc removal_guard st
  = (inr None, st).
Proof.
  intros Hr He. unfold process_file. rewrite (bind_returns _ _ _ _ _ Hr).
  now rewrite He.
Qed.

(** The first half of the body of the loop: the ratio and the removed
    lines.  It never raises, and touches neither the aggregates nor the
    files written. *)
Lemma process_tree_body_unfold E input_root output_root is_fomc removal_guard
  removed_collector acc p st html :
  read_html E p st = (inr html, st) ->
  exists acc1 st1,
    aggregates acc1 = aggregates acc /\ written st1 = written st /\
    process_tree_body E input_root output_root is_fomc removal_guard
      removed_collector acc p st
    = bind (process_file E p input_root output_root is_fomc removal_guard)
        (fun result =>
           match result with
           | None => ret acc1
           | Some (chars, tokens, local_counter) =>
               ret (Totals (total_files acc1 + 1) (total_chars acc1 + chars)
                      (total_tokens acc1 + tokens)
                      (Counter_update (counter acc1) local_counter)
                      (removal_ratios acc1))
           end) st1.
Proof.
  intros Hr. unfold process_tree_body. rewrite (bind_returns _ _ _ _ _ Hr).
  destruct (Str.len (extract_text E html false None)) as [|k].
  - exists acc, st. repeat split; reflexivity.
  - set (acc1 := Totals _ _ _ _ (removal_ratios acc ++ _)).
    destruct (removed_collector && is_fomc).
    + destruct (compute_removed_lines _ _) as [|l ls].
      * exists acc1, st. repeat split; reflexivity.
      * eexists acc1, (Store (written st) _). repeat split; reflexivity.
    + exists acc1, st. repeat split; reflexivity.
Qed.

(** ** The loop of [process_tree] *)

Lemma read_html_same E p st st1 r :
  read_html E p st = (r, st) -> read_html E p st1 = (r, st1).
Proof.
  unfold read_html, try_except, read, lift, ret, raise.
  destruct (read_text E p Utf8); [destruct (read_text E p Latin1)|];
    intros H; injection H as <-; reflexivity.
Qed.

Lemma process_tree_body_tokens E input_root output_root is_fomc removal_guard
  removed_collector acc p st acc' st' :
  process_tree_body E input_root output_root is_fomc removal_guard
    removed_collector acc p st = (inr acc', st') ->
  total_tokens acc = Counter_total (counter acc) ->
  total_tokens acc' = Counter_total (counter acc').
Proof.
  intros Hbody Hinv.
  pose proof (read_html_store E p st) as Hst.
  destruct (read_html E p st) as [[e|html] st0] eqn:Hr; cbn in Hst; subst st0.
  - unfold process_tree_body in Hbody.
    rewrite (bind_raises _ _ _ _ _ Hr) in Hbody. discriminate Hbody.
  - destruct (process_tree_body_unfold E input_root output_root is_fomc
                removal_guard removed_collector acc p st html Hr)
      as (acc1 & st1 & Hagg & _ & Heq).
    rewrite Heq in Hbody. unfold bind in Hbody.
    injection Hagg as _ _ Htok Hcnt.
    pose proof (process_file_result E p input_root output_root is_fomc
                  removal_guard st1) as Hpf.
    destruct (process_file E p input_root output_root is_fomc removal_guard st1)
      as [[e|[[[chars tokens] local_counter]|]] st2].
    + discriminate Hbody.
    + destruct Hpf as (html' & out & _ & _ & _ & Ht & Hl & _).
      injection Hbody as <- _. cbn [total_tokens counter].
      rewrite Counter_total_update, Hl, Counter_total_Counter, Ht, Htok, Hcnt.
      lia.
    + injection Hbody as <- _. congruence.
Qed.

Lemma for_each_invariant {A B} (body : B -> A -> M B) (Inv : B -> Prop) :
  (forall acc x st acc' st',
     body acc x st = (inr acc', st') -> Inv acc -> Inv acc') ->
  forall xs acc st acc' st',
    for_each body xs acc st = (inr acc', st') -> Inv acc -> Inv acc'.
Proof.
  intros Hbody. induction xs as [|x xs IH]; intros acc st acc' st' Hrun Hinv.
  - cbn in Hrun. injection Hrun as <- _. exact Hinv.
  - cbn [for_each] in Hrun. unfold bind in Hrun.
    destruct (body acc x st) as [[e|acc1] st1] eqn:Hb; [discriminate Hrun|].
    exact (IH _ _ _ _ Hrun (Hbody _ _ _ _ _ Hb Hinv)).
Qed.

(** Where nothing is refused the run returns. *)
Lemma process_tree_returns E input_root output_root is_fomc removal_guard
  removed_collector st :
  (forall p, exists html, read_text E p Utf8 = inr html) ->
  (forall p, exists out, txt_path E p input_root output_root = inr out) ->
  (forall out, open_for_write E out = None) ->
  (forall out text, write_fails E out text = None) ->
  exists t st',
    process_tree E input_root output_root is_fomc removal_guard
      removed_collector st = (inr t, st').
Proof.
  intros Hread Hpath Hwrite Hdone. unfold process_tree.
  generalize (html_paths E input_root) as paths.
  generalize no_totals as acc. intros acc paths. revert acc st.
  induction paths as [|p paths IH]; intros acc st; [eexists _, _; reflexivity|].
  destruct (Hread p) as [html Hhtml].
  assert (Hr : forall s, read_html E p s = (inr html, s)).
  { intros s. unfold read_html, try_except, read. now rewrite Hhtml. }
  destruct (process_tree_body_unfold E input_root output_root is_fomc
              removal_guard removed_collector acc p st html (Hr st))
    as (acc1 & st1 & _ & _ & Heq).
  assert (Hfile : exists res st2,
            process_file E p input_root output_root is_fomc removal_guard st1
            = (inr res, st2)).
  { unfold process_file. rewrite (bind_returns _ _ _ _ _ (Hr st1)).
    destruct (Str.is_empty _); [eexists _, _; reflexivity|].
    destruct (Hpath p) as [out Hout]. rewrite Hout. cbn [lift].
    unfold bind, ret, write. rewrite (Hwrite out), Hdone.
    eexists _, _; reflexivity. }
  destruct Hfile as (res & st2 & Hfile).
  cbn [for_each]. unfold bind at 1. rewrite Heq.
  rewrite (bind_returns _ _ _ _ _ Hfile).
  destruct res as [[[chars tokens] local_counter]|]; cbn [ret]; apply IH.
Qed.

Lemma returned_eq (r : (exn + totals) * store) :
  returned r = true -> r = (inr (totals_of r), snd r).
Proof.
  destruct r as [[e|t] st]; unfold returned, totals_of; cbn;
    [discriminate|reflexivity].
Qed.

(** C10.  When [process_tree] returns, the total of tokens it returns is
    the sum of the counts of the counter it returns; for each file that
    is counted, the counter is built over the tokens of that file and
    its counts add up to the number of tokens of the file. *)
Theorem token_total_is_counter_total (E : Env) (input_root output_root : string)
  (is_fomc : bool) (removal_guard : option float) (removed_collector : bool) :
  (forall st t st',
     process_tree E input_root output_root is_fomc removal_guard
       removed_collector st = (inr t, st') ->
     total_tokens t = Counter_total (counter t)) /\
  (forall p st chars tokens local_counter st',
     process_file E p input_root output_root is_fomc removal_guard st
     = (inr (Some (chars, tokens, local_counter)), st') ->
     tokens = Counter_total local_counter /\
     exists html,
       read_html E p st = (inr html, st) /\
       local_counter
       = Counter (tokenize (extract_text E html is_fomc removal_guard)) /\
       tokens
       = length (tokenize (extract_text E html is_fomc removal_guard))).
Proof.
  split.
  - intros st t st' Hrun. unfold process_tree in Hrun.
    refine (for_each_invariant _
              (fun acc => total_tokens acc = Counter_total (counter acc))
              _ _ _ _ _ _ Hrun _).
    + intros acc x s acc' s'. apply process_tree_body_tokens.
    + cbn. now rewrite Counter_total_empty.
  - intros p st chars tokens local_counter st' Hfile.
    pose proof (process_file_result E p input_root output_root is_fomc
                  removal_guard st) as Hpf.
    rewrite Hfile in Hpf. destruct Hpf as (html & out & Hr & _ & _ & Ht & Hl & _).
    split; [now rewrite Hl, Counter_total_Counter|].
    exists html. auto.
Qed.

Lemma token_total_with_blank_file :
  returned run_with_blank_file = true /\
  total_files (totals_of run_with_blank_file) = 2 /\
  total_tokens (totals_of run_with_blank_file) = 14 /\
  Counter_total (counter (totals_of run_with_blank_file)) = 14.
Proof.
  assert (Hret : returned run_with_blank_file = true)
    by (vm_compute; reflexivity).
  assert (Hfiles : total_files (totals_of run_with_blank_file) = 2)
    by (vm_compute; reflexivity).
  assert (Htok : total_tokens (totals_of run_with_blank_file) = 14)
    by (vm_compute; reflexivity).
  pose proof (proj1 (token_total_is_counter_total tree_with_blank_file
                       "in" "out" true None false)
                empty_store (totals_of run_with_blank_file)
                (snd run_with_blank_file) (returned_eq _ Hret)) as Hsum.
  exact (conj Hret (conj Hfiles (conj Htok (eq_trans (eq_sym Hsum) Htok)))).
Defined.

(** C8.  A file whose cleaned text is empty or made of whitespace only
    is skipped: [process_file] returns [None] and writes nothing, and
    the loop of [process_tree] goes on to the next file with the counts
    of files, characters and tokens, the counter and the files written
    as they were, without raising. *)
Theorem empty_result_is_soft_skip (E : Env) (input_root output_root : string)
  (is_fomc : bool) (removal_guard : option float) (removed_collector : bool)
  (acc : totals) (p : string) (rest : list string) (st : store)
  (html : string) :
  read_html E p st = (inr html, st) ->
  Str.all Chr.isspace (extract_text E html is_fomc removal_guard) = true ->
  extract_text E html is_fomc removal_guard = "" /\
  process_file E p input_root output_root is_fomc removal_guard st
  = (inr None, st) /\
  exists acc' st',
    process_tree_body E input_root output_root is_fomc removal_guard
      removed_collector acc p st = (inr acc', st') /\
    aggregates acc' = aggregates acc /\
    written st' = written st /\
    for_each
      (process_tree_body E input_root output_root is_fomc removal_guard
         removed_collector) (p :: rest) acc st
    = for_each
        (process_tree_body E input_root output_root is_fomc removal_guard
           removed_collector) rest acc' st'.
Proof.
  intros Hr Hspace.
  pose proof (extract_text_all_space _ _ _ _ Hspace) as Hempty.
  split; [exact Hempty|]. split; [now apply (process_file_empty _ _ _ _ _ _ _ html)|].
  destruct (process_tree_body_unfold E input_root output_root is_fomc
              removal_guard removed_collector acc p st html Hr)
    as (acc1 & st1 & Hagg & Hw & Heq).
  assert (Hbody : process_tree_body E input_root output_root is_fomc
                    removal_guard removed_collector acc p st = (inr acc1, st1)).
  { rewrite Heq.
    rewrite (bind_returns _ _ _ _ _
               (process_file_empty _ _ _ _ _ _ _ html
                  (read_html_same _ _ _ st1 _ Hr) Hempty)).
    reflexivity. }
  exists acc1, st1. repeat split; try assumption.
  now apply for_each_step.
Qed.

Lemma blank_file_is_skipped :
  process_file tree_with_blank_file "in/blank.htm" "in" "out" true None
    empty_store
  = (inr None, empty_store).
Proof.
  refine (proj1 (proj2 (empty_result_is_soft_skip tree_with_blank_file "in" "out"
                          true None false no_totals "in/blank.htm" []
                          empty_store "   " _ _))).
  - vm_compute. reflexivity.
  - vm_compute. reflexivity.
Defined.

(** C5, at an input where the code does otherwise.  The first file of
    the tree cannot be read: both reads raise, the exception leaves
    [process_tree], and the second file, which alone gives one counted
    file, is never processed. *)
Theorem unreadable_file_aborts_process_tree :
  html_paths tree_unreadable_first "in" = ["in/a.html"; "in/b.html"] /\
  process_tree tree_unreadable_first "in" "out" false None false empty_store
  = (inl OSError, empty_store) /\
  returned (process_tree tree_readable "in" "out" false None false empty_store)
  = true /\
  total_files
    (totals_of
       (process_tree tree_readable "in" "out" false None false empty_store))
  = 1.
Proof. repeat split; vm_compute; reflexivity. Qed.

(** The same for every tree: the exception of the second read of the
    first file is the result of the run. *)
Lemma process_tree_raises_at_first_file E input_root output_root is_fomc
  removal_guard removed_collector st p rest e1 e2 :
  html_paths E input_root = p :: rest ->
  read_text E p Utf8 = inl e1 -> read_text E p Latin1 = inl e2 ->
  process_tree E input_root output_root is_fomc removal_guard
    removed_collector st = (inl e2, st).
Proof.
  intros Hp H1 H2. unfold process_tree. rewrite Hp.
  apply for_each_raises. now apply (process_tree_body_raises _ _ _ _ _ _ _ _ _ e1).
Qed.

(** ** The profiler *)

Lemma clamp_bounds (g : float) :
  let guard := F64.py_max (F64.lit 30 100) (F64.py_min (F64.lit 60 100) g) in
  F64.leb (F64.lit 30 100) guard = true /\ F64.leb guard (F64.lit 60 100) = true.
Proof.
  assert (Hlo : F64.leb (F64.lit 30 100) (F64.lit 30 100) = true)
    by (vm_compute; reflexivity).
  assert (Hhi : F64.leb (F64.lit 60 100) (F64.lit 60 100) = true)
    by (vm_compute; reflexivity).
  assert (Hlh : F64.ltb (F64.lit 30 100) (F64.lit 60 100) = true)
    by (vm_compute; reflexivity).
  generalize dependent (F64.lit 60 100). generalize dependent (F64.lit 30 100).
  intros lo Hlo hi Hhi Hlh. cbv zeta. unfold F64.py_max, F64.py_min.
  destruct (F64.ltb g hi) eqn:Hg.
  - destruct (F64.ltb lo g) eqn:Hg'.
    + split; now apply ltb_leb.
    + split; [exact Hlo|now apply ltb_leb].
  - rewrite Hlh. split; [now apply ltb_leb|exact Hhi].
Qed.




(** With a NaN among the ratios the result stays in the interval, and
    is the clamped median of what [sorted] returns.  The list 0.3, NaN,
    0.1 comes back from [sorted] as it is, no item being smaller than
    the one before it; its median is then the NaN, and the result is
    0.60, the upper bound. *)
Lemma recommend_guard_with_nan E :
  py_sorted E ratios_with_nan = ratios_with_nan ->
  fmean E ratios_with_nan = inr S754_nan ->
  recommend_guard_from_profile E ratios_with_nan DEFAULT_REMOVAL_GUARD
  = inr (F64.lit 60 100).
Proof.
  intros Hsorted Hmean.
  assert (Hguard : F64.py_max (F64.lit 30 100)
                     (F64.py_min (F64.lit 60 100)
                        (F64.add S754_nan (F64.lit 10 100)))
                   = F64.lit 60 100) by (vm_compute; reflexivity).
  unfold recommend_guard_from_profile, ratios_with_nan in *.
  rewrite Hmean. unfold F64.median. rewrite Hsorted.
  cbn [length Nat.modulo Nat.divmod Nat.eqb Nat.div fst snd nth].
  exact (f_equal inr Hguard).
Qed.



(** ** More on the cleaning of lines *)

Lemma join_cons_char c l ls :
  Str.join Str.nl (String c l :: ls) = String c (Str.join Str.nl (l :: ls)).
Proof. destruct ls; reflexivity. Qed.

(** Splitting at the newlines and joining with newlines gives the text
    back. *)
Lemma join_split s : Str.join Str.nl (Str.split Chr.nl s) = s.
Proof.
  induction s as [|c s IH]; [reflexivity|].
  cbn [Str.split]. destruct (Chr.eqb c Chr.nl) eqn:Hc.
  - apply Ascii.eqb_eq in Hc. subst c.
    pose proof (split_not_nil Chr.nl s) as Hne.
    destruct (Str.split Chr.nl s) as [|l ls]; [contradiction|].
    change (Str.join Str.nl ("" :: l :: ls))
      with (String Chr.nl (Str.join Str.nl (l :: ls))).
    now rewrite IH.
  - pose proof (split_not_nil Chr.nl s) as Hne.
    destruct (Str.split Chr.nl s) as [|l ls]; [contradiction|].
    now rewrite join_cons_char, IH.
Qed.

Lemma filter_all {A} (p : A -> bool) (l : list A) :
  Forall (fun x => p x = true) l -> List.filter p l = l.
Proof.
  induction 1 as [|x l Hx Hl IH]; cbn; [reflexivity|]. now rewrite Hx, IH.
Qed.

Lemma Forall_filter_true {A} (p : A -> bool) (l : list A) :
  Forall (fun x => p x = true) (List.filter p l).
Proof.
  induction l as [|x l IH]; cbn; [constructor|].
  destruct (p x) eqn:Hx; [constructor|]; assumption.
Qed.

Lemma empty_line_is_no_artifact : matches_remove_pattern "" = false.
Proof. vm_compute. reflexivity. Qed.

Lemma lines_after_artifact_removal text :
  Str.split Chr.nl (_remove_line_artifacts text)
  = match List.filter (fun line => negb (matches_remove_pattern line))
            (Str.split Chr.nl text) with
    | [] => [""]
    | k :: ks => k :: ks
    end.
Proof.
  rewrite remove_line_artifacts_filter, split_join
    by apply Forall_filter, split_no_newline.
  now destruct (List.filter _ _).
Qed.

Lemma no_artifact_left text :
  Forall (fun line => matches_remove_pattern line = false)
    (Str.split Chr.nl (_remove_line_artifacts text)).
Proof.
  rewrite lines_after_artifact_removal.
  pose proof (Forall_filter_true (fun line => negb (matches_remove_pattern line))
                (Str.split Chr.nl text)) as Hall.
  destruct (List.filter _ (Str.split Chr.nl text)) as [|l ls].
  - constructor; [exact empty_line_is_no_artifact|constructor].
  - eapply Forall_impl; [exact Hall|].
    intros line Hline. now apply negb_true_iff in Hline.
Qed.

Lemma remove_line_artifacts_clean text :
  Forall (fun line => matches_remove_pattern line = false)
    (Str.split Chr.nl text) ->
  _remove_line_artifacts text = text.
Proof.
  intros Hclean. rewrite remove_line_artifacts_filter, filter_all.
  - apply join_split.
  - eapply Forall_impl; [exact Hclean|].
    intros line Hline. cbn beta. now rewrite Hline.
Qed.

(** X1.  The lines of the text that [_remove_line_artifacts] returns are
    the lines of its argument that match no removal pattern, in their
    order, or the one empty line when none is left; so no line of the
    result matches a removal pattern. *)
Theorem remove_line_artifacts_leaves_no_artifact (text : string) :
  Str.split Chr.nl (_remove_line_artifacts text)
  = match List.filter (fun line => negb (matches_remove_pattern line))
            (Str.split Chr.nl text) with
    | [] => [""]
    | k :: ks => k :: ks
    end /\
  Forall (fun line => matches_remove_pattern line = false)
    (Str.split Chr.nl (_remove_line_artifacts text)).
Proof.
  split; [apply lines_after_artifact_removal|apply no_artifact_left].
Qed.

(** X2.  [_remove_line_artifacts] is idempotent, and it returns a text
    none of whose lines matches a removal pattern as it is. *)
Theorem remove_line_artifacts_idempotent (text : string) :
  _remove_line_artifacts (_remove_line_artifacts text)
  = _remove_line_artifacts text /\
  (Forall (fun line => matches_remove_pattern line = false)
     (Str.split Chr.nl text) ->
   _remove_line_artifacts text = text).
Proof.
  split; [|apply remove_line_artifacts_clean].
  apply remove_line_artifacts_clean, no_artifact_left.
Qed.

(** X3.  In strict mode the removal patterns drop nothing any more: a
    line of the baseline is dropped exactly when it has six words or
    more, three commas or more, no verb and no keyword. *)
Theorem strict_drops_by_enumeration_rule_only (E : Env) (html ln : string) :
  In ln (Str.split Chr.nl (baseline_of E html)) ->
  matches_remove_pattern ln = false /\
  _line_is_garbage ln = enumeration_rule ln /\
  (In ln (kept_lines_of E html) <->
   ~ (enumeration_rule ln = true /\ has_keyword ln = false)).
Proof.
  intros Hin.
  assert (Hpat : matches_remove_pattern ln = false).
  { pose proof (no_artifact_left (stripped_text E html)) as Hall.
    rewrite Forall_forall in Hall. apply Hall, list_elem_of_In. exact Hin. }
  assert (Hg : _line_is_garbage ln = enumeration_rule ln).
  { unfold _line_is_garbage, enumeration_rule. rewrite Hpat.
    destruct (6 <=? length (words ln)); [|reflexivity].
    cbn [andb].
    destruct (3 <=? Str.count "," ln), (Re.search IGNORECASE VERB_PATTERN ln);
      reflexivity. }
  split; [exact Hpat|]. split; [exact Hg|].
  unfold kept_lines_of. rewrite filter_lines_filter, filter_In.
  unfold keeps. rewrite Hg.
  unfold _line_is_narrative, enumeration_rule. fold (has_keyword ln).
  destruct (has_keyword ln), (6 <=? length (words ln)),
    (3 <=? Str.count "," ln), (Re.search IGNORECASE VERB_PATTERN ln);
    cbn; intuition congruence.
Qed.

Lemma roster_line_is_dropped :
  In roster_line (Str.split Chr.nl (baseline_of no_files doc_indented)) /\
  (In roster_line (kept_lines_of no_files doc_indented) <->
   ~ (enumeration_rule roster_line = true /\ has_keyword roster_line = false)).
Proof.
  assert (Hin : In roster_line
                  (Str.split Chr.nl (baseline_of no_files doc_indented)))
    by (vm_compute; left; reflexivity).
  exact (conj Hin
           (proj2 (proj2 (strict_drops_by_enumeration_rule_only no_files
                            doc_indented roster_line Hin)))).
Defined.

(** ** Words and tokens *)

Lemma findall_from_runs ic r ok n :
  1 <= n ->
  (forall c, Re.run ic r c = Re.at_least (Re.one ok) n c) ->
  forall s skip prev,
    Re.findall_from ic r skip prev s = findall_runs_from ok n skip s.
Proof.
  intros Hn Hrun. induction s as [|x s IH]; intros skip prev.
  - cbn [Re.findall_from findall_runs_from].
    rewrite (first_match_run _ _ ok n) by exact Hrun.
    cbn [Re.rest run_length]. now rewrite (proj2 (Nat.leb_gt _ _)) by lia.
  - cbn [Re.findall_from findall_runs_from]. destruct skip as [|k]; [|apply IH].
    rewrite (first_match_run _ _ ok n) by exact Hrun.
    cbn [Re.rest run_length]. destruct (ok x); cbn [andb].
    + destruct (n <=? S (run_length ok s)); [|now rewrite IH].
      rewrite IH. now rewrite Nat.sub_succ, Nat.sub_0_r.
    + rewrite (proj2 (Nat.leb_gt _ _)) by lia. now rewrite IH.
Qed.

Lemma words_runs line : words line = findall_runs_from is_word_char 1 0 line.
Proof.
  unfold words, Re.findall.
  now rewrite (findall_from_runs false _ is_word_char 1); [|lia|reflexivity].
Qed.

Lemma tokenize_runs text :
  tokenize text = map Str.lower (findall_runs_from is_token_char 1 0 text).
Proof.
  unfold tokenize, Re.findall.
  now rewrite (findall_from_runs false _ is_token_char 1); [|lia|reflexivity].
Qed.

(** The run at the start of a text, cut out. *)
Lemma run_prefix cls s :
  Str.all cls (String.substring 0 (run_length cls s) s) = true /\
  String.length (String.substring 0 (run_length cls s) s) = run_length cls s.
Proof.
  induction s as [|c s [IHa IHl]]; [split; reflexivity|].
  cbn [run_length]. destruct (cls c) eqn:Hc; [|split; reflexivity].
  cbn [String.substring Str.all String.length]. now rewrite Hc, IHa, IHl.
Qed.

Lemma findall_runs_wellformed cls n s skip :
  Forall (fun w => Str.all cls w = true /\ n <= String.length w)
    (findall_runs_from cls n skip s).
Proof.
  revert skip. induction s as [|c s IH]; intros skip; [constructor|].
  cbn [findall_runs_from]. destruct skip as [|k]; [|apply IH].
  destruct (cls c && (n <=? run_length cls (String c s))) eqn:Hm; [|apply IH].
  apply andb_true_iff in Hm as [_ Hn]. apply Nat.leb_le in Hn.
  constructor; [|apply IH].
  destruct (run_prefix cls (String c s)) as [Ha Hl]. rewrite Hl. auto.
Qed.

Lemma findall_runs_length cls n s skip :
  length (findall_runs_from cls n skip s) <= String.length s.
Proof.
  revert skip. induction s as [|c s IH]; intros skip; [cbn; lia|].
  cbn [findall_runs_from String.length]. destruct skip as [|k].
  - destruct (cls c && _); cbn [length].
    + specialize (IH (run_length cls (String c s) - 1)). lia.
    + specialize (IH 0). lia.
  - specialize (IH k). lia.
Qed.

Lemma findall_runs_none cls n s skip :
  Str.all (fun c => negb (cls c)) s = true ->
  findall_runs_from cls n skip s = [].
Proof.
  revert skip. induction s as [|c s IH]; intros skip H; [reflexivity|].
  cbn [Str.all] in H. apply andb_true_iff in H as [Hc Hs].
  apply negb_true_iff in Hc.
  cbn [findall_runs_from]. destruct skip; [rewrite Hc|]; now apply IH.
Qed.

(** Facts about single characters, by cases on the 256 of them. *)
Ltac by_cases_on_char c :=
  destruct c as [[] [] [] [] [] [] [] []]; vm_compute; intros; congruence.

Lemma space_is_no_word_char c :
  Chr.isspace c = true -> is_word_char c = false.
Proof. by_cases_on_char c. Qed.

Lemma lower_token_char c :
  is_token_char c = true -> is_lower_token_char (Chr.lower c) = true.
Proof. by_cases_on_char c. Qed.

Lemma token_char_lower c : is_token_char (Chr.lower c) = is_token_char c.
Proof. by_cases_on_char c. Qed.

Lemma lower_lower c : Chr.lower (Chr.lower c) = Chr.lower c.
Proof. by_cases_on_char c. Qed.

Lemma newline_is_no_token_char : is_token_char Chr.nl = false.
Proof. reflexivity. Qed.

Lemma all_impl (p q : ascii -> bool) s :
  (forall c, p c = true -> q c = true) ->
  Str.all p s = true -> Str.all q s = true.
Proof.
  intros Hpq. induction s as [|c s IH]; [reflexivity|].
  cbn [Str.all]. intros H. apply andb_true_iff in H as [Hc Hs].
  now rewrite (Hpq _ Hc), IH.
Qed.

Lemma all_lower (p q : ascii -> bool) s :
  (forall c, p c = true -> q (Chr.lower c) = true) ->
  Str.all p s = true -> Str.all q (Str.lower s) = true.
Proof.
  intros Hpq. induction s as [|c s IH]; [reflexivity|].
  cbn [Str.all Str.lower]. intros H. apply andb_true_iff in H as [Hc Hs].
  now rewrite (Hpq _ Hc), IH.
Qed.

Lemma length_lower s : String.length (Str.lower s) = String.length s.
Proof. induction s as [|c s IH]; cbn; [reflexivity|]. now rewrite IH. Qed.

(** X4.  Every token is a non-empty string of lower-case ASCII letters,
    digits and apostrophes, and a text has at most as many tokens as it
    has characters. *)
Theorem tokens_are_lower_alphanumeric (text : string) :
  Forall (fun t => t <> "" /\ Str.all is_lower_token_char t = true)
    (tokenize text) /\
  length (tokenize text) <= Str.len text.
Proof.
  rewrite tokenize_runs. split.
  - apply Forall_map.
    eapply Forall_impl; [apply (findall_runs_wellformed is_token_char 1)|].
    intros w [Hall Hlen]. cbn beta. split.
    + intros Hw. apply (f_equal String.length) in Hw.
      rewrite length_lower in Hw. cbn in Hw. lia.
    + exact (all_lower is_token_char _ w lower_token_char Hall).
  - rewrite length_map. apply findall_runs_length.
Qed.

Lemma run_length_lower s :
  run_length is_token_char (Str.lower s) = run_length is_token_char s.
Proof.
  induction s as [|c s IH]; [reflexivity|].
  cbn [Str.lower run_length]. now rewrite token_char_lower, IH.
Qed.

Lemma substring_lower k s :
  String.substring 0 k (Str.lower s) = Str.lower (String.substring 0 k s).
Proof.
  revert k. induction s as [|c s IH]; intros [|k]; try reflexivity.
  cbn [Str.lower String.substring]. now rewrite IH.
Qed.

Lemma lower_idempotent s : Str.lower (Str.lower s) = Str.lower s.
Proof.
  induction s as [|c s IH]; [reflexivity|].
  cbn [Str.lower]. now rewrite lower_lower, IH.
Qed.

(** X5.  For a text of code points below 256, the strings of this
    development, tokenizing does not see the case of the letters: the
    text in lower case has the tokens of the text.  The lower-case form
    of such a character is an ASCII letter only when the character is
    one; beyond that range this fails (the lower-case form of the
    Kelvin sign U+212A is the letter k), and so does the property. *)
Theorem tokenize_ignores_case (text : string) :
  tokenize (Str.lower text) = tokenize text.
Proof.
  rewrite !tokenize_runs.
  enough (H : forall skip,
             map Str.lower
               (findall_runs_from is_token_char 1 skip (Str.lower text))
             = map Str.lower (findall_runs_from is_token_char 1 skip text))
    by apply H.
  induction text as [|c s IH]; intros skip; [reflexivity|].
  cbn [Str.lower findall_runs_from]. destruct skip as [|k]; [|apply IH].
  change (String (Chr.lower c) (Str.lower s)) with (Str.lower (String c s)).
  rewrite run_length_lower, token_char_lower.
  destruct (is_token_char c && _); [|apply IH].
  cbn [map]. rewrite substring_lower, lower_idempotent, IH. reflexivity.
Qed.

(** A run of characters that are no newlines lies within one line. *)
Lemma first_line_run cls s l ls :
  cls Chr.nl = false ->
  Str.split Chr.nl s = l :: ls ->
  run_length cls l = run_length cls s /\
  (forall k, k <= run_length cls s ->
     String.substring 0 k l = String.substring 0 k s).
Proof.
  intros Hnl. revert l ls. induction s as [|c s IH]; intros l ls Hs.
  - cbn in Hs. injection Hs as <- <-. split; [reflexivity|]. intros [|k]; reflexivity.
  - cbn [Str.split] in Hs. destruct (Chr.eqb c Chr.nl) eqn:Hc.
    + apply Ascii.eqb_eq in Hc. subst c. injection Hs as <- <-.
      cbn [run_length]. rewrite Hnl. split; [reflexivity|].
      intros k Hk. replace k with 0 by lia. reflexivity.
    + destruct (Str.split Chr.nl s) as [|l' ls'] eqn:Hs';
        [now destruct (split_not_nil Chr.nl s)|].
      injection Hs as <- <-. destruct (IH l' ls' eq_refl) as [IHr IHs].
      cbn [run_length]. rewrite IHr. split; [reflexivity|].
      intros [|k] Hk; [reflexivity|].
      cbn [String.substring]. destruct (cls c); [|lia].
      rewrite IHs by lia. reflexivity.
Qed.

Lemma findall_runs_by_lines cls n s skip :
  cls Chr.nl = false ->
  skip <= run_length cls s ->
  findall_runs_from cls n skip s
  = match Str.split Chr.nl s with
    | [] => []
    | l :: ls =>
        findall_runs_from cls n skip l
        ++ concat (map (findall_runs_from cls n 0) ls)
    end.
Proof.
  intros Hnl. revert skip. induction s as [|c s IH]; intros skip Hskip.
  - reflexivity.
  - pose proof (first_line_run cls s) as Hfirst.
    cbn [Str.split]. destruct (Chr.eqb c Chr.nl) eqn:Hc.
    + apply Ascii.eqb_eq in Hc. subst c.
      cbn [run_length] in Hskip. rewrite Hnl in Hskip.
      replace skip with 0 by lia.
      cbn [findall_runs_from]. rewrite Hnl. cbn [andb app].
      rewrite (IH 0) by lia.
      destruct (Str.split Chr.nl s) as [|l ls]; reflexivity.
    + destruct (Str.split Chr.nl s) as [|l ls] eqn:Hs;
        [now destruct (split_not_nil Chr.nl s)|].
      destruct (Hfirst l ls Hnl eq_refl) as [Hr Hsub].
      cbn [findall_runs_from run_length] in *. rewrite Hr.
      destruct skip as [|k].
      * destruct (cls c) eqn:Hcc; cbn [andb].
        -- destruct (n <=? S (run_length cls s)).
           ++ rewrite Nat.sub_succ, Nat.sub_0_r, (IH _ (le_n _)).
              cbn [String.substring]. rewrite Hsub by lia. reflexivity.
           ++ now rewrite (IH 0) by lia.
        -- now rewrite (IH 0) by lia.
      * destruct (cls c); [|lia]. now rewrite (IH k) by lia.
Qed.

(** X6.  No token spans two lines: the tokens of a text are the tokens
    of its lines, line after line. *)
Theorem tokenize_line_by_line (text : string) :
  tokenize text = concat (map tokenize (Str.split Chr.nl text)).
Proof.
  rewrite tokenize_runs.
  rewrite (findall_runs_by_lines is_token_char 1 text 0
             newline_is_no_token_char (Nat.le_0_l _)).
  pose proof (split_not_nil Chr.nl text) as Hne.
  destruct (Str.split Chr.nl text) as [|l ls]; [contradiction|].
  cbn [map concat]. rewrite map_app, tokenize_runs. f_equal.
  clear. induction ls as [|l' ls IH]; [reflexivity|].
  cbn [map concat]. now rewrite map_app, tokenize_runs, IH.
Qed.

(** ** Blank lines *)

Lemma lstrip_all_space s : Str.all Chr.isspace s = true -> Str.lstrip s = "".
Proof.
  induction s as [|c s IH]; [reflexivity|].
  cbn [Str.all Str.lstrip]. intros H. apply andb_true_iff in H as [-> Hs].
  now apply IH.
Qed.

Lemma blank_line_words line :
  Str.all Chr.isspace line = true -> words line = [].
Proof.
  intros H. rewrite words_runs. apply findall_runs_none.
  eapply all_impl; [|exact H].
  intros c Hc. now rewrite (space_is_no_word_char _ Hc).
Qed.

(** X7.  A line made of whitespace only, the empty line included, is
    never dropped: it matches no removal pattern, is not garbage, and
    so goes from the text into the baseline and into the kept lines of
    the strict mode. *)
Theorem blank_lines_are_kept (E : Env) (html ln : string) :
  Str.all Chr.isspace ln = true ->
  In ln (Str.split Chr.nl (stripped_text E html)) ->
  matches_remove_pattern ln = false /\
  _line_is_garbage ln = false /\
  In ln (Str.split Chr.nl (baseline_of E html)) /\
  In ln (kept_lines_of E html).
Proof.
  intros Hblank Hin.
  assert (Hpat : matches_remove_pattern ln = false).
  { unfold matches_remove_pattern, Str.strip.
    rewrite (lstrip_all_space _ Hblank). exact empty_line_is_no_artifact. }
  assert (Hg : _line_is_garbage ln = false).
  { unfold _line_is_garbage.
    now rewrite Hpat, (blank_line_words _ Hblank). }
  assert (Hbase : In ln (Str.split Chr.nl (baseline_of E html))).
  { unfold baseline_of.
    rewrite remove_line_artifacts_filter, split_join
      by apply Forall_filter, split_no_newline.
    assert (Hf : In ln (List.filter
                          (fun line => negb (matches_remove_pattern line))
                          (Str.split Chr.nl (stripped_text E html))))
      by (apply filter_In; now rewrite Hpat).
    destruct (List.filter _ _); [contradiction|exact Hf]. }
  repeat split; try assumption.
  unfold kept_lines_of. rewrite filter_lines_filter. apply filter_In.
  split; [exact Hbase|]. unfold keeps. rewrite Hg. apply orb_true_r.
Qed.

Lemma empty_line_is_kept :
  In "" (Str.split Chr.nl (stripped_text no_files two_paragraphs)) /\
  In "" (kept_lines_of no_files two_paragraphs).
Proof.
  assert (Hin : In "" (Str.split Chr.nl (stripped_text no_files two_paragraphs)))
    by (vm_compute; right; left; reflexivity).
  exact (conj Hin
           (proj2 (proj2 (proj2 (blank_lines_are_kept no_files two_paragraphs
                                   "" eq_refl Hin))))).
Defined.

(** ** Boilerplate *)

Lemma count_append c s t :
  Str.count c (s +:+ t) = Str.count c s + Str.count c t.
Proof.
  induction s as [|x s IH]; [reflexivity|].
  cbn [String.append Str.count]. rewrite IH. lia.
Qed.

Lemma length_split s :
  length (Str.split Chr.nl s) = S (Str.count Chr.nl s).
Proof.
  induction s as [|c s IH]; [reflexivity|].
  cbn [Str.split Str.count]. destruct (Chr.eqb c Chr.nl).
  - cbn [length]. now rewrite IH.
  - destruct (Str.split Chr.nl s); cbn [length] in *; lia.
Qed.

(** While the scan of [replace] jumps over an occurrence of [old], what
    is ahead starts with the rest of that occurrence, [p]. *)
Lemma replace_from_count c old new :
  old <> "" -> Str.count c old = 0 -> Str.count c new = 0 ->
  forall s p,
    Str.startswith p s = true -> Str.count c p = 0 ->
    Str.count c (Str.replace_from old new (String.length p) s) = Str.count c s.
Proof.
  intros Hold Hco Hcn. induction s as [|x s IH]; intros p Hp Hcp.
  - reflexivity.
  - destruct p as [|a p].
    + cbn [String.length Str.replace_from].
      destruct (Str.startswith old (String x s)) eqn:Hm.
      * destruct old as [|b old]; [contradiction|].
        cbn [Str.startswith] in Hm. apply andb_true_iff in Hm as [Hb Hm].
        apply Ascii.eqb_eq in Hb. subst b.
        cbn [Str.count] in Hco |- *.
        rewrite count_append, Hcn. cbn [String.length].
        rewrite Nat.sub_succ, Nat.sub_0_r, (IH old Hm) by lia.
        destruct (Chr.eqb x c); [discriminate|reflexivity].
      * pose proof (IH "" eq_refl eq_refl) as H0. cbn [String.length] in H0.
        cbn [Str.count]. now rewrite H0.
    + cbn [Str.startswith] in Hp. apply andb_true_iff in Hp as [Ha Hp].
      apply Ascii.eqb_eq in Ha. subst a.
      cbn [String.length Str.replace_from Str.count] in *.
      rewrite (IH p Hp) by lia.
      destruct (Chr.eqb x c); [discriminate|reflexivity].
Qed.

Lemma startswith_length p s :
  Str.startswith p s = true -> String.length p <= String.length s.
Proof.
  revert s. induction p as [|a p IH]; intros [|x s] H; cbn in *;
    try lia; try discriminate.
  apply andb_true_iff in H as [_ H]. specialize (IH _ H). lia.
Qed.

Lemma length_append s t :
  String.length (s +:+ t) = String.length s + String.length t.
Proof. induction s as [|x s IH]; cbn; [reflexivity|]. now rewrite IH. Qed.

Lemma replace_from_length old new :
  old <> "" -> String.length new <= String.length old ->
  forall s skip,
    skip <= String.length s ->
    String.length (Str.replace_from old new skip s) + skip <= String.length s.
Proof.
  intros Hold Hlen. induction s as [|x s IH]; intros skip Hskip.
  - cbn in *. lia.
  - cbn [Str.replace_from String.length] in *. destruct skip as [|k].
    + destruct (Str.startswith old (String x s)) eqn:Hm.
      * pose proof (startswith_length _ _ Hm) as Hl. cbn [String.length] in Hl.
        destruct old as [|b old]; [contradiction|]. cbn [String.length] in *.
        rewrite length_append, Nat.sub_succ, Nat.sub_0_r.
        specialize (IH (String.length old)). lia.
      * cbn [String.length]. specialize (IH 0). lia.
    + specialize (IH k). lia.
Qed.

Lemma replace_absent old new s :
  Str.contains old s = false -> Str.replace old new s = s.
Proof.
  unfold Str.replace. induction s as [|x s IH]; [reflexivity|].
  cbn [Str.contains Str.replace_from]. intros H.
  apply orb_false_iff in H as [-> H]. now rewrite IH.
Qed.

Lemma boilerplate_phrases :
  Forall (fun phrase =>
            phrase <> "" /\ Str.count Chr.nl phrase = 0 /\
            1 <= String.length phrase)
    BOILERPLATE.
Proof. repeat constructor; discriminate || (cbn; lia). Qed.

Lemma remove_boilerplate_counts text :
  Str.count Chr.nl (_remove_boilerplate text) = Str.count Chr.nl text /\
  String.length (_remove_boilerplate text) <= String.length text.
Proof.
  unfold _remove_boilerplate.
  pose proof boilerplate_phrases as Hall. revert text.
  induction Hall as [|phrase phrases (Hne & Hnl & Hlen) _ IH]; intros text.
  - cbn. lia.
  - cbn [fold_left].
    destruct (IH (Str.replace phrase " " text)) as [IHc IHl].
    rewrite IHc. unfold Str.replace in *.
    pose proof (replace_from_count Chr.nl phrase " " Hne Hnl eq_refl text ""
                  eq_refl eq_refl) as Hc.
    cbn [String.length] in Hc. rewrite Hc.
    pose proof (replace_from_length phrase " " Hne Hlen text 0 (Nat.le_0_l _)).
    split; [reflexivity|lia].
Qed.

(** X8.  Replacing the boilerplate phrases neither joins nor splits
    lines and never makes the text longer: the text has as many lines
    after as before, and at most as many characters. *)
Theorem remove_boilerplate_keeps_lines (text : string) :
  length (Str.split Chr.nl (_remove_boilerplate text))
  = length (Str.split Chr.nl text) /\
  Str.len (_remove_boilerplate text) <= Str.len text.
Proof.
  destruct (remove_boilerplate_counts text) as [Hc Hl].
  rewrite !length_split, Hc. split; [reflexivity|exact Hl].
Qed.

(** X9.  A text in which no boilerplate phrase occurs is returned as it
    is. *)
Theorem remove_boilerplate_absent (text : string) :
  Forall (fun phrase => Str.contains phrase text = false) BOILERPLATE ->
  _remove_boilerplate text = text.
Proof.
  unfold _remove_boilerplate. induction 1 as [|phrase phrases Hp _ IH];
    [reflexivity|].
  cbn [fold_left]. now rewrite (replace_absent _ _ _ Hp).
Qed.

Lemma memo_has_no_boilerplate : _remove_boilerplate memo = memo.
Proof.
  apply remove_boilerplate_absent. unfold BOILERPLATE.
  repeat (constructor; [vm_compute; reflexivity|]). constructor.
Defined.

(** ** What [extract_text] returns *)

Lemma blanks_single_no_tab s :
  blanks_single s = true ->
  Str.count Chr.tab s = 0 /\ Str.contains "  " s = false.
Proof.
  induction s as [|c s IH]; [split; reflexivity|].
  cbn [blanks_single]. intros H. apply andb_true_iff in H as [Hc Hs].
  destruct (IH Hs) as [IHt IHc]. cbn [Str.count Str.contains]. rewrite IHt, IHc.
  destruct (Chr.eqb c Chr.tab) eqn:Htab.
  - apply Ascii.eqb_eq in Htab. subst c. discriminate Hc.
  - split; [reflexivity|]. rewrite orb_false_r.
    cbn [Str.startswith]. destruct (Chr.eqb " " c) eqn:Hsp; [|reflexivity].
    apply Ascii.eqb_eq in Hsp. subst c.
    change (is_blank " ") with true in Hc. cbn iota in Hc.
    apply andb_true_iff in Hc as [_ Hnext]. apply negb_true_iff in Hnext.
    destruct s as [|d s]; [reflexivity|]. cbn [starts_with andb] in *.
    destruct (Chr.eqb " " d) eqn:Hd; [|reflexivity].
    apply Ascii.eqb_eq in Hd. subst d. discriminate Hnext.
Qed.

Lemma startswith_newlines_run s :
  Str.startswith three_newlines s = true -> 3 <= run_length is_newline s.
Proof.
  change three_newlines with (String Chr.nl (String Chr.nl (String Chr.nl ""))).
  unfold is_newline, Re.lit_char.
  destruct s as [|a s]; cbn [Str.startswith run_length]; [discriminate|].
  destruct (Chr.eqb Chr.nl a); [|discriminate].
  destruct s as [|b s]; cbn [Str.startswith run_length andb]; [discriminate|].
  destruct (Chr.eqb Chr.nl b); [|discriminate].
  destruct s as [|c s]; cbn [Str.startswith run_length andb]; [discriminate|].
  destruct (Chr.eqb Chr.nl c); [|discriminate]. lia.
Qed.

Lemma runs_below_no_three_newlines s :
  runs_below is_newline 3 s = true -> Str.contains three_newlines s = false.
Proof.
  induction s as [|c s IH]; [reflexivity|].
  cbn [runs_below]. intros H. apply andb_true_iff in H as [Hrun Hs].
  apply Nat.ltb_lt in Hrun.
  cbn [Str.contains]. rewrite (IH Hs), orb_false_r.
  destruct (Str.startswith three_newlines (String c s)) eqn:Hm; [|reflexivity].
  apply startswith_newlines_run in Hm. lia.
Qed.

Lemma final_normalize_stripped t :
  Str.strip (final_normalize t) = final_normalize t.
Proof. rewrite final_normalize_runs. apply strip_idempotent. Qed.

(** X10.  Whatever the mode and the guard, the text [extract_text]
    returns has no whitespace at either end, no tab, no two spaces in a
    row and no three newlines in a row. *)
Theorem extract_text_is_normalized (E : Env) (html : string) (is_fomc : bool)
  (removal_guard : option float) :
  Str.strip (extract_text E html is_fomc removal_guard)
  = extract_text E html is_fomc removal_guard /\
  Str.count Chr.tab (extract_text E html is_fomc removal_guard) = 0 /\
  Str.contains "  " (extract_text E html is_fomc removal_guard) = false /\
  Str.contains three_newlines (extract_text E html is_fomc removal_guard)
  = false.
Proof.
  unfold extract_text. cbv zeta.
  set (t := if is_fomc then _ else _). clearbody t.
  destruct (final_normalize_normal t) as [Hb Hn].
  destruct (blanks_single_no_tab _ Hb) as [Htab Hsp].
  repeat split; try assumption.
  - apply final_normalize_stripped.
  - now apply runs_below_no_three_newlines.
Qed.

Lemma join_weight l : String.length (Str.join Str.nl l) = weight l - 1.
Proof.
  induction l as [|x l IH]; [reflexivity|].
  destruct l as [|y l]; [cbn; lia|].
  change (Str.join Str.nl (x :: y :: l))
    with (x +:+ String Chr.nl (Str.join Str.nl (y :: l))).
  rewrite length_append. cbn [String.length weight] in *. rewrite IH. lia.
Qed.

Lemma weight_filter (p : string -> bool) l :
  weight (List.filter p l) <= weight l.
Proof.
  induction l as [|x l IH]; [cbn; lia|].
  cbn [List.filter]. destruct (p x); cbn [weight]; lia.
Qed.

Lemma join_filter_length (p : string -> bool) s :
  String.length (Str.join Str.nl (List.filter p (Str.split Chr.nl s)))
  <= String.length s.
Proof.
  rewrite <- (join_split s) at 2. rewrite !join_weight.
  pose proof (weight_filter p (Str.split Chr.nl s)). lia.
Qed.

Lemma sub_runs_length cls n repl :
  String.length repl <= n ->
  forall s skip,
    skip <= String.length s ->
    String.length (sub_runs_from cls n repl skip s) + skip <= String.length s.
Proof.
  intros Hrepl. induction s as [|c s IH]; intros skip Hskip.
  - cbn in *. lia.
  - cbn [sub_runs_from String.length] in *. destruct skip as [|k].
    + destruct (cls c && (n <=? run_length cls (String c s))) eqn:Hm.
      * apply andb_true_iff in Hm as [Hc Hn]. apply Nat.leb_le in Hn.
        cbn [run_length] in *. rewrite Hc in *.
        rewrite length_append, Nat.sub_succ, Nat.sub_0_r.
        pose proof (run_length_le cls s).
        specialize (IH (run_length cls s)). lia.
      * cbn [String.length]. specialize (IH 0). lia.
    + specialize (IH k). lia.
Qed.

Lemma lstrip_length s : String.length (Str.lstrip s) <= String.length s.
Proof.
  induction s as [|c s IH]; [reflexivity|].
  cbn [Str.lstrip]. destruct (Chr.isspace c); cbn [String.length]; lia.
Qed.

Lemma rstrip_length s : String.length (Str.rstrip s) <= String.length s.
Proof.
  induction s as [|c s IH]; [reflexivity|].
  destruct (rstrip_cons c s) as [-> | ->]; cbn [String.length]; lia.
Qed.

Lemma final_normalize_length s :
  String.length (final_normalize s) <= String.length s.
Proof.
  rewrite final_normalize_runs. unfold Str.strip.
  pose proof (sub_runs_length is_blank 1 " " (le_n _) s 0 (Nat.le_0_l _)).
  pose proof (sub_runs_length is_newline 3 (Str.nl +:+ Str.nl)
                (Nat.le_succ_diag_r _)
                (sub_runs_from is_blank 1 " " 0 s) 0 (Nat.le_0_l _)).
  pose proof (rstrip_length
                (Str.lstrip
                   (sub_runs_from is_newline 3 (Str.nl +:+ Str.nl) 0
                      (sub_runs_from is_blank 1 " " 0 s)))).
  pose proof (lstrip_length
                (sub_runs_from is_newline 3 (Str.nl +:+ Str.nl) 0
                   (sub_runs_from is_blank 1 " " 0 s))).
  lia.
Qed.

(** X11.  Cleaning only takes characters away: the filtered text is no
    longer than the baseline, the baseline no longer than the text of
    the document, and what [extract_text] returns no longer than that
    text, in either mode. *)
Theorem cleaning_never_lengthens (E : Env) (html : string) (is_fomc : bool)
  (removal_guard : option float) :
  Str.len (filtered_of E html) <= Str.len (baseline_of E html) /\
  Str.len (baseline_of E html) <= Str.len (main_text E html) /\
  Str.len (extract_text E html is_fomc removal_guard)
  <= Str.len (main_text E html).
Proof.
  unfold Str.len.
  assert (Hf : String.length (filtered_of E html)
               <= String.length (baseline_of E html)).
  { unfold filtered_of, kept_lines_of. rewrite filter_lines_filter.
    apply join_filter_length. }
  assert (Hb : String.length (baseline_of E html)
               <= String.length (main_text E html)).
  { unfold baseline_of, stripped_text. rewrite remove_line_artifacts_filter.
    pose proof (join_filter_length
                  (fun line => negb (matches_remove_pattern line))
                  (_remove_boilerplate (main_text E html))).
    pose proof (proj2 (remove_boilerplate_counts (main_text E html))) as Hl.
    lia. }
  repeat split; try assumption.
  destruct is_fomc.
  - rewrite extract_text_strict.
    pose proof (final_normalize_length
                  (if guard_fallback (Str.len (baseline_of E html))
                        (Str.len (filtered_of E html)) (guard_of removal_guard)
                   then baseline_of E html else filtered_of E html)).
    destruct (guard_fallback _ _ _); lia.
  - rewrite extract_text_light.
    pose proof (final_normalize_length (baseline_of E html)). lia.
Qed.

(** ** [compute_removed_lines] *)

Lemma count_of_insert (c : gmap string nat) k v x :
  count_of (<[k := v]> c) x = if String.eqb x k then v else count_of c x.
Proof.
  unfold count_of. destruct (String.eqb_spec x k) as [->|Hne].
  - now rewrite lookup_insert_eq.
  - now rewrite lookup_insert_ne by congruence.
Qed.

Lemma occurrences_cons x y l :
  occurrences x (y :: l) = (if String.eqb x y then 1 else 0) + occurrences x l.
Proof. unfold occurrences. cbn [List.filter]. now destruct (String.eqb x y). Qed.

(** [Counter(xs)] counts how often each element occurs. *)
Lemma count_of_Counter xs x : count_of (Counter xs) x = occurrences x xs.
Proof.
  unfold Counter.
  enough (H : forall c,
             count_of (fold_left (fun c x => <[x := count_of c x + 1]> c) xs c) x
             = count_of c x + occurrences x xs)
    by (rewrite H; unfold count_of; now rewrite lookup_empty).
  induction xs as [|y xs IH]; intros c; cbn [fold_left].
  - unfold occurrences. cbn. lia.
  - rewrite IH, count_of_insert, occurrences_cons.
    destruct (String.eqb_spec x y) as [->|]; lia.
Qed.

Lemma compute_removed_lines_unmatched baseline cleaned :
  compute_removed_lines baseline cleaned
  = unmatched (Counter (Str.split Chr.nl cleaned)) (Str.split Chr.nl baseline).
Proof.
  unfold compute_removed_lines.
  generalize (Counter (Str.split Chr.nl cleaned)) as c.
  generalize (Str.split Chr.nl baseline) as l.
  enough (H : forall l c acc,
             snd (fold_left
                    (fun '(c_counts, removed) ln =>
                       if 0 <? count_of c_counts ln
                       then (<[ln := count_of c_counts ln - 1]> c_counts, removed)
                       else (c_counts, removed ++ [ln]))
                    l (c, acc))
             = acc ++ unmatched c l) by (intros l c; apply (H l c [])).
  induction l as [|ln l IH]; intros c acc; cbn [fold_left unmatched].
  - cbn. now rewrite app_nil_r.
  - destruct (0 <? count_of c ln); rewrite IH; [reflexivity|].
    now rewrite <- app_assoc.
Qed.

Lemma unmatched_occurrences x l c :
  occurrences x (unmatched c l) = occurrences x l - count_of c x.
Proof.
  revert c. induction l as [|ln l IH]; intros c; cbn [unmatched].
  - reflexivity.
  - destruct (0 <? count_of c ln) eqn:Hpos.
    + apply Nat.ltb_lt in Hpos.
      rewrite IH, count_of_insert, occurrences_cons.
      destruct (String.eqb_spec x ln) as [->|]; lia.
    + apply Nat.ltb_ge in Hpos.
      rewrite !occurrences_cons, IH.
      destruct (String.eqb_spec x ln) as [->|]; lia.
Qed.

Lemma unmatched_sublist l c : unmatched c l `sublist_of` l.
Proof.
  revert c. induction l as [|ln l IH]; intros c; cbn [unmatched];
    [constructor|].
  destruct (0 <? count_of c ln); constructor; apply IH.
Qed.

Lemma occurrences_nil l : (forall x, occurrences x l = 0) -> l = [].
Proof.
  destruct l as [|y l]; [reflexivity|]. intros H. specialize (H y).
  rewrite occurrences_cons, String.eqb_refl in H. discriminate H.
Qed.

(** X12.  The removed lines are the lines of the baseline less the
    lines of the cleaned text, counted with their repetitions and left
    in the order of the baseline; a text compared with itself has no
    removed line. *)
Theorem removed_lines_are_a_difference (baseline cleaned : string) :
  (forall x,
     occurrences x (compute_removed_lines baseline cleaned)
     = occurrences x (Str.split Chr.nl baseline)
       - occurrences x (Str.split Chr.nl cleaned)) /\
  compute_removed_lines baseline cleaned `sublist_of` Str.split Chr.nl baseline /\
  compute_removed_lines baseline baseline = [].
Proof.
  split; [|split].
  - intros x. now rewrite compute_removed_lines_unmatched, unmatched_occurrences,
      count_of_Counter.
  - rewrite compute_removed_lines_unmatched. apply unmatched_sublist.
  - apply occurrences_nil. intros x.
    rewrite compute_removed_lines_unmatched, unmatched_occurrences,
      count_of_Counter. lia.
Qed.

Lemma occurrences_filter (p : string -> bool) x l :
  occurrences x (List.filter p l) = if p x then occurrences x l else 0.
Proof.
  induction l as [|y l IH]; [cbn; now destruct (p x)|].
  cbn [List.filter]. destruct (p y) eqn:Hy.
  - rewrite !occurrences_cons, IH.
    destruct (String.eqb_spec x y) as [->|]; [now rewrite Hy|].
    now destruct (p x).
  - rewrite occurrences_cons, IH.
    destruct (String.eqb_spec x y) as [->|]; [now rewrite Hy|reflexivity].
Qed.

Lemma unmatched_filter (p : string -> bool) l c :
  (forall x, count_of c x = if p x then occurrences x l else 0) ->
  unmatched c l = List.filter (fun x => negb (p x)) l.
Proof.
  revert c. induction l as [|ln l IH]; intros c Hc; [reflexivity|].
  cbn [unmatched List.filter]. pose proof (Hc ln) as Hln.
  rewrite occurrences_cons, String.eqb_refl in Hln.
  destruct (p ln) eqn:Hp; cbn [negb].
  - rewrite Hln. cbn [Nat.ltb Nat.leb Nat.add]. apply IH. intros y.
    rewrite count_of_insert. pose proof (Hc y) as Hy.
    rewrite occurrences_cons in Hy.
    destruct (String.eqb_spec y ln) as [Heq|Hne].
    + subst y. rewrite Hp. lia.
    + exact Hy.
  - rewrite Hln. cbn [Nat.ltb Nat.leb]. f_equal. apply IH. intros y.
    pose proof (Hc y) as Hy. rewrite occurrences_cons in Hy.
    destruct (String.eqb_spec y ln) as [Heq|Hne].
    + subst y. now rewrite Hp in *.
    + exact Hy.
Qed.

(** X13.  When the cleaned text is the baseline with the lines failing a
    test [p] taken out, and some line is left, the removed lines are
    exactly the lines that fail [p], in their order and with their
    repetitions. *)
Theorem removed_lines_of_a_filter (p : string -> bool) (lines : list string) :
  Forall (fun l => no_newline l = true) lines ->
  List.filter p lines <> [] ->
  compute_removed_lines (Str.join Str.nl lines)
    (Str.join Str.nl (List.filter p lines))
  = List.filter (fun l => negb (p l)) lines.
Proof.
  intros Hlines Hkept.
  rewrite compute_removed_lines_unmatched.
  rewrite !split_join by (try apply Forall_filter; exact Hlines).
  destruct (List.filter p lines) as [|k ks] eqn:Hf; [contradiction|].
  destruct lines as [|l ls]; [discriminate Hf|].
  rewrite <- Hf. apply unmatched_filter. intros x.
  now rewrite count_of_Counter, occurrences_filter.
Qed.

Lemma removed_lines_of_roster_and_memo :
  compute_removed_lines (Str.join Str.nl [roster_line; memo])
    (Str.join Str.nl (List.filter keeps [roster_line; memo]))
  = List.filter (fun l => negb (keeps l)) [roster_line; memo].
Proof.
  apply removed_lines_of_a_filter.
  - repeat (constructor; [vm_compute; reflexivity|]). constructor.
  - vm_compute. discriminate.
Defined.

(** ** When [extract_text] returns the empty string *)

Lemma all_append p a b :
  Str.all p (a +:+ b) = Str.all p a && Str.all p b.
Proof.
  induction a as [|c a IH]; [reflexivity|].
  cbn [String.append Str.all]. now rewrite IH, andb_assoc.
Qed.

Lemma lstrip_all s :
  Str.all Chr.isspace (Str.lstrip s) = Str.all Chr.isspace s.
Proof.
  induction s as [|c s IH]; [reflexivity|].
  cbn [Str.lstrip]. destruct (Chr.isspace c) eqn:Hc; cbn [Str.all].
  - now rewrite Hc.
  - reflexivity.
Qed.

Lemma rstrip_empty s :
  Str.rstrip s = "" <-> Str.all Chr.isspace s = true.
Proof.
  induction s as [|c s IH]; [now split|].
  cbn [Str.rstrip Str.all].
  destruct (Chr.isspace c); cbn [andb].
  - destruct (Str.rstrip s) as [|d r]; cbn [Str.is_empty].
    + split; [intros _; now apply IH|reflexivity].
    + split; [discriminate|].
      intros H. apply IH in H. discriminate H.
  - split; discriminate.
Qed.

Lemma strip_empty s : Str.strip s = "" <-> Str.all Chr.isspace s = true.
Proof. unfold Str.strip. now rewrite rstrip_empty, lstrip_all. Qed.

Lemma sub_runs_all cls n repl :
  (forall c, cls c = true -> Chr.isspace c = true) ->
  Str.all Chr.isspace repl = true ->
  forall s skip,
    skip <= run_length cls s ->
    Str.all Chr.isspace (sub_runs_from cls n repl skip s)
    = Str.all Chr.isspace s.
Proof.
  intros Hcls Hrepl. induction s as [|c s IH]; intros skip Hskip;
    [reflexivity|].
  cbn [sub_runs_from Str.all run_length] in *. destruct skip as [|k].
  - destruct (cls c) eqn:Hc; cbn [andb].
    + destruct (n <=? S (run_length cls s)).
      * rewrite all_append, Hrepl, Nat.sub_succ, Nat.sub_0_r, IH, (Hcls c Hc)
          by apply le_n.
        reflexivity.
      * cbn [Str.all]. now rewrite IH by apply Nat.le_0_l.
    + cbn [Str.all]. now rewrite IH by apply Nat.le_0_l.
  - destruct (cls c) eqn:Hc; [|lia].
    rewrite (Hcls c Hc), IH by lia. reflexivity.
Qed.

Lemma blank_is_space c : is_blank c = true -> Chr.isspace c = true.
Proof. by_cases_on_char c. Qed.

Lemma newline_is_space c : is_newline c = true -> Chr.isspace c = true.
Proof. by_cases_on_char c. Qed.

Lemma final_normalize_empty t :
  final_normalize t = "" <-> Str.all Chr.isspace t = true.
Proof.
  rewrite final_normalize_runs, strip_empty.
  rewrite (sub_runs_all is_newline 3 (Str.nl +:+ Str.nl) newline_is_space
             eq_refl) by apply Nat.le_0_l.
  rewrite (sub_runs_all is_blank 1 " " blank_is_space eq_refl)
    by apply Nat.le_0_l.
  reflexivity.
Qed.

Lemma all_join l :
  Str.all Chr.isspace (Str.join Str.nl l) = forallb (Str.all Chr.isspace) l.
Proof.
  induction l as [|x l IH]; [reflexivity|].
  destruct l as [|y l]; [cbn; now rewrite andb_true_r|].
  change (Str.join Str.nl (x :: y :: l))
    with (x +:+ String Chr.nl (Str.join Str.nl (y :: l))).
  rewrite all_append. cbn [Str.all forallb] in *. rewrite IH.
  reflexivity.
Qed.

Lemma forallb_filter {A} (p q : A -> bool) l :
  forallb p l = true -> forallb p (List.filter q l) = true.
Proof.
  induction l as [|x l IH]; [reflexivity|].
  cbn [forallb List.filter]. intros H. apply andb_true_iff in H as [Hx Hl].
  destruct (q x); cbn [forallb]; [rewrite Hx|]; auto.
Qed.

Lemma filtered_all_space E html :
  Str.all Chr.isspace (baseline_of E html) = true ->
  Str.all Chr.isspace (filtered_of E html) = true.
Proof.
  unfold filtered_of, kept_lines_of. rewrite filter_lines_filter, all_join.
  rewrite <- (join_split (baseline_of E html)) at 1. rewrite all_join.
  apply forallb_filter.
Qed.

Lemma light_empty_strict_empty E html is_fomc removal_guard g :
  extract_text E html false g = "" ->
  extract_text E html is_fomc removal_guard = "".
Proof.
  rewrite extract_text_light. intros Hlight. destruct is_fomc.
  - rewrite extract_text_strict.
    destruct (guard_fallback _ _ _); [exact Hlight|].
    apply final_normalize_empty, filtered_all_space.
    now apply final_normalize_empty.
  - now rewrite extract_text_light.
Qed.

(** X14.  [extract_text] returns the empty string exactly when the text
    it normalizes at the end is made of whitespace only; and when light
    cleaning returns the empty string for a document, so does strict
    cleaning, whatever the guard. *)
Theorem extract_text_empty (E : Env) (html : string) (is_fomc : bool)
  (removal_guard g : option float) :
  (extract_text E html false g = "" <->
   Str.all Chr.isspace (baseline_of E html) = true) /\
  (extract_text E html true removal_guard = "" <->
   Str.all Chr.isspace
     (if guard_fallback (Str.len (baseline_of E html))
           (Str.len (filtered_of E html)) (guard_of removal_guard)
      then baseline_of E html else filtered_of E html) = true) /\
  (extract_text E html false g = "" ->
   extract_text E html is_fomc removal_guard = "").
Proof.
  rewrite extract_text_light, extract_text_strict.
  split; [apply final_normalize_empty|].
  split; [apply final_normalize_empty|].
  rewrite <- (extract_text_light E html g).
  apply light_empty_strict_empty.
Qed.

(** ** Invariants of the loop of [process_tree] *)

Lemma unit_clamp (r : float) :
  in_unit_interval (F64.py_max F64.zero (F64.py_min (F64.lit 1 1) r)) = true.
Proof.
  unfold in_unit_interval.
  assert (Hlo : F64.leb F64.zero F64.zero = true) by (vm_compute; reflexivity).
  assert (Hhi : F64.leb (F64.lit 1 1) (F64.lit 1 1) = true)
    by (vm_compute; reflexivity).
  assert (Hlh : F64.ltb F64.zero (F64.lit 1 1) = true)
    by (vm_compute; reflexivity).
  generalize dependent (F64.lit 1 1). generalize dependent F64.zero.
  intros lo Hlo hi Hhi Hlh. unfold F64.py_max, F64.py_min.
  apply andb_true_iff.
  destruct (F64.ltb r hi) eqn:Hr.
  - destruct (F64.ltb lo r) eqn:Hr'.
    + split; now apply ltb_leb.
    + split; [exact Hlo|now apply ltb_leb].
  - rewrite Hlh. split; [now apply ltb_leb|exact Hhi].
Qed.

(** The first half of the body of the loop, with what it does to the
    ratios and to the caller's list. *)
Lemma process_tree_body_first_half E input_root output_root is_fomc
  removal_guard removed_collector acc p st html :
  read_html E p st = (inr html, st) ->
  exists acc1 st1,
    aggregates acc1 = aggregates acc /\ written st1 = written st /\
    (exists more, collected st1 = collected st ++ more) /\
    (removed_collector && is_fomc = false -> collected st1 = collected st) /\
    (extract_text E html false None = "" /\
     removal_ratios acc1 = removal_ratios acc \/
     extract_text E html false None <> "" /\
     exists r,
       removal_ratios acc1
       = removal_ratios acc
         ++ [F64.py_max F64.zero (F64.py_min (F64.lit 1 1) r)]) /\
    process_tree_body E input_root output_root is_fomc removal_guard
      removed_collector acc p st
    = bind (process_file E p input_root output_root is_fomc removal_guard)
        (fun result =>
           match result with
           | None => ret acc1
           | Some (chars, tokens, local_counter) =>
               ret (Totals (total_files acc1 + 1) (total_chars acc1 + chars)
                      (total_tokens acc1 + tokens)
                      (Counter_update (counter acc1) local_counter)
                      (removal_ratios acc1))
           end) st1.
Proof.
  intros Hr. unfold process_tree_body. rewrite (bind_returns _ _ _ _ _ Hr).
  assert (Hsame : exists more, collected st = collected st ++ more)
    by (exists []; now rewrite app_nil_r).
  destruct (extract_text E html false None) as [|c light] eqn:Hlight.
  - exists acc, st. cbn [Str.len String.length].
    split; [reflexivity|]. split; [reflexivity|]. split; [exact Hsame|].
    split; [reflexivity|]. split; [|reflexivity]. left. now split.
  - cbn [Str.len String.length].
    set (acc1 := Totals _ _ _ _ (removal_ratios acc ++ _)).
    assert (Hratio : String c light <> "" /\
                     exists r, removal_ratios acc1
                               = removal_ratios acc
                                 ++ [F64.py_max F64.zero
                                       (F64.py_min (F64.lit 1 1) r)]).
    { split; [discriminate|]. eexists. reflexivity. }
    destruct (removed_collector && is_fomc).
    + destruct (compute_removed_lines _ _) as [|l ls].
      * exists acc1, st.
        split; [reflexivity|]. split; [reflexivity|]. split; [exact Hsame|].
        split; [reflexivity|]. split; [now right|reflexivity].
      * exists acc1,
          (Store (written st)
             (collected st ++ ("=== File: " +:+ p) :: (l :: ls) ++ [""])).
        split; [reflexivity|]. split; [reflexivity|].
        split; [eexists; reflexivity|].
        split; [discriminate|]. split; [now right|reflexivity].
    + exists acc1, st.
      split; [reflexivity|]. split; [reflexivity|]. split; [exact Hsame|].
      split; [reflexivity|]. split; [now right|reflexivity].
Qed.

(** What one round of the loop does when it returns. *)
Lemma process_tree_body_round E input_root output_root is_fomc removal_guard
  removed_collector acc p st acc' st' :
  process_tree_body E input_root output_root is_fomc removal_guard
    removed_collector acc p st = (inr acc', st') ->
  exists html,
    read_html E p st = (inr html, st) /\
    (extract_text E html false None = "" /\
     removal_ratios acc' = removal_ratios acc \/
     extract_text E html false None <> "" /\
     exists r,
       removal_ratios acc'
       = removal_ratios acc
         ++ [F64.py_max F64.zero (F64.py_min (F64.lit 1 1) r)]) /\
    (extract_text E html is_fomc removal_guard = "" /\
     aggregates acc' = aggregates acc /\ written st' = written st \/
     extract_text E html is_fomc removal_guard <> "" /\
     total_files acc' = total_files acc + 1 /\
     total_chars acc'
     = total_chars acc + Str.len (extract_text E html is_fomc removal_guard) /\
     total_tokens acc'
     = total_tokens acc
       + length (tokenize (extract_text E html is_fomc removal_guard)) /\
     exists out_path,
       written st'
       = <[out_path := extract_text E html is_fomc removal_guard]> (written st)).
Proof.
  intros Hbody.
  pose proof (read_html_store E p st) as Hst.
  destruct (read_html E p st) as [[e|html] st0] eqn:Hr; cbn in Hst; subst st0.
  { unfold process_tree_body in Hbody.
    rewrite (bind_raises _ _ _ _ _ Hr) in Hbody. discriminate Hbody. }
  exists html. split; [reflexivity|].
  destruct (process_tree_body_first_half E input_root output_root is_fomc
              removal_guard removed_collector acc p st html Hr)
    as (acc1 & st1 & Hagg & Hw & _ & _ & Hratio & Heq).
  rewrite Heq in Hbody. unfold bind in Hbody.
  injection Hagg as Hfiles Hchars Htok Hcnt.
  pose proof (process_file_result E p input_root output_root is_fomc
                removal_guard st1) as Hpf.
  pose proof (read_html_same E p st st1 _ Hr) as Hr1.
  destruct (process_file E p input_root output_root is_fomc removal_guard st1)
    as [[e|[[[chars tokens] local_counter]|]] st2] eqn:Hfile.
  - discriminate Hbody.
  - destruct Hpf as (html' & out & Hr' & Hne & Hc & Ht & _ & Hst2).
    rewrite Hr1 in Hr'. injection Hr' as <-.
    injection Hbody as <- <-. cbn [removal_ratios].
    split; [exact Hratio|]. right.
    cbn [total_files total_chars total_tokens].
    rewrite Hfiles, Hchars, Htok, Hc, Ht, Hst2. cbn [written]. rewrite Hw.
    repeat split; try reflexivity; [exact Hne|]. now exists out.
  - injection Hbody as <- <-. subst st2.
    split; [exact Hratio|]. left.
    assert (He : extract_text E html is_fomc removal_guard = "").
    { unfold process_file in Hfile.
      rewrite (bind_returns _ _ _ _ _ Hr1) in Hfile.
      destruct (extract_text E html is_fomc removal_guard) as [|c s];
        [reflexivity|].
      cbn [Str.is_empty] in Hfile. unfold bind, lift, write in Hfile.
      destruct (txt_path E p input_root output_root) as [e|out];
        cbn in Hfile; [discriminate Hfile|].
      destruct (open_for_write E out); [discriminate Hfile|].
      destruct (write_fails E out (String c s)) as [[e k]|];
        discriminate Hfile. }
    repeat split; [exact He| |exact Hw].
    unfold aggregates. now rewrite Hfiles, Hchars, Htok, Hcnt.
Qed.

Lemma for_each_counted {A B} (body : B -> A -> M B)
  (Inv : nat -> B -> store -> Prop) :
  (forall n acc x st acc' st',
     body acc x st = (inr acc', st') -> Inv n acc st -> Inv (S n) acc' st') ->
  forall xs n acc st acc' st',
    for_each body xs acc st = (inr acc', st') ->
    Inv n acc st -> Inv (n + length xs) acc' st'.
Proof.
  intros Hbody. induction xs as [|x xs IH]; intros n acc st acc' st' Hrun Hinv.
  - cbn in Hrun. injection Hrun as <- <-. now rewrite Nat.add_0_r.
  - cbn [for_each] in Hrun. unfold bind in Hrun.
    destruct (body acc x st) as [[e|acc1] st1] eqn:Hb; [discriminate Hrun|].
    cbn [length]. rewrite <- Nat.add_succ_comm.
    exact (IH _ _ _ _ _ Hrun (Hbody _ _ _ _ _ _ Hb Hinv)).
Qed.

Lemma tokenize_length text : length (tokenize text) <= String.length text.
Proof.
  rewrite tokenize_runs, length_map.
  pose proof (findall_runs_length is_token_char 1 text 0). lia.
Qed.

Lemma nonempty_length s : s <> "" -> 1 <= String.length s.
Proof. destruct s; [congruence|cbn; lia]. Qed.

(** X15.  When [process_tree] returns, the number of files it reports is
    at most the number of HTML files under the input root, at most the
    number of characters it reports (a counted file is never empty), and
    the files written since the start of the run are at most that many;
    the number of tokens it reports is at most the number of
    characters. *)
Theorem process_tree_totals_bounded (E : Env) (input_root output_root : string)
  (is_fomc : bool) (removal_guard : option float) (removed_collector : bool)
  (st : store) (t : totals) (st' : store) :
  process_tree E input_root output_root is_fomc removal_guard
    removed_collector st = (inr t, st') ->
  total_files t <= length (html_paths E input_root) /\
  total_files t <= total_chars t /\
  total_tokens t <= total_chars t /\
  size (written st') <= size (written st) + total_files t.
Proof.
  intros Hrun. unfold process_tree in Hrun.
  set (Inv := fun (n : nat) (acc : totals) (s : store) =>
                total_files acc <= n /\ total_files acc <= total_chars acc /\
                total_tokens acc <= total_chars acc /\
                size (written s) <= size (written st) + total_files acc).
  assert (Hstart : Inv 0 no_totals st) by (unfold Inv; cbn; repeat split; lia).
  refine (for_each_counted _ Inv _ _ 0 _ _ _ _ Hrun Hstart).
  clear. intros n acc p s acc' s' Hbody (Hn & Hfc & Htc & Hsize). unfold Inv.
  apply process_tree_body_round in Hbody
    as (html & _ & _ & [(_ & Hagg & Hw)|(Hne & Hf & Hc & Ht & out & Hw)]).
  - injection Hagg as -> -> -> _. rewrite Hw. repeat split; lia.
  - rewrite Hf, Hc, Ht, Hw. unfold Str.len.
    pose proof (nonempty_length _ Hne).
    pose proof (tokenize_length (extract_text E html is_fomc removal_guard)).
    pose proof (map_size_insert out
                  (extract_text E html is_fomc removal_guard) (written s))
      as Hins.
    destruct (written s !! out); cbn in Hins; repeat split; lia.
Qed.

Lemma process_tree_totals_readable :
  returned run_readable = true /\
  total_files (totals_of run_readable) <= 1 /\
  total_files (totals_of run_readable) <= total_chars (totals_of run_readable).
Proof.
  assert (Hret : returned run_readable = true) by (vm_compute; reflexivity).
  pose proof (process_tree_totals_bounded tree_readable "in" "out" false None
                false empty_store (totals_of run_readable) (snd run_readable)
                (returned_eq _ Hret)) as (Hn & Hc & _).
  exact (conj Hret (conj Hn Hc)).
Defined.

(** X16.  When [process_tree] returns, every removal ratio it returns
    lies between 0.0 and 1.0; there is at most one ratio for each HTML
    file under the input root, and at least one for each file that is
    counted. *)
Theorem removal_ratios_in_unit_interval (E : Env)
  (input_root output_root : string) (is_fomc : bool)
  (removal_guard : option float) (removed_collector : bool)
  (st : store) (t : totals) (st' : store) :
  process_tree E input_root output_root is_fomc removal_guard
    removed_collector st = (inr t, st') ->
  Forall (fun r => in_unit_interval r = true) (removal_ratios t) /\
  length (removal_ratios t) <= length (html_paths E input_root) /\
  total_files t <= length (removal_ratios t).
Proof.
  intros Hrun. unfold process_tree in Hrun.
  set (Inv := fun (n : nat) (acc : totals) (_ : store) =>
                Forall (fun r => in_unit_interval r = true)
                  (removal_ratios acc) /\
                length (removal_ratios acc) <= n /\
                total_files acc <= length (removal_ratios acc)).
  assert (Hstart : Inv 0 no_totals st)
    by (unfold Inv; cbn; repeat split; [constructor|lia|lia]).
  refine (for_each_counted _ Inv _ _ 0 _ _ _ _ Hrun Hstart).
  clear. intros n acc p s acc' s' Hbody (Hall & Hn & Hf). unfold Inv.
  apply process_tree_body_round in Hbody as (html & _ & Hratio & Hfile).
  destruct Hratio as [(Hlight & ->)|(Hlight & r & ->)].
  - destruct Hfile as [(_ & Hagg & _)|(Hne & _)].
    + injection Hagg as -> _ _ _. repeat split; [exact Hall|lia|lia].
    + destruct Hne.
      now apply (light_empty_strict_empty E html is_fomc removal_guard None).
  - rewrite length_app. cbn [length].
    assert (Hfiles : total_files acc' <= total_files acc + 1).
    { destruct Hfile as [(_ & Hagg & _)|(_ & -> & _)]; [|lia].
      injection Hagg as -> _ _ _. lia. }
    repeat split; [|lia|lia].
    apply Forall_app. split; [exact Hall|].
    constructor; [apply unit_clamp|constructor].
Qed.

Lemma removal_ratios_readable :
  returned run_readable = true /\
  Forall (fun r => in_unit_interval r = true)
    (removal_ratios (totals_of run_readable)).
Proof.
  assert (Hret : returned run_readable = true) by (vm_compute; reflexivity).
  exact (conj Hret
           (proj1 (removal_ratios_in_unit_interval tree_readable "in" "out"
                     false None false empty_store (totals_of run_readable)
                     (snd run_readable) (returned_eq _ Hret)))).
Defined.

(** ** What a run does to the store *)

Lemma substring_all s : String.substring 0 (String.length s) s = s.
Proof. induction s as [|c s IH]; [reflexivity|]. cbn. now rewrite IH. Qed.

Lemma left_by_write_complete complete v :
  left_by_write true v -> left_by_write complete v.
Proof.
  destruct complete; [auto|]. intros Hv. cbn in *.
  exists v, (String.length v). split; [exact Hv|]. now rewrite substring_all.
Qed.

Lemma store_grows_refl complete collecting st :
  store_grows complete collecting st st.
Proof.
  split; [now left|]. split; [auto|].
  split; [exists []; now rewrite app_nil_r|reflexivity].
Qed.

Lemma store_grows_trans complete collecting st1 st2 st3 :
  store_grows complete collecting st1 st2 ->
  store_grows complete collecting st2 st3 ->
  store_grows complete collecting st1 st3.
Proof.
  intros (Hw12 & Hk12 & [m12 Hc12] & Hoff12) (Hw23 & Hk23 & [m23 Hc23] & Hoff23).
  split; [|split; [|split]].
  - intros k v Hv. destruct (Hw23 k v Hv) as [Hv2|Hclean]; [auto|now right].
  - auto.
  - exists (m12 ++ m23). now rewrite Hc23, Hc12, app_assoc.
  - intros Hoff. now rewrite Hoff23, Hoff12.
Qed.

Lemma store_grows_complete complete collecting st st' :
  store_grows true collecting st st' -> store_grows complete collecting st st'.
Proof.
  intros (Hw & Hk & Hmore & Hoff).
  split; [|split; [|split]]; try assumption.
  intros k v Hv. destruct (Hw k v Hv) as [Hold|Hnew]; [now left|right].
  now apply left_by_write_complete.
Qed.

Lemma store_grows_then complete collecting st1 st2 st3 :
  store_grows true collecting st1 st2 ->
  store_grows complete collecting st2 st3 ->
  store_grows complete collecting st1 st3.
Proof.
  intros H12 H23.
  exact (store_grows_trans _ _ _ _ _ (store_grows_complete _ _ _ _ H12) H23).
Qed.


Lemma extract_text_cleaned E html is_fomc removal_guard :
  extract_text E html is_fomc removal_guard <> "" ->
  is_cleaned (extract_text E html is_fomc removal_guard).
Proof.
  intros Hne. split; [exact Hne|].
  unfold extract_text. apply final_normalize_stripped.
Qed.

Lemma store_grows_insert complete collecting st out v :
  left_by_write complete v ->
  store_grows complete collecting st
    (Store (<[out := v]> (written st)) (collected st)).
Proof.
  intros Hv. split; [|split; [|split]]; cbn [written collected].
  - intros k w Hw. apply lookup_insert_Some in Hw as [[_ <-]|[_ Hw]];
      [now right|now left].
  - intros k Hk. apply lookup_insert_is_Some.
    destruct (decide (out = k)); [now left|now right].
  - exists []. now rewrite app_nil_r.
  - reflexivity.
Qed.

Lemma process_tree_body_store E input_root output_root is_fomc removal_guard
  removed_collector acc p st r st' :
  process_tree_body E input_root output_root is_fomc removal_guard
    removed_collector acc p st = (r, st') ->
  store_grows (succeeded r) (removed_collector && is_fomc) st st'.
Proof.
  intros Hbody.
  pose proof (read_html_store E p st) as Hst.
  destruct (read_html E p st) as [[e|html] st0] eqn:Hr; cbn in Hst; subst st0.
  { unfold process_tree_body in Hbody.
    rewrite (bind_raises _ _ _ _ _ Hr) in Hbody.
    injection Hbody as <- <-. apply store_grows_refl. }
  destruct (process_tree_body_first_half E input_root output_root is_fomc
              removal_guard removed_collector acc p st html Hr)
    as (acc1 & st1 & _ & Hw & Hmore & Hoff & _ & Heq).
  rewrite Heq in Hbody. unfold bind in Hbody.
  pose proof (process_file_result E p input_root output_root is_fomc
                removal_guard st1) as Hpf.
  assert (Hfirst : store_grows true (removed_collector && is_fomc) st st1).
  { split; [|split; [|split]]; [| |exact Hmore|exact Hoff].
    - intros k v Hv. left. now rewrite <- Hw.
    - intros k Hk. now rewrite Hw. }
  apply (store_grows_then _ _ _ st1); [exact Hfirst|].
  destruct (process_file E p input_root output_root is_fomc removal_guard st1)
    as [[e|[[[chars tokens] local_counter]|]] st2].
  - injection Hbody as <- <-. cbn [succeeded].
    destruct Hpf as [->|(html' & out & k & _ & Hne & ->)];
      [apply store_grows_refl|].
    apply store_grows_insert. cbn.
    exists (extract_text E html' is_fomc removal_guard), k.
    split; [now apply extract_text_cleaned|reflexivity].
  - injection Hbody as <- <-. cbn [succeeded].
    destruct Hpf as (html' & out & _ & Hne & _ & _ & _ & ->).
    apply store_grows_insert. cbn. now apply extract_text_cleaned.
  - injection Hbody as <- <-. subst st2. apply store_grows_refl.
Qed.

Lemma for_each_grows {A B} (body : B -> A -> M B) (collecting : bool) :
  (forall acc x st r st',
     body acc x st = (r, st') -> store_grows (succeeded r) collecting st st') ->
  forall xs acc st r st',
    for_each body xs acc st = (r, st') ->
    store_grows (succeeded r) collecting st st'.
Proof.
  intros Hbody.
  induction xs as [|x xs IH]; intros acc st r st' Hrun.
  - cbn in Hrun. injection Hrun as <- <-. apply store_grows_refl.
  - cbn [for_each] in Hrun. unfold bind in Hrun.
    destruct (body acc x st) as [[e|acc1] st1] eqn:Hb.
    + injection Hrun as <- <-. exact (Hbody _ _ _ _ _ Hb).
    + exact (store_grows_then _ _ _ _ _ (Hbody _ _ _ _ _ Hb)
               (IH _ _ _ _ Hrun)).
Qed.

Lemma process_tree_grows E input_root output_root is_fomc removal_guard
  removed_collector st r st' :
  process_tree E input_root output_root is_fomc removal_guard
    removed_collector st = (r, st') ->
  store_grows (succeeded r) (removed_collector && is_fomc) st st'.
Proof.
  unfold process_tree. apply for_each_grows.
  intros acc p s r0 s'. apply process_tree_body_store.
Qed.


(** A device with room for ten more characters: the write of the one
    file of the tree fails, the run raises, and the first ten characters
    of the cleaned text are left in the file. *)
Lemma full_device_leaves_a_partial_file :
  fst (process_tree (device_full 10 tree_readable) "in" "out" false None false
         empty_store) = inl OSError /\
  written (snd (process_tree (device_full 10 tree_readable) "in" "out" false
                  None false empty_store)) !! "out/b.txt"
  = Some "The staff ".
Proof. split; vm_compute; reflexivity. Qed.

(** ** [cmd_clean] *)





Lemma pair_of_fst {A B} (r : A * B) (a : A) : fst r = a -> r = (a, snd r).
Proof. destruct r as [x y]. cbn. now intros ->. Qed.

Lemma recommended_guard E ratios default guard :
  recommend_guard_from_profile E ratios default = inr guard ->
  ratios = [] /\ guard = default \/
  ratios <> [] /\
  guard = F64.py_max (F64.lit 30 100)
            (F64.py_min (F64.lit 60 100)
               (F64.add (F64.median (py_sorted E) ratios) (F64.lit 10 100))) /\
  F64.leb (F64.lit 30 100) guard = true /\
  F64.leb guard (F64.lit 60 100) = true.
Proof.
  unfold recommend_guard_from_profile. destruct ratios as [|r ratios].
  - intros H. injection H as <-. now left.
  - destruct (fmean E (r :: ratios)) as [e|mean]; [discriminate|].
    intros H. injection H as <-. right.
    split; [discriminate|]. split; [reflexivity|]. apply clamp_bounds.
Qed.

(** X19.  When [cmd_clean] returns, it returns 0; and when FOMC
    documents are asked for and their directory exists, the profiling
    pass and the final pass both returned, the profiling pass ran
    without a collector and with the default guard 0.4 (passing [None]
    does not switch the guard off), and the guard of the final pass is
    the one of the configuration when the profile has no ratio, and
    otherwise the median of the profile plus 0.10 clamped to
    [0.30, 0.60]. *)
Theorem cmd_clean_final_guard (E : Env) (path_exists : string -> bool)
  (args : Args) (config : Config) (st : store) (code : Z) (st' : store) :
  cmd_clean E path_exists args config st = (inr code, st') ->
  code = 0%Z /\
  (what_in args ["all"; "fomc"] = true ->
   path_exists (fomc_in config) = true ->
   exists profile st1 guard t st2,
     process_tree E (fomc_in config) (fomc_out config) true
       (Some DEFAULT_REMOVAL_GUARD) false (Store (written st) [])
     = (inr profile, st1) /\
     collected st1 = [] /\
     recommend_guard_from_profile E (removal_ratios profile)
       (cleaning_removal_guard config) = inr guard /\
     process_tree E (fomc_in config) (fomc_out config) true (Some guard)
       (save_removed args) st1 = (inr t, st2) /\
     (removal_ratios profile = [] /\ guard = cleaning_removal_guard config \/
      removal_ratios profile <> [] /\
      F64.leb (F64.lit 30 100) guard = true /\
      F64.leb guard (F64.lit 60 100) = true)).
Proof.
  unfold cmd_clean, new_list, save_removed_lines, removed_lines_so_far, write,
    bind, ret.
  destruct (clean_fomc E path_exists args config (Store (written st) []))
    as [[e|[]] s1] eqn:H1; [discriminate|].
  destruct (clean_speeches E path_exists args config s1) as [[e|[]] s2];
    [discriminate|].
  intros Hrun. split.
  { destruct (save_removed args && negb (is_nil (collected s2)));
      [destruct (open_for_write E (removed_path config));
       [|destruct (write_fails E (removed_path config)
                    (Str.join Str.nl (collected s2))) as [[e k]|]]|];
      congruence. }
  clear Hrun. intros Hwhat Hdir.
  unfold clean_fomc, bind, ret in H1. rewrite Hwhat, Hdir in H1.
  change (process_tree E (fomc_in config) (fomc_out config) true None false)
    with (process_tree E (fomc_in config) (fomc_out config) true
            (Some DEFAULT_REMOVAL_GUARD) false) in H1.
  destruct (process_tree E (fomc_in config) (fomc_out config) true
              (Some DEFAULT_REMOVAL_GUARD) false (Store (written st) []))
    as [[e|profile] st1] eqn:Hprofile; [discriminate|].
  destruct (recommend_guard_from_profile E (removal_ratios profile)
              (cleaning_removal_guard config)) as [e|guard] eqn:Hguard;
    cbn [lift] in H1; [discriminate|].
  unfold ret in H1.
  destruct (process_tree E (fomc_in config) (fomc_out config) true (Some guard)
              (save_removed args) st1) as [[e|t] st2] eqn:Hfinal;
    [discriminate|].
  exists profile, st1, guard, t, st2.
  split; [reflexivity|]. split.
  { apply process_tree_grows in Hprofile as (_ & _ & _ & Hoff).
    now apply Hoff. }
  split; [exact Hguard|]. split; [exact Hfinal|].
  apply recommended_guard in Hguard
    as [(Hnil & Hg)|(Hne & _ & Hlo & Hhi)]; [left|right]; auto.
Qed.

Lemma cmd_clean_fomc_only :
  fst run_clean_fomc = inr 0%Z /\
  exists guard,
    removal_ratios
      (totals_of
         (process_tree tree_fomc (fomc_in default_config)
            (fomc_out default_config) true (Some DEFAULT_REMOVAL_GUARD) false
            (Store (written empty_store) [])))
    <> [] /\
    F64.leb (F64.lit 30 100) guard = true /\
    F64.leb guard (F64.lit 60 100) = true.
Proof.
  assert (Hret : fst run_clean_fomc = inr 0%Z) by (vm_compute; reflexivity).
  split; [exact Hret|].
  destruct (proj2 (cmd_clean_final_guard tree_fomc only_fomc args_fomc
                     default_config empty_store 0 (snd run_clean_fomc)
                     (pair_of_fst _ _ Hret)) eq_refl eq_refl)
    as (profile & st1 & guard & t & st2 & Hprofile & _ & _ & _ & Hguard).
  exists guard.
  assert (Hratios : removal_ratios
                      (totals_of
                         (process_tree tree_fomc (fomc_in default_config)
                            (fomc_out default_config) true
                            (Some DEFAULT_REMOVAL_GUARD) false
                            (Store (written empty_store) [])))
                    <> []) by (vm_compute; discriminate).
  split; [exact Hratios|].
  destruct Hguard as [(Hnil & _)|(_ & Hlo & Hhi)]; [|now split].
  destruct Hratios.
  exact (eq_trans (f_equal (fun r => removal_ratios (totals_of r)) Hprofile)
           Hnil).
Defined.

(** ** [sanitize_filename] *)

Lemma unsafe_is_not_safe c : is_unsafe_char c = negb (is_safe_char c).
Proof. destruct c as [[] [] [] [] [] [] [] []]; vm_compute; reflexivity. Qed.

Lemma sub_set_runs items repl s :
  Re.sub false (Re.Plus (Re.In_ items)) repl s
  = sub_runs_from (Re.in_set false items) 1 repl 0 s.
Proof. unfold Re.sub. apply sub_from_runs; [lia|reflexivity]. Qed.

Lemma sanitize_filename_runs name :
  sanitize_filename name
  = strip_chars "-" (sub_runs_from is_unsafe_char 1 "-" 0 name).
Proof.
  unfold sanitize_filename, is_unsafe_char.
  exact (f_equal (strip_chars "-") (sub_set_runs _ "-" name)).
Qed.

Lemma sub_runs_safe (cls safe : ascii -> bool) :
  (forall c, cls c = negb (safe c)) -> safe "-"%char = true ->
  forall s skip,
    skip <= run_length cls s ->
    Str.all safe (sub_runs_from cls 1 "-" skip s) = true.
Proof.
  intros Hcls Hdash. induction s as [|c s IH]; intros skip Hskip;
    [reflexivity|].
  cbn [sub_runs_from run_length] in *. destruct skip as [|k].
  - destruct (cls c) eqn:Hc; cbn [andb].
    + cbn [Nat.leb]. rewrite Nat.sub_succ, Nat.sub_0_r.
      change ("-" +:+ ?x) with (String "-" x). cbn [Str.all].
      rewrite Hdash, IH by apply le_n. reflexivity.
    + cbn [Str.all]. rewrite IH by apply Nat.le_0_l.
      rewrite Hcls in Hc. apply negb_false_iff in Hc.
      now rewrite Hc.
  - destruct (cls c); [|lia]. apply IH. lia.
Qed.

Lemma sub_runs_of_safe (cls safe : ascii -> bool) :
  (forall c, cls c = negb (safe c)) ->
  forall s, Str.all safe s = true -> sub_runs_from cls 1 "-" 0 s = s.
Proof.
  intros Hcls. induction s as [|c s IH]; [reflexivity|].
  cbn [Str.all sub_runs_from]. intros H. apply andb_true_iff in H as [Hc Hs].
  rewrite Hcls, Hc. cbn [negb andb]. now rewrite IH.
Qed.

Lemma lstrip_chars_all p chars s :
  Str.all p s = true -> Str.all p (lstrip_chars chars s) = true.
Proof.
  induction s as [|c s IH]; [auto|].
  intros H. cbn [lstrip_chars]. destruct (char_in chars c); [|exact H].
  apply IH. cbn [Str.all] in H. now apply andb_true_iff in H as [_ ?].
Qed.

Lemma rstrip_chars_all p chars s :
  Str.all p s = true -> Str.all p (rstrip_chars chars s) = true.
Proof.
  induction s as [|c s IH]; [auto|].
  cbn [Str.all rstrip_chars]. intros H. apply andb_true_iff in H as [Hc Hs].
  destruct (char_in chars c && Str.is_empty (rstrip_chars chars s));
    [reflexivity|].
  cbn [Str.all]. now rewrite Hc, IH.
Qed.

Lemma rstrip_chars_idempotent chars s :
  rstrip_chars chars (rstrip_chars chars s) = rstrip_chars chars s.
Proof.
  induction s as [|c s IH]; [reflexivity|].
  cbn [rstrip_chars].
  destruct (char_in chars c && Str.is_empty (rstrip_chars chars s)) eqn:Hc;
    [reflexivity|].
  cbn [rstrip_chars]. now rewrite IH, Hc.
Qed.

Lemma lstrip_chars_starts chars s :
  starts_with (char_in chars) (lstrip_chars chars s) = false.
Proof.
  induction s as [|c s IH]; [reflexivity|].
  cbn [lstrip_chars]. destruct (char_in chars c) eqn:Hc; [exact IH|exact Hc].
Qed.

Lemma lstrip_chars_not_starting chars s :
  starts_with (char_in chars) s = false -> lstrip_chars chars s = s.
Proof. destruct s as [|c s]; [reflexivity|]. cbn. now intros ->. Qed.

Lemma starts_with_rstrip_chars chars s :
  starts_with (char_in chars) (rstrip_chars chars s) = true ->
  starts_with (char_in chars) s = true.
Proof.
  destruct s as [|c s]; [auto|]. cbn [rstrip_chars].
  destruct (char_in chars c && Str.is_empty (rstrip_chars chars s));
    [discriminate|auto].
Qed.

Lemma strip_chars_idempotent chars s :
  strip_chars chars (strip_chars chars s) = strip_chars chars s.
Proof.
  unfold strip_chars.
  rewrite (lstrip_chars_not_starting chars
             (rstrip_chars chars (lstrip_chars chars s))).
  - apply rstrip_chars_idempotent.
  - destruct (starts_with (char_in chars)
                (rstrip_chars chars (lstrip_chars chars s))) eqn:H;
      [|reflexivity].
    apply starts_with_rstrip_chars in H.
    now rewrite lstrip_chars_starts in H.
Qed.

Lemma lstrip_chars_length chars s :
  String.length (lstrip_chars chars s) <= String.length s.
Proof.
  induction s as [|c s IH]; [reflexivity|].
  cbn [lstrip_chars]. destruct (char_in chars c); cbn [String.length]; lia.
Qed.

Lemma rstrip_chars_length chars s :
  String.length (rstrip_chars chars s) <= String.length s.
Proof.
  induction s as [|c s IH]; [reflexivity|].
  cbn [rstrip_chars].
  destruct (char_in chars c && Str.is_empty (rstrip_chars chars s));
    cbn [String.length]; lia.
Qed.

Lemma sanitize_filename_safe name :
  Str.all is_safe_char (sanitize_filename name) = true.
Proof.
  rewrite sanitize_filename_runs. unfold strip_chars.
  apply rstrip_chars_all, lstrip_chars_all.
  apply (sub_runs_safe is_unsafe_char is_safe_char unsafe_is_not_safe eq_refl).
  apply Nat.le_0_l.
Qed.

Lemma sanitize_filename_stripped name :
  strip_chars "-" (sanitize_filename name) = sanitize_filename name.
Proof. rewrite sanitize_filename_runs. apply strip_chars_idempotent. Qed.

Lemma sanitize_filename_fixed name :
  Str.all is_safe_char name = true -> strip_chars "-" name = name ->
  sanitize_filename name = name.
Proof.
  intros Hsafe Hstrip.
  rewrite sanitize_filename_runs.
  rewrite (sub_runs_of_safe is_unsafe_char is_safe_char unsafe_is_not_safe
             name Hsafe).
  exact Hstrip.
Qed.

(** X20.  Every character of the name that [sanitize_filename] returns
    is a letter, a digit, a dot, an underscore or a hyphen; the name
    neither starts nor ends with a hyphen, and is no longer than the
    argument. *)
Theorem sanitize_filename_is_safe (name : string) :
  Str.all is_safe_char (sanitize_filename name) = true /\
  Str.startswith "-" (sanitize_filename name) = false /\
  strip_chars "-" (sanitize_filename name) = sanitize_filename name /\
  Str.len (sanitize_filename name) <= Str.len name.
Proof.
  split; [apply sanitize_filename_safe|].
  split; [|split; [apply sanitize_filename_stripped|]].
  - rewrite <- sanitize_filename_stripped. unfold strip_chars.
    destruct (Str.startswith "-"
                (rstrip_chars "-" (lstrip_chars "-" (sanitize_filename name))))
      eqn:H; [|reflexivity].
    assert (Hs : starts_with (char_in "-")
                   (rstrip_chars "-" (lstrip_chars "-" (sanitize_filename name)))
                 = true).
    { destruct (rstrip_chars "-" (lstrip_chars "-" (sanitize_filename name)))
        as [|c r]; [discriminate H|].
      cbn [Str.startswith] in H. rewrite andb_true_r in H.
      cbn [starts_with]. unfold char_in.
      cbn [list_ascii_of_string existsb]. rewrite orb_false_r.
      unfold Chr.eqb in *. now rewrite Ascii.eqb_sym. }
    apply starts_with_rstrip_chars in Hs.
    now rewrite lstrip_chars_starts in Hs.
  - rewrite sanitize_filename_runs. unfold Str.len, strip_chars.
    pose proof (sub_runs_length is_unsafe_char 1 "-" (le_n _) name 0
                  (Nat.le_0_l _)).
    pose proof (rstrip_chars_length "-"
                  (lstrip_chars "-"
                     (sub_runs_from is_unsafe_char 1 "-" 0 name))).
    pose proof (lstrip_chars_length "-"
                  (sub_runs_from is_unsafe_char 1 "-" 0 name)).
    lia.
Qed.

(** X21.  [sanitize_filename] is idempotent, and a name made of letters,
    digits, dots, underscores and hyphens with no hyphen at either end
    is returned as it is. *)
Theorem sanitize_filename_idempotent (name : string) :
  sanitize_filename (sanitize_filename name) = sanitize_filename name /\
  (Str.all is_safe_char name = true -> strip_chars "-" name = name ->
   sanitize_filename name = name).
Proof.
  split; [|apply sanitize_filename_fixed].
  apply sanitize_filename_fixed;
    [apply sanitize_filename_safe|apply sanitize_filename_stripped].
Qed.

(** ** [deduplicate_records] *)

Lemma deduplicate_loop_step r rest seen unique :
  deduplicate_loop (r :: rest) seen unique
  = match key_of r with
    | None =>
        inl (KeyError match r !! "url" with
                      | Some _ => "doc_type"
                      | None => "url"
                      end)
    | Some key =>
        if decide (key ∈ seen) then deduplicate_loop rest seen unique
        else deduplicate_loop rest ({[key]} ∪ seen) (unique ++ [r])
    end.
Proof.
  cbn [deduplicate_loop]. unfold getitem, key_of.
  destruct (r !! "url"), (r !! "doc_type"); reflexivity.
Qed.

Lemma deduplicate_loop_returns records :
  forall seen unique res,
    deduplicate_loop records seen unique = inr res ->
    exists added,
      res = unique ++ added /\ added `sublist_of` records /\
      NoDup (map key_of added) /\
      Forall (fun r => exists k, key_of r = Some k /\ k ∉ seen) added /\
      Forall (fun r => exists k, key_of r = Some k /\
                         (k ∈ seen \/ In (Some k) (map key_of added)))
        records.
Proof.
  induction records as [|r rest IH]; intros seen unique res Hres.
  - cbn in Hres. injection Hres as <-. exists [].
    rewrite app_nil_r. repeat split; constructor.
  - rewrite deduplicate_loop_step in Hres.
    destruct (key_of r) as [key|] eqn:Hkey; [|discriminate Hres].
    destruct (decide (key ∈ seen)) as [Hseen|Hnew].
    + destruct (IH _ _ _ Hres) as (added & -> & Hsub & Hnd & Hadded & Hall).
      exists added. split; [reflexivity|]. split; [now apply sublist_cons|].
      split; [exact Hnd|]. split; [exact Hadded|].
      constructor; [|exact Hall]. exists key. auto.
    + destruct (IH _ _ _ Hres) as (added & -> & Hsub & Hnd & Hadded & Hall).
      exists (r :: added). split; [now rewrite <- app_assoc|].
      split; [now apply sublist_skip|].
      assert (Hfresh : ~ In (Some key) (map key_of added)).
      { intros Hin. apply in_map_iff in Hin as (r' & Hr' & Hin).
        rewrite Forall_forall in Hadded.
        destruct (Hadded r' (proj2 (list_elem_of_In _ _) Hin))
          as (k & Hk & Hout).
        rewrite Hr' in Hk. injection Hk as <-. set_solver. }
      split.
      { cbn [map]. rewrite Hkey. constructor; [|exact Hnd].
        intros Hin. now apply list_elem_of_In in Hin. }
      split.
      * constructor; [now exists key|].
        eapply Forall_impl; [exact Hadded|].
        intros r' (k & Hk & Hout). exists k. split; [exact Hk|set_solver].
      * constructor; [exists key; split; [exact Hkey|right; now left]|].
        eapply Forall_impl; [exact Hall|].
        intros r' (k & Hk & [Hin|Hin]); exists k; (split; [exact Hk|]).
        -- apply elem_of_union in Hin as [Hin|Hin]; [|now left].
           apply elem_of_singleton in Hin as ->. right. now left.
        -- right. now right.
Qed.

Lemma deduplicate_loop_distinct l :
  forall seen unique,
    NoDup (map key_of l) ->
    Forall (fun r => exists k, key_of r = Some k /\ k ∉ seen) l ->
    deduplicate_loop l seen unique = inr (unique ++ l).
Proof.
  induction l as [|r l IH]; intros seen unique Hnd Hall.
  - cbn. now rewrite app_nil_r.
  - rewrite deduplicate_loop_step.
    inversion Hall as [|? ? (k & Hk & Hout) Hrest]; subst.
    rewrite Hk. destruct (decide (k ∈ seen)) as [Hin|_]; [contradiction|].
    cbn [map] in Hnd. rewrite Hk in Hnd.
    inversion Hnd as [|? ? Hfresh Hnd']; subst.
    rewrite IH, <- app_assoc; [reflexivity|exact Hnd'|].
    rewrite Forall_forall in Hrest. apply Forall_forall.
    intros r' Hr'. destruct (Hrest r' Hr') as (k' & Hk' & Hout').
    exists k'. split; [exact Hk'|].
    intros Hin. apply elem_of_union in Hin as [Hin|Hin]; [|contradiction].
    apply elem_of_singleton in Hin as ->. apply Hfresh.
    apply list_elem_of_In, in_map_iff. exists r'.
    split; [exact Hk'|now apply list_elem_of_In].
Qed.

Lemma deduplicate_loop_raises records :
  forall seen unique,
    (exists e, deduplicate_loop records seen unique = inl e) <->
    Exists (fun r => key_of r = None) records.
Proof.
  induction records as [|r rest IH]; intros seen unique.
  - cbn. split; [intros [e He]; discriminate He|intros H; inversion H].
  - rewrite deduplicate_loop_step. destruct (key_of r) as [key|] eqn:Hkey.
    + destruct (decide (key ∈ seen)); rewrite IH; split;
        try (intros H; now right);
        intros H; inversion H as [? ? Hr|? ? Hrest]; subst;
        try congruence; exact Hrest.
    + split; [intros _; now left|intros _; eexists; reflexivity].
Qed.

(** X22.  When [deduplicate_records] returns, the records it returns
    are records of the argument in their order, no two of them have the
    same URL and document type, every record of the argument has its
    URL and document type in one of them; and the function returns its
    own result as it is. *)
Theorem deduplicate_records_unique (records unique : list record) :
  deduplicate_records records = inr unique ->
  unique `sublist_of` records /\
  NoDup (map key_of unique) /\
  (forall r, In r records ->
             key_of r <> None /\
             exists kept, In kept unique /\ key_of kept = key_of r) /\
  deduplicate_records unique = inr unique.
Proof.
  intros Hres. unfold deduplicate_records in *.
  apply deduplicate_loop_returns in Hres
    as (added & -> & Hsub & Hnd & Hadded & Hall).
  cbn [app]. split; [exact Hsub|]. split; [exact Hnd|]. split.
  - intros r Hr. rewrite Forall_forall in Hall.
    destruct (Hall r (proj2 (list_elem_of_In _ _) Hr)) as (k & Hk & [Hin|Hin]);
      [set_solver|].
    rewrite Hk. split; [discriminate|].
    apply in_map_iff in Hin as (kept & Hkept & Hin). now exists kept.
  - now apply (deduplicate_loop_distinct added ∅ []).
Qed.

Lemma three_links_deduplicated :
  deduplicate_records three_links = inr (firstn 2 three_links) /\
  deduplicate_records (firstn 2 three_links) = inr (firstn 2 three_links).
Proof.
  assert (H : deduplicate_records three_links = inr (firstn 2 three_links))
    by (vm_compute; reflexivity).
  exact (conj H
           (proj2 (proj2 (proj2 (deduplicate_records_unique three_links
                                   (firstn 2 three_links) H))))).
Defined.

(** X23.  [deduplicate_records] raises [KeyError] exactly when some
    record of the argument, a duplicate or not, has no URL or no
    document type. *)
Theorem deduplicate_records_key_error (records : list record) :
  (exists e, deduplicate_records records = inl e) <->
  Exists (fun r => key_of r = None) records.
Proof. unfold deduplicate_records. apply deduplicate_loop_raises. Qed.
